(** * The incremental cache-and-sync engine of [today.py]

    A shallow embedding of the functions [cache_builder], [flush_cache],
    [force_close_file], [recursive_loc] and [loc_counter_one_repo] of
    [src/today.py], together with the Python built-ins they rely on
    ([str.split], [int], [str], [readlines], [writelines], list slicing),
    and the properties of the cache that the specification states. A
    second part embeds the functions around them ([loc_query],
    [simple_request], [graph_repos_stars], [stars_counter],
    [commit_counter], [add_archive], [find_and_replace], [justify_format],
    [svg_overwrite]) and states further properties of the code.

    Modelling conventions.
    - Python [int] is [Z]; Python [str] is [string]; a list is a [list].
    - A raised exception is the [Raise] constructor of [result]; the world
      (file system, request clock, query counter) is passed explicitly.
    - A file holds the text that Python's text-mode [read] returns for it;
      decoding and platform newline translation are outside the model.
    - [comment_size] is a line count and is a [nat]. *)

From Stdlib Require Import ZArith Ascii.
From stdpp Require Import gmap strings list fin_maps.

Local Open Scope Z_scope.

(** ** Python built-ins on strings *)

Module Py.

(** The ASCII characters for which [str.isspace] holds. *)
Definition is_space (c : ascii) : bool :=
  let n := nat_of_ascii c in
  ((9 <=? n)%nat && (n <=? 13)%nat) || ((28 <=? n)%nat && (n <=? 32)%nat).

Definition newline : ascii := ascii_of_nat 10.

(** [s.split()]: the maximal runs of non-whitespace characters. *)
Fixpoint split (s : string) : list string :=
  match s with
  | EmptyString => []
  | String c s' =>
      if is_space c then split s'
      else match s' with
           | EmptyString => [String c EmptyString]
           | String c' _ =>
               if is_space c' then String c EmptyString :: split s'
               else match split s' with
                    | t :: ts => String c t :: ts
                    | [] => [String c EmptyString]
                    end
           end
  end.

(** [s.split(sep)] for a one-character separator: empty fields are kept. *)
Fixpoint split_on (sep : ascii) (s : string) : list string :=
  match s with
  | EmptyString => [EmptyString]
  | String c s' =>
      if Ascii.eqb c sep then EmptyString :: split_on sep s'
      else match split_on sep s' with
           | t :: ts => String c t :: ts
           | [] => [String c EmptyString]
           end
  end.

(** [f.readlines()]: the text cut after every newline. *)
Fixpoint readlines (s : string) : list string :=
  match s with
  | EmptyString => []
  | String c s' =>
      if Ascii.eqb c newline then String c EmptyString :: readlines s'
      else match readlines s' with
           | t :: ts => String c t :: ts
           | [] => [String c EmptyString]
           end
  end.

(** The text that [f.writelines(ls)] appends. *)
Definition text_of (ls : list string) : string := foldr String.append EmptyString ls.

Definition digit_val (c : ascii) : option Z :=
  let n := nat_of_ascii c in
  if ((48 <=? n)%nat && (n <=? 57)%nat) then Some (Z.of_nat n - 48) else None.

(** The digits of an [int] literal; a single underscore may separate two
    digits. [seen] tells whether the previous character was a digit. *)
Fixpoint int_digits (acc : Z) (seen : bool) (s : string) : option Z :=
  match s with
  | EmptyString => if seen then Some acc else None
  | String c s' =>
      match digit_val c with
      | Some d => int_digits (10 * acc + d) true s'
      | None =>
          if Ascii.eqb c "_"%char && seen then int_digits acc false s' else None
      end
  end.

(** [int(s)] on a string without surrounding whitespace (the fields that
    [split] returns have none); [None] stands for [ValueError]. Digits
    outside ASCII are not modelled. *)
Definition int (s : string) : option Z :=
  match s with
  | String c s' =>
      if Ascii.eqb c "-"%char then Z.opp <$> int_digits 0 false s'
      else if Ascii.eqb c "+"%char then int_digits 0 false s'
      else int_digits 0 false s
  | EmptyString => None
  end.

Definition digit_char (d : Z) : ascii := ascii_of_nat (48 + Z.to_nat d).

Fixpoint digits_from (fuel : nat) (n : Z) (tail : string) : string :=
  match fuel with
  | O => tail
  | S fuel' =>
      let tail' := String (digit_char (n mod 10)) tail in
      if n <? 10 then tail' else digits_from fuel' (n / 10) tail'
  end.

Definition digits (n : Z) : string :=
  digits_from (S (Z.to_nat (Z.log2 n))) n EmptyString.

(** [str(z)] for an [int]. *)
Definition str (z : Z) : string :=
  if z <? 0 then String "-"%char (digits (- z)) else digits z.

(** [l[start:stop]] for a list: a negative index counts from the end, and
    both indices are clamped to the list. *)
Definition slice {A : Type} (start stop : Z) (l : list A) : list A :=
  let n := Z.of_nat (length l) in
  let clamp := fun i : Z => if i <? 0 then Z.max 0 (i + n) else Z.min i n in
  take (Z.to_nat (clamp stop - clamp start)) (drop (Z.to_nat (clamp start)) l).

(** [s[:-1]]: the string without its last character. *)
Fixpoint but_last (s : string) : string :=
  match s with
  | EmptyString => EmptyString
  | String c s' =>
      match s' with
      | EmptyString => EmptyString
      | String _ _ => String c (but_last s')
      end
  end.

(** [s.isdigit()] on ASCII text: at least one character, all of them
    decimal digits. *)
Fixpoint all_digits (s : string) : bool :=
  match s with
  | EmptyString => true
  | String c s' => match digit_val c with Some _ => all_digits s' | None => false end
  end.

Definition isdigit (s : string) : bool :=
  match s with EmptyString => false | String _ _ => all_digits s end.

(** [c * n] for a one-character string [c]. *)
Fixpoint repeat (c : ascii) (n : nat) : string :=
  match n with
  | O => EmptyString
  | S n' => String c (repeat c n')
  end.

(** The digits of ['{:,}'.format(n)]: a comma before every group of three
    digits, counted from the right. *)
Fixpoint group3 (s : string) : string :=
  match s with
  | EmptyString => EmptyString
  | String c s' =>
      if (0 <? String.length s')%nat && (String.length s' mod 3 =? 0)%nat
      then String c (String ","%char (group3 s'))
      else String c (group3 s')
  end.

(** ['{:,}'.format(z)] for an [int]. *)
Definition format_commas (z : Z) : string :=
  if z <? 0 then String "-"%char (group3 (digits (- z))) else group3 (digits z).

End Py.

(** A token: a non-empty string without whitespace, as [split] returns. *)
Fixpoint no_space (s : string) : bool :=
  match s with
  | EmptyString => true
  | String c s' => negb (Py.is_space c) && no_space s'
  end.

Definition is_token (s : string) : bool :=
  match s with EmptyString => false | _ => no_space s end.

(** A line as [readlines] returns it: non-empty, with no newline before its
    last character. [full_line] also ends in a newline. *)
Fixpoint is_line (s : string) : bool :=
  match s with
  | EmptyString => false
  | String c EmptyString => true
  | String c s' => negb (Ascii.eqb c Py.newline) && is_line s'
  end.

Fixpoint full_line (s : string) : bool :=
  match s with
  | EmptyString => false
  | String c EmptyString => Ascii.eqb c Py.newline
  | String c s' => negb (Ascii.eqb c Py.newline) && full_line s'
  end.

(** Every line but the last ends in a newline. *)
Fixpoint lines_ok (ls : list string) : bool :=
  match ls with
  | [] => true
  | [l] => is_line l
  | l :: ls' => full_line l && lines_ok ls'
  end.

(** No newline anywhere in the string. *)
Fixpoint no_nl (s : string) : bool :=
  match s with
  | EmptyString => true
  | String c s' => negb (Ascii.eqb c Py.newline) && no_nl s'
  end.

(** ** Data model *)

Inductive exn :=
  | TypeError | ValueError | IndexError | RuntimeError | OSError | FileNotFoundError.

Inductive result (A : Type) :=
  | Ok (a : A)
  | Raise (e : exn).
Arguments Ok {A} a.
Arguments Raise {A} e.

(** One commit of a fetched page: [node['node']['author']['user']] is
    either [None] or [{'id': ...}]; we keep the id. The [author] object
    itself is taken to be present, as the query selects it for every
    commit. *)
Record commit_node := {
  author_user : option string;
  additions : Z;
  deletions : Z
}.

(** [defaultBranchRef.target.history] of a [recursive_loc] response. *)
Record history := {
  totalCount : Z;
  hist_edges : list commit_node;
  hasNextPage : bool;
  endCursor : option string
}.

(** What one [session.post] does: it raises [requests.RequestException],
    or returns a response with a status code whose body holds
    [data.repository.defaultBranchRef] ([None] for a repository without a
    default branch). *)
Inductive http_outcome :=
  | RequestException
  | Response (status_code : Z) (branch : option history).

(** One edge of the repository listing that [loc_query] passes to
    [cache_builder]: [defaultBranchRef] is [None] or carries
    [target.history.totalCount]. *)
Record repo_edge := {
  nameWithOwner : string;
  defaultBranchRef : option Z
}.

(** The value [recursive_loc] returns: the tuple of
    [loc_counter_one_repo], the integer [0], or [None] when the attempt
    loop ends without a [return]. *)
Inductive loc_value :=
  | LocTuple (addition_total deletion_total my_commits : Z)
  | LocZero
  | LocNone.

(** The mutable world: the text of every file, the number of requests
    posted so far (the clock of the remote), and
    [QUERY_COUNT['recursive_loc']]. *)
Record world := {
  files : gmap string string;
  posts : nat;
  recursive_loc_calls : nat
}.

Definition set_files (w : world) (fs : gmap string string) : world :=
  {| files := fs; posts := posts w; recursive_loc_calls := recursive_loc_calls w |}.

Definition tick (w : world) : world :=
  {| files := files w; posts := S (posts w); recursive_loc_calls := recursive_loc_calls w |}.

Definition query_count (w : world) : world :=
  {| files := files w; posts := posts w; recursive_loc_calls := S (recursive_loc_calls w) |}.

(** The environment of a run: the remote (its answer to the request posted
    at a given clock value for owner, repository name and cursor), the
    paths that can be opened for writing, the digest of [hashlib], and the
    globals [USER_NAME] and [OWNER_ID]. *)
Record env := {
  remote : nat -> string -> string -> option string -> http_outcome;
  can_write : string -> bool;
  sha256_hex : string -> string;
  USER_NAME : string;
  OWNER_ID : string
}.

(** ** File operations, one step at a time *)

Inductive fs_op :=
  | Create (p : string)             (* open(p, 'w') *)
  | Append (p : string) (s : string)  (* f.write(s) on the open file p *)
  | Replace (src dst : string).     (* os.replace(src, dst) *)

Definition nl : string := String Py.newline EmptyString.

Definition tmp_of (filename : string) : string := filename +:+ ".tmp".

(** [open(p,'w')] followed by [writelines(ls)]. *)
Definition write_file (p : string) (ls : list string) : list fs_op :=
  Create p :: map (Append p) ls.

(** The temp-file-then-rename sequence of [cache_builder], [flush_cache]
    and [force_close_file]. *)
Definition atomic_write (filename : string) (ls : list string) : list fs_op :=
  write_file (tmp_of filename) ls ++ [Replace (tmp_of filename) filename].

Definition zero_record (repo_hash : string) : string :=
  repo_hash +:+ " 0 0 0 0" +:+ nl.

Definition format_record (repo_hash : string) (total my add del : Z) : string :=
  repo_hash +:+ " " +:+ Py.str total +:+ " " +:+ Py.str my +:+ " "
            +:+ Py.str add +:+ " " +:+ Py.str del +:+ nl.

Definition comment_line : string :=
  "This line is a comment block. Write whatever you want here." +:+ nl.

Definition max_attempts : Z := 4.

Section Model.
Context (E : env).

Definition fs_step (fs : gmap string string) (op : fs_op) : option (gmap string string) :=
  match op with
  | Create p => if can_write E p then Some (<[p := EmptyString]> fs) else None
  | Append p s =>
      match fs !! p with
      | Some text => Some (<[p := text +:+ s]> fs)
      | None => None
      end
  | Replace src dst =>
      match fs !! src with
      | Some text => Some (<[dst := text]> (delete src fs))
      | None => None
      end
  end.

(** Runs the operations in order and stops at the first that fails; the
    boolean tells whether all of them succeeded. *)
Fixpoint fs_run (fs : gmap string string) (ops : list fs_op) : gmap string string * bool :=
  match ops with
  | [] => (fs, true)
  | op :: ops' =>
      match fs_step fs op with
      | Some fs' => fs_run fs' ops'
      | None => (fs, false)
      end
  end.

Definition cache_filename : string :=
  "cache/" +:+ sha256_hex E (USER_NAME E) +:+ ".txt".

Definition repo_key (edge : repo_edge) : string :=
  sha256_hex E (nameWithOwner edge).

(** [force_close_file(data, cache_comment)]: the atomic write, and on any
    exception the direct overwrite, whose own failure is only printed
    (the messages printed are not modelled). *)
Definition force_close_file (w : world) (data cache_comment : list string) : world :=
  let filename := cache_filename in
  match fs_run (files w) (atomic_write filename (cache_comment ++ data)) with
  | (fs', true) => set_files w fs'
  | (fs', false) =>
      set_files w (fs_run fs' (write_file filename (cache_comment ++ data))).1
  end.

(** [flush_cache(edges, filename, comment_size)]. *)
Definition flush_cache (w : world) (edges : list repo_edge) (filename : string)
    (comment_size : nat) : result unit * world :=
  match files w !! filename with
  | None => (Raise FileNotFoundError, w)
  | Some text =>
      let data := if (0 <? comment_size)%nat then take comment_size (Py.readlines text) else [] in
      match fs_run (files w)
              (atomic_write filename (data ++ map (fun node => zero_record (repo_key node)) edges)) with
      | (fs', true) => (Ok (), set_files w fs')
      | (fs', false) => (Raise OSError, set_files w fs')
      end
  end.

(** The [for node in history['edges']] loop of [loc_counter_one_repo]. *)
Definition count_node (acc : Z * Z * Z) (node : commit_node) : Z * Z * Z :=
  let '(addition_total, deletion_total, my_commits) := acc in
  if decide (author_user node = Some (OWNER_ID E))
  then (addition_total + additions node, deletion_total + deletions node, my_commits + 1)
  else acc.

Definition count_page (edges : list commit_node) (acc : Z * Z * Z) : Z * Z * Z :=
  fold_left count_node edges acc.

(** [loc_counter_one_repo]; [recurse] is the call back into
    [recursive_loc] with the cursor of the next page. *)
Definition loc_counter_one_repo
    (recurse : world -> Z -> Z -> Z -> option string -> option (result loc_value * world))
    (w : world) (h : history) (addition_total deletion_total my_commits : Z)
    : option (result loc_value * world) :=
  let '(addition_total, deletion_total, my_commits) :=
    count_page (hist_edges h) (addition_total, deletion_total, my_commits) in
  if bool_decide (hist_edges h = []) || negb (hasNextPage h)
  then Some (Ok (LocTuple addition_total deletion_total my_commits), w)
  else recurse w addition_total deletion_total my_commits (endCursor h).

(** The [for attempt in range(1, max_attempts + 1)] loop of
    [recursive_loc]; [on_history] is the call of [loc_counter_one_repo].
    [time.sleep] is not modelled. *)
Fixpoint attempt_loop
    (on_history : world -> history -> option (result loc_value * world))
    (owner repo_name : string) (data cache_comment : list string)
    (cursor : option string) (attempts : list Z) (w : world)
    : option (result loc_value * world) :=
  match attempts with
  | [] => Some (Ok LocNone, w)
  | attempt :: rest =>
      let w1 := tick w in
      match remote E (posts w) owner repo_name cursor with
      | RequestException =>
          if attempt =? max_attempts
          then Some (Raise RuntimeError, force_close_file w1 data cache_comment)
          else attempt_loop on_history owner repo_name data cache_comment cursor rest w1
      | Response status_code branch =>
          if status_code =? 200 then
            match branch with
            | Some h => on_history w1 h
            | None => Some (Ok LocZero, w1)
            end
          else if (500 <=? status_code) && (status_code <? 600) then
            if attempt =? max_attempts
            then Some (Raise RuntimeError, force_close_file w1 data cache_comment)
            else attempt_loop on_history owner repo_name data cache_comment cursor rest w1
          else if status_code =? 403 then
            Some (Raise RuntimeError, force_close_file w1 data cache_comment)
          else
            Some (Raise RuntimeError, force_close_file w1 data cache_comment)
      end
  end.

(** [recursive_loc]: one call per page; [fuel] bounds the number of pages
    and [None] means that it ran out. *)
Fixpoint recursive_loc (fuel : nat) (w : world) (owner repo_name : string)
    (data cache_comment : list string)
    (addition_total deletion_total my_commits : Z) (cursor : option string)
    : option (result loc_value * world) :=
  match fuel with
  | O => None
  | S fuel' =>
      attempt_loop
        (fun w' h =>
           loc_counter_one_repo
             (fun w'' a d m c =>
                recursive_loc fuel' w'' owner repo_name data cache_comment a d m c)
             w' h addition_total deletion_total my_commits)
        owner repo_name data cache_comment cursor [1; 2; 3; 4] (query_count w)
  end.

(** The [try: open(filename) ... except FileNotFoundError] of
    [cache_builder]. *)
Definition load_cache (w : world) (filename : string) (comment_size : nat)
    : result (list string) * world :=
  match files w !! filename with
  | Some text => (Ok (Py.readlines text), w)
  | None =>
      let data := if (0 <? comment_size)%nat then replicate comment_size comment_line else [] in
      match fs_run (files w) (write_file filename data) with
      | (fs', true) => (Ok data, set_files w fs')
      | (fs', false) => (Raise OSError, set_files w fs')
      end
  end.

(** The test that decides the rebuild:
    [len(data)-comment_size != len(edges) or force_cache]. *)
Definition needs_flush (data : list string) (comment_size : nat)
    (edges : list repo_edge) (force_cache : bool) : bool :=
  negb (Z.of_nat (length data) - Z.of_nat comment_size =? Z.of_nat (length edges))
  || force_cache.

(** The rebuild step of [cache_builder]: returns [cached] and the lines. *)
Definition reconcile (w : world) (filename : string) (comment_size : nat)
    (force_cache : bool) (edges : list repo_edge) (data : list string)
    : result (bool * list string) * world :=
  if needs_flush data comment_size edges force_cache then
    match flush_cache w edges filename comment_size with
    | (Ok _, w1) =>
        match files w1 !! filename with
        | Some text => (Ok (false, Py.readlines text), w1)
        | None => (Raise FileNotFoundError, w1)
        end
    | (Raise e, w1) => (Raise e, w1)
    end
  else (Ok (true, data), w).

(** The body of [for index in range(len(edges))], for [edge = edges[index]]. *)
Definition update_index (fuel : nat) (w : world) (cache_comment data : list string)
    (index : nat) (edge : repo_edge) : option (result (list string) * world) :=
  match data !! index with
  | None => Some (Raise IndexError, w)
  | Some line =>
      match Py.split line with
      | repo_hash :: commit_count :: _ =>
          if String.eqb repo_hash (repo_key edge) then
            match Py.int commit_count with
            | None => Some (Raise ValueError, w)
            | Some stored =>
                match defaultBranchRef edge with
                | None => (* TypeError, caught *)
                    Some (Ok (<[index := zero_record repo_hash]> data), w)
                | Some total =>
                    if negb (stored =? total) then
                      match Py.split_on "/"%char (nameWithOwner edge) with
                      | [owner; repo_name] =>
                          match recursive_loc fuel w owner repo_name data cache_comment 0 0 0 None with
                          | None => None
                          | Some (Ok (LocTuple a d m), w1) =>
                              Some (Ok (<[index := format_record repo_hash total m a d]> data), w1)
                          | Some (Ok _, w1) => (* loc[2] raises TypeError, caught *)
                              Some (Ok (<[index := zero_record repo_hash]> data), w1)
                          | Some (Raise TypeError, w1) =>
                              Some (Ok (<[index := zero_record repo_hash]> data), w1)
                          | Some (Raise e, w1) => Some (Raise e, w1)
                          end
                      | _ => Some (Raise ValueError, w)
                      end
                    else Some (Ok data, w)
                end
            end
          else Some (Ok data, w)
      | _ => Some (Raise ValueError, w)
      end
  end.

(** The whole loop, from position [index] over the remaining edges. *)
Fixpoint update_from (fuel : nat) (w : world) (cache_comment data : list string)
    (index : nat) (edges : list repo_edge) : option (result (list string) * world) :=
  match edges with
  | [] => Some (Ok data, w)
  | edge :: rest =>
      match update_index fuel w cache_comment data index edge with
      | None => None
      | Some (Raise e, w1) => Some (Raise e, w1)
      | Some (Ok data1, w1) => update_from fuel w1 cache_comment data1 (S index) rest
      end
  end.

(** The closing [for line in data] loop: sums fields 3 and 4. *)
Fixpoint sum_loc (data : list string) (loc_add loc_del : Z) : result (Z * Z) :=
  match data with
  | [] => Ok (loc_add, loc_del)
  | line :: rest =>
      let loc := Py.split line in
      match loc !! 3%nat with
      | None => Raise IndexError
      | Some f3 =>
          match Py.int f3 with
          | None => Raise ValueError
          | Some a =>
              match loc !! 4%nat with
              | None => Raise IndexError
              | Some f4 =>
                  match Py.int f4 with
                  | None => Raise ValueError
                  | Some d => sum_loc rest (loc_add + a) (loc_del + d)
                  end
              end
          end
      end
  end.

(** The part of [cache_builder] that follows the rebuild step. *)
Definition cache_builder_tail (fuel : nat) (w : world) (filename : string)
    (comment_size : nat) (edges : list repo_edge) (cached : bool) (data : list string)
    : option (result (Z * Z * Z * bool) * world) :=
  let cache_comment := take comment_size data in
  let data := drop comment_size data in
  match update_from fuel w cache_comment data 0 edges with
  | None => None
  | Some (Raise e, w1) => Some (Raise e, w1)
  | Some (Ok data, w1) =>
      match fs_run (files w1) (atomic_write filename (cache_comment ++ data)) with
      | (fs', false) => Some (Raise OSError, set_files w1 fs')
      | (fs', true) =>
          match sum_loc data 0 0 with
          | Raise e => Some (Raise e, set_files w1 fs')
          | Ok (loc_add, loc_del) =>
              Some (Ok (loc_add, loc_del, loc_add - loc_del, cached), set_files w1 fs')
          end
      end
  end.

(** [cache_builder(edges, comment_size, force_cache)]. *)
Definition cache_builder (fuel : nat) (w : world) (edges : list repo_edge)
    (comment_size : nat) (force_cache : bool)
    : option (result (Z * Z * Z * bool) * world) :=
  let filename := cache_filename in
  match load_cache w filename comment_size with
  | (Raise e, w0) => Some (Raise e, w0)
  | (Ok data, w0) =>
      match reconcile w0 filename comment_size force_cache edges data with
      | (Raise e, w1) => Some (Raise e, w1)
      | (Ok (cached, data), w1) =>
          cache_builder_tail fuel w1 filename comment_size edges cached data
      end
  end.

End Model.

(** ** Notions used to state the properties *)

(** Sum of one integer field over a list of commits. *)
Definition sum_field (f : commit_node -> Z) (nodes : list commit_node) : Z :=
  foldr Z.add 0 (map f nodes).

(** The commits of a page authored by the account [id]. *)
Definition authored_by (id : string) (nodes : list commit_node) : list commit_node :=
  filter (fun node => author_user node = Some id) nodes.

(** A request outcome after which [recursive_loc] tries again (unless the
    attempts are used up): a network error or a 5xx status. *)
Definition retryable (o : http_outcome) : bool :=
  match o with
  | RequestException => true
  | Response c _ => negb (c =? 200) && ((500 <=? c) && (c <? 600))
  end.

(** A request outcome that is not retried: a status that is neither 200
    nor 5xx (403 and every unexpected status). *)
Definition fatal (o : http_outcome) : bool :=
  match o with
  | RequestException => false
  | Response c _ => negb (c =? 200) && negb ((500 <=? c) && (c <? 600))
  end.

Definition ticks (k : nat) (w : world) : world := Nat.iter k tick w.

Section Oracle.
Context (E : env) (owner repo_name : string).

(** The [k] requests posted from clock [t] on all meet a retryable outcome. *)
Definition retried (t k : nat) (cursor : option string) : Prop :=
  forall j, (j < k)%nat -> retryable (remote E (j + t) owner repo_name cursor) = true.

(** The page asked at clock [t] is given up at its request number [k]
    (counted from 0): a fatal outcome, or the fourth retryable one. *)
Definition page_aborts (t : nat) (cursor : option string) (k : nat) : Prop :=
  (k < 4)%nat /\ retried t k cursor /\
  (fatal (remote E (k + t) owner repo_name cursor) = true \/
   (k = 3%nat /\ retryable (remote E (k + t) owner repo_name cursor) = true)).

(** The page asked at clock [t] is answered with status 200 at its request
    number [k]. *)
Definition page_yields (t : nat) (cursor : option string) (k : nat)
    (branch : option history) : Prop :=
  (k < 4)%nat /\ retried t k cursor /\
  remote E (k + t) owner repo_name cursor = Response 200 branch.

(** A walk started at clock [t] with [cursor] meets a page that is given
    up, within [n] pages. *)
Inductive walk_aborts : nat -> nat -> option string -> Prop :=
  | walk_aborts_here n t cursor k :
      page_aborts t cursor k -> walk_aborts (S n) t cursor
  | walk_aborts_later n t cursor k h :
      page_yields t cursor k (Some h) ->
      hist_edges h <> [] -> hasNextPage h = true ->
      walk_aborts n (S (k + t)) (endCursor h) ->
      walk_aborts (S n) t cursor.

(** A walk started at clock [t] with [cursor] is served the pages [hs],
    the last of which ends the walk. *)
Inductive walk_serves : nat -> option string -> list history -> Prop :=
  | walk_serves_last t cursor k h :
      page_yields t cursor k (Some h) ->
      hist_edges h = [] \/ hasNextPage h = false ->
      walk_serves t cursor [h]
  | walk_serves_more t cursor k h hs :
      page_yields t cursor k (Some h) ->
      hist_edges h <> [] -> hasNextPage h = true ->
      walk_serves (S (k + t)) (endCursor h) hs ->
      walk_serves t cursor (h :: hs).

End Oracle.

(** The remote answers a request the same way whenever it is posted. *)
Definition stationary (E : env) : Prop :=
  forall t t' owner repo_name cursor,
    remote E t owner repo_name cursor = remote E t' owner repo_name cursor.

(** [hexdigest] returns a non-empty string without whitespace. *)
Definition digest_is_token (E : env) : Prop :=
  forall s, is_token (sha256_hex E s) = true.

(** All the commits of the pages of a walk. *)
Definition commits_of (hs : list history) : list commit_node :=
  concat (map hist_edges hs).

(** The record line that [cache_builder] writes for a recomputed
    repository, for each value that [recursive_loc] may return. *)
Definition written_record (repo_hash : string) (total : Z) (v : loc_value) : string :=
  match v with
  | LocTuple a d m => format_record repo_hash total m a d
  | _ => zero_record repo_hash
  end.

(** ** A small concrete run, used to instantiate the properties *)

Definition demo_digest (s : string) : string :=
  "r" +:+ Py.str (Z.of_nat (String.length s)).

Definition demo_page : list commit_node :=
  [ {| author_user := Some "me"; additions := 10; deletions := 2 |};
    {| author_user := Some "you"; additions := 100; deletions := 50 |};
    {| author_user := Some "them"; additions := 100; deletions := 50 |} ].

Definition demo_history : history :=
  {| totalCount := 3; hist_edges := demo_page; hasNextPage := false; endCursor := None |}.

(** The demo remote: the repository "empty" has no default branch, a
    request about "gone" meets the abuse limit, any other repository has
    the one page [demo_history]. *)
Definition demo_remote (t : nat) (owner repo_name : string) (cursor : option string)
    : http_outcome :=
  if String.eqb repo_name "empty" then Response 200 None
  else if String.eqb repo_name "gone" then Response 403 None
  else Response 200 (Some demo_history).

Definition demo_env : env :=
  {| remote := demo_remote; can_write := fun _ => true; sha256_hex := demo_digest;
     USER_NAME := "user"; OWNER_ID := "me" |}.

Definition demo_world (fs : gmap string string) : world :=
  {| files := fs; posts := 0; recursive_loc_calls := 0 |}.

Definition demo_repo : repo_edge :=
  {| nameWithOwner := "me/repo"; defaultBranchRef := Some 3 |}.

Definition demo_empty_repo : repo_edge :=
  {| nameWithOwner := "me/empty"; defaultBranchRef := None |}.

Definition demo_gone_repo : repo_edge :=
  {| nameWithOwner := "team/gone"; defaultBranchRef := Some 5 |}.

(** The world that a first run on the two demo repositories leaves. *)
Definition demo_after_first_run : world :=
  match cache_builder demo_env 5 (demo_world ∅) [demo_repo; demo_empty_repo] 2 false with
  | Some (_, w1) => w1
  | None => demo_world ∅
  end.

(** ** The functions around the cache

    The functions of [today.py] that call [cache_builder], read what it
    wrote, or run beside it: [simple_request], [graph_repos_stars],
    [stars_counter], [loc_query], [commit_counter], [add_archive],
    [find_and_replace], [justify_format] and the element updates of
    [svg_overwrite]. Text is ASCII: [len] of a string is its number of
    characters. *)

(** What the [session.post] of [simple_request] does: it raises
    [requests.RequestException], or returns a response with a status code
    and a decoded body; the body of a response is taken to have the
    fields that the query selects. *)
Inductive reply (A : Type) :=
  | PostRaises
  | Replied (status_code : Z) (json : A).
Arguments PostRaises {A}.
Arguments Replied {A} status_code json.

(** One edge of a [graph_repos_stars] response, with
    [node.stargazers.totalCount]. *)
Record star_edge := {
  star_nameWithOwner : string;
  stargazers : Z
}.

(** [data.user.repositories] of a [graph_repos_stars] response; the query
    also selects [pageInfo], which the function never reads. *)
Record repositories := {
  repositories_totalCount : Z;
  repositories_edges : list star_edge
}.

(** [data.user.repositories] of a [loc_query] response. *)
Record listing := {
  listing_edges : list repo_edge;
  listing_hasNextPage : bool;
  listing_endCursor : option string
}.

(** The remote of the two listing queries: the answer to the request posted
    at a given clock value for [owner_affiliation] and [cursor] (the login
    is always [USER_NAME]). *)
Record api := {
  post_graph_repos_stars : nat -> list string -> option string -> reply repositories;
  post_loc_query : nat -> list string -> option string -> reply listing
}.

(** The state of the process around the world of the cache: two more
    entries of [QUERY_COUNT], and the list object that is the default
    value of the parameter [edges] of [loc_query], created once when the
    function is defined. *)
Record state := {
  state_world : world;
  graph_repos_stars_calls : nat;
  loc_query_calls : nat;
  loc_query_edges : list repo_edge
}.

Definition set_world (s : state) (w : world) : state :=
  {| state_world := w; graph_repos_stars_calls := graph_repos_stars_calls s;
     loc_query_calls := loc_query_calls s; loc_query_edges := loc_query_edges s |}.

Definition set_loc_query_edges (s : state) (edges : list repo_edge) : state :=
  {| state_world := state_world s; graph_repos_stars_calls := graph_repos_stars_calls s;
     loc_query_calls := loc_query_calls s; loc_query_edges := edges |}.

(** [query_count('graph_repos_stars')] and [query_count('loc_query')]. *)
Definition query_count_graph_repos_stars (s : state) : state :=
  {| state_world := state_world s; graph_repos_stars_calls := S (graph_repos_stars_calls s);
     loc_query_calls := loc_query_calls s; loc_query_edges := loc_query_edges s |}.

Definition query_count_loc_query (s : state) : state :=
  {| state_world := state_world s; graph_repos_stars_calls := graph_repos_stars_calls s;
     loc_query_calls := S (loc_query_calls s); loc_query_edges := loc_query_edges s |}.

(** [simple_request]: one post; the response is returned when its status is
    200, and every other outcome raises [RuntimeError] (the messages are
    not modelled). *)
Definition simple_request {A : Type} (post : nat -> reply A) (w : world)
    : result (Z * A) * world :=
  let w1 := tick w in
  match post (posts w) with
  | PostRaises => (Raise RuntimeError, w1)
  | Replied status_code json =>
      if status_code =? 200 then (Ok (status_code, json), w1)
      else if status_code =? 401 then (Raise RuntimeError, w1)
      else if status_code =? 403 then (Raise RuntimeError, w1)
      else if (500 <=? status_code) && (status_code <? 600) then (Raise RuntimeError, w1)
      else (Raise RuntimeError, w1)
  end.

(** [stars_counter(data)]. *)
Definition stars_counter (data : list star_edge) : Z :=
  fold_left (fun total_stars node => total_stars + stargazers node) data 0.

(** A value passed as [new_text] to [justify_format]: an [int] or a
    [str]. *)
Inductive py_value :=
  | PyInt (n : Z)
  | PyStr (s : string).

#[local] Unset Elimination Schemes.

(** An element of a parsed SVG tree: its [id] attribute ([None] when it
    has none), its [text], and its children in document order. The tag,
    the tail and the other attributes are neither read nor written. *)
Inductive element :=
  | Element (elem_id : option string) (elem_text : option string) (children : list element).
#[local] Set Elimination Schemes.

(** The search of [find_and_replace] in document order (the order of
    [iter()]): the tree with the text of the first element whose [id] is
    [element_id] set to [new_text], or [None] when no element has it. *)
Fixpoint set_first (element_id new_text : string) (e : element) : option element :=
  match e with
  | Element i t cs =>
      if bool_decide (i = Some element_id) then Some (Element i (Some new_text) cs)
      else
        Element i t <$>
          (fix in_children (cs : list element) : option (list element) :=
             match cs with
             | [] => None
             | c :: cs' =>
                 match set_first element_id new_text c with
                 | Some c' => Some (c' :: cs')
                 | None => cons c <$> in_children cs'
                 end
             end) cs
  end.

(** [find_and_replace(root, element_id, new_text)], for [root] an element;
    the tree after the call. *)
Definition find_and_replace (root : element) (element_id new_text : string) : element :=
  match set_first element_id new_text root with
  | Some root' => root'
  | None => root
  end.

(** [str(new_text)] after the thousands separators of an [int]. *)
Definition shown (new_text : py_value) : string :=
  match new_text with
  | PyInt n => Py.format_commas n
  | PyStr s => s
  end.

(** The dots that [justify_format] computes for a text; [None] stands for
    the [KeyError] of [dot_map[just_len]]. *)
Definition dot_string (new_text : string) (length : Z) : option string :=
  let just_len := Z.max 0 (length - Z.of_nat (String.length new_text)) in
  if just_len <=? 2 then
    if just_len =? 0 then Some ""
    else if just_len =? 1 then Some " "
    else if just_len =? 2 then Some ". "
    else None
  else Some (" " +:+ Py.repeat "."%char (Z.to_nat just_len) +:+ " ").

(** [justify_format(root, element_id, new_text, length)]: the tree after
    the call, or [None] for an exception. *)
Definition justify_format (root : element) (element_id : string) (new_text : py_value)
    (length : Z) : option element :=
  let new_text := shown new_text in
  let root := find_and_replace root element_id new_text in
  match dot_string new_text length with
  | None => None
  | Some dots => Some (find_and_replace root (element_id +:+ "_dots") dots)
  end.

(** The eight [justify_format] calls of [svg_overwrite] on the root of
    the parsed file; parsing and writing the file are outside the model.
    [None] stands for an exception ([IndexError] for a short [loc_data]). *)
Definition svg_overwrite (root : element)
    (age_data commit_data star_data repo_data contrib_data follower_data : py_value)
    (loc_data : list py_value) : option element :=
  root ← justify_format root "commit_data" commit_data 22;
  root ← justify_format root "star_data" star_data 14;
  root ← justify_format root "repo_data" repo_data 6;
  root ← justify_format root "contrib_data" contrib_data 0;
  root ← justify_format root "follower_data" follower_data 10;
  loc2 ← loc_data !! 2%nat;
  root ← justify_format root "loc_data" loc2 9;
  loc0 ← loc_data !! 0%nat;
  root ← justify_format root "loc_add" loc0 0;
  loc1 ← loc_data !! 1%nat;
  justify_format root "loc_del" loc1 7.

Definition archive_filename : string := "cache/repository_archive.txt".

(** The [for line in data] loop of [commit_counter]: sums field 2. *)
Fixpoint sum_commits (data : list string) (total_commits : Z) : result Z :=
  match data with
  | [] => Ok total_commits
  | line :: rest =>
      match Py.split line !! 2%nat with
      | None => Raise IndexError
      | Some f2 =>
          match Py.int f2 with
          | None => Raise ValueError
          | Some m => sum_commits rest (total_commits + m)
          end
      end
  end.

(** The [for line in data] loop of [add_archive]. *)
Fixpoint sum_archive (data : list string) (added_loc deleted_loc added_commits : Z)
    : result (Z * Z * Z) :=
  match data with
  | [] => Ok (added_loc, deleted_loc, added_commits)
  | line :: rest =>
      match Py.split line with
      | repo_hash :: total_commits :: my_commits :: loc =>
          match loc !! 0%nat with
          | None => Raise IndexError
          | Some loc0 =>
              match Py.int loc0 with
              | None => Raise ValueError
              | Some a =>
                  match loc !! 1%nat with
                  | None => Raise IndexError
                  | Some loc1 =>
                      match Py.int loc1 with
                      | None => Raise ValueError
                      | Some d =>
                          if Py.isdigit my_commits then
                            match Py.int my_commits with
                            | None => Raise ValueError
                            | Some m => sum_archive rest (added_loc + a) (deleted_loc + d)
                                          (added_commits + m)
                            end
                          else sum_archive rest (added_loc + a) (deleted_loc + d) added_commits
                      end
                  end
              end
          end
      | _ => Raise ValueError
      end
  end.

(** [add_archive()]: the totals of the archive file, whose records stand
    between seven header lines and three footer lines; the last line
    carries the commits added by hand. *)
Definition add_archive (w : world) : result (Z * Z * Z * Z * Z) :=
  match files w !! archive_filename with
  | None => Raise FileNotFoundError
  | Some text =>
      let old_data := Py.readlines text in
      let data := Py.slice 7 (Z.of_nat (length old_data) - 3) old_data in
      let contributed_repos := Z.of_nat (length data) in
      match sum_archive data 0 0 0 with
      | Raise e => Raise e
      | Ok (added_loc, deleted_loc, added_commits) =>
          match last old_data with
          | None => Raise IndexError
          | Some footer =>
              match Py.split footer !! 4%nat with
              | None => Raise IndexError
              | Some f4 =>
                  match Py.int (Py.but_last f4) with
                  | None => Raise ValueError
                  | Some n =>
                      Ok (added_loc, deleted_loc, added_loc - deleted_loc,
                          added_commits + n, contributed_repos)
                  end
              end
          end
      end
  end.

Section Around.
Context (E : env) (A : api).

(** [commit_counter(comment_size)]. *)
Definition commit_counter (w : world) (comment_size : nat) : result Z :=
  match files w !! cache_filename E with
  | None => Raise FileNotFoundError
  | Some text => sum_commits (drop comment_size (Py.readlines text)) 0
  end.

(** [graph_repos_stars(count_type, owner_affiliation, cursor)]; the value
    is [None] when the function ends without a [return]. *)
Definition graph_repos_stars (s : state) (count_type : string)
    (owner_affiliation : list string) (cursor : option string)
    : result (option Z) * state :=
  let s := query_count_graph_repos_stars s in
  match simple_request (fun t => post_graph_repos_stars A t owner_affiliation cursor)
          (state_world s) with
  | (Raise e, w1) => (Raise e, set_world s w1)
  | (Ok (status_code, json), w1) =>
      if status_code =? 200 then
        if String.eqb count_type "repos" then
          (Ok (Some (repositories_totalCount json)), set_world s w1)
        else if String.eqb count_type "stars" then
          (Ok (Some (stars_counter (repositories_edges json))), set_world s w1)
        else (Ok None, set_world s w1)
      else (Ok None, set_world s w1)
  end.

(** [loc_query(owner_affiliation, comment_size, force_cache, cursor, edges)].
    [edges] is the content of the list object passed; [edges += ...]
    extends that object in place, so its final content is returned beside
    the result. [pages] bounds the number of pages of the listing and
    [fuel] is the fuel of [cache_builder]. *)
Fixpoint loc_query (pages fuel : nat) (s : state) (owner_affiliation : list string)
    (comment_size : nat) (force_cache : bool) (cursor : option string)
    (edges : list repo_edge)
    : option (result (Z * Z * Z * bool) * state * list repo_edge) :=
  match pages with
  | O => None
  | S pages' =>
      let s := query_count_loc_query s in
      match simple_request (fun t => post_loc_query A t owner_affiliation cursor)
              (state_world s) with
      | (Raise e, w1) => Some (Raise e, set_world s w1, edges)
      | (Ok (_, json), w1) =>
          if listing_hasNextPage json then
            let edges := edges ++ listing_edges json in
            loc_query pages' fuel (set_world s w1) owner_affiliation comment_size force_cache
              (listing_endCursor json) edges
          else
            match cache_builder E fuel w1 (edges ++ listing_edges json) comment_size force_cache with
            | None => None
            | Some (r, w2) => Some (r, set_world s w2, edges)
            end
      end
  end.

(** A call of [loc_query] that leaves [cursor] and [edges] to their
    defaults: [edges] is then the list object kept in the state. *)
Definition loc_query_default (pages fuel : nat) (s : state) (owner_affiliation : list string)
    (comment_size : nat) (force_cache : bool)
    : option (result (Z * Z * Z * bool) * state) :=
  match loc_query pages fuel s owner_affiliation comment_size force_cache None
          (loc_query_edges s) with
  | None => None
  | Some (r, s', edges) => Some (r, set_loc_query_edges s' edges)
  end.

End Around.

(** ** Notions used to state the properties of these functions *)

(** The [id] and [text] of the elements of a tree, in document order. *)
Fixpoint labels (e : element) : list (option string * option string) :=
  match e with
  | Element i t cs => (i, t) :: concat (map labels cs)
  end.

(** The tree without its texts: its shape and its [id]s. *)
Fixpoint erase (e : element) : element :=
  match e with
  | Element i t cs => Element i None (map erase cs)
  end.

(** What a search for [element_id] did, read on the labels in document
    order: nothing when no label carries the id, and otherwise the text
    of the first label that carries it is [new_text]. *)
Definition searched (element_id new_text : string)
    (ls : list (option string * option string))
    (ls' : option (list (option string * option string))) : Prop :=
  match ls' with
  | None => Forall (fun l => l.1 <> Some element_id) ls
  | Some ls' =>
      exists k t,
        ls !! k = Some (Some element_id, t) /\
        Forall (fun l => l.1 <> Some element_id) (take k ls) /\
        ls' = <[k := (Some element_id, Some new_text)]> ls
  end.

(** The ids of the elements that [svg_overwrite] may write to. *)
Definition svg_ids : list string :=
  [ "commit_data"; "commit_data_dots"; "star_data"; "star_data_dots";
    "repo_data"; "repo_data_dots"; "contrib_data"; "contrib_data_dots";
    "follower_data"; "follower_data_dots"; "loc_data"; "loc_data_dots";
    "loc_add"; "loc_add_dots"; "loc_del"; "loc_del_dots" ].

(** Only spaces and dots. *)
Fixpoint dots_only (s : string) : bool :=
  match s with
  | EmptyString => true
  | String c s' => (Ascii.eqb c " "%char || Ascii.eqb c "."%char) && dots_only s'
  end.

Section Listing.
Context (A : api) (owner_affiliation : list string).

(** The listing asked at clock [t] with [cursor] is served the pages
    [js], of which only the last has no next page. *)
Inductive listing_serves : nat -> option string -> list listing -> Prop :=
  | listing_serves_last t cursor json :
      post_loc_query A t owner_affiliation cursor = Replied 200 json ->
      listing_hasNextPage json = false ->
      listing_serves t cursor [json]
  | listing_serves_more t cursor json js :
      post_loc_query A t owner_affiliation cursor = Replied 200 json ->
      listing_hasNextPage json = true ->
      listing_serves (S t) (listing_endCursor json) js ->
      listing_serves t cursor (json :: js).

(** The listing asked at clock [t] with [cursor] is served the pages
    [js], each with a next page, and then a request that does not come
    back with status 200. *)
Inductive listing_breaks : nat -> option string -> list listing -> Prop :=
  | listing_breaks_here t cursor :
      (forall json, post_loc_query A t owner_affiliation cursor <> Replied 200 json) ->
      listing_breaks t cursor []
  | listing_breaks_later t cursor json js :
      post_loc_query A t owner_affiliation cursor = Replied 200 json ->
      listing_hasNextPage json = true ->
      listing_breaks (S t) (listing_endCursor json) js ->
      listing_breaks t cursor (json :: js).

End Listing.

(** The operations of a write on [filename]: on the file itself and on
    its temporary file. *)
Definition op_on (filename : string) (op : fs_op) : Prop :=
  match op with
  | Create p | Append p _ => p = filename \/ p = tmp_of filename
  | Replace src dst => src = tmp_of filename /\ dst = filename
  end.

(** A record of the cache as [cache_builder] writes it: the key, the
    total commit count, then my commits, additions and deletions. *)
Record cache_record := {
  record_key : string;
  record_total : Z;
  record_mine : Z;
  record_add : Z;
  record_del : Z
}.

Definition record_line (r : cache_record) : string :=
  format_record (record_key r) (record_total r) (record_mine r) (record_add r) (record_del r).

(** Sum of one integer field over a list of records. *)
Definition sum_records (f : cache_record -> Z) (rs : list cache_record) : Z :=
  foldr Z.add 0 (map f rs).

(** The record that a rebuild leaves for a repository of the listing: the
    zero record when the repository has no default branch or no commit,
    and otherwise the total of the listing with the counts of the owner's
    commits over the pages [hs] that a walk from the first page is
    served, at whatever time it starts. *)
Inductive rebuilt (E : env) (fuel : nat) (edge : repo_edge) : cache_record -> Prop :=
  | rebuilt_branchless :
      defaultBranchRef edge = None ->
      rebuilt E fuel edge
        {| record_key := repo_key E edge; record_total := 0; record_mine := 0;
           record_add := 0; record_del := 0 |}
  | rebuilt_no_commit :
      defaultBranchRef edge = Some 0 ->
      rebuilt E fuel edge
        {| record_key := repo_key E edge; record_total := 0; record_mine := 0;
           record_add := 0; record_del := 0 |}
  | rebuilt_walk total owner repo_name hs :
      defaultBranchRef edge = Some total -> total <> 0 ->
      Py.split_on "/" (nameWithOwner edge) = [owner; repo_name] ->
      (forall t, walk_serves E owner repo_name t None hs) ->
      (length hs <= fuel)%nat ->
      rebuilt E fuel edge
        {| record_key := repo_key E edge; record_total := total;
           record_mine := Z.of_nat (length (authored_by (OWNER_ID E) (commits_of hs)));
           record_add := sum_field additions (authored_by (OWNER_ID E) (commits_of hs));
           record_del := sum_field deletions (authored_by (OWNER_ID E) (commits_of hs)) |}.

(** A record that is up to date for a repository of the listing: it has
    the key of the repository and the total that the listing reports. *)
Definition up_to_date (E : env) (edge : repo_edge) (r : cache_record) : Prop :=
  record_key r = repo_key E edge /\ defaultBranchRef edge = Some (record_total r).

(** What a pass without a rebuild makes of the stored record [r] of a
    repository: it stays when its total is the one that the listing
    reports; it becomes the zero record when the repository has no
    default branch; otherwise it takes the total of the listing and the
    counts of the owner's commits over the pages [hs] that a walk from
    the first page is served. *)
Inductive synced (E : env) (fuel : nat) (edge : repo_edge) (r : cache_record)
    : cache_record -> Prop :=
  | synced_hit :
      defaultBranchRef edge = Some (record_total r) ->
      synced E fuel edge r r
  | synced_branchless :
      defaultBranchRef edge = None ->
      synced E fuel edge r
        {| record_key := record_key r; record_total := 0; record_mine := 0;
           record_add := 0; record_del := 0 |}
  | synced_walk total owner repo_name hs :
      defaultBranchRef edge = Some total -> record_total r <> total ->
      Py.split_on "/" (nameWithOwner edge) = [owner; repo_name] ->
      (forall t, walk_serves E owner repo_name t None hs) ->
      (length hs <= fuel)%nat ->
      synced E fuel edge r
        {| record_key := record_key r; record_total := total;
           record_mine := Z.of_nat (length (authored_by (OWNER_ID E) (commits_of hs)));
           record_add := sum_field additions (authored_by (OWNER_ID E) (commits_of hs));
           record_del := sum_field deletions (authored_by (OWNER_ID E) (commits_of hs)) |}.

(** The header that [cache_builder] works with, and the number of lines
    it finds: those of the cache file, or the comment block that it
    creates when there is no cache file. *)
Definition header_found (E : env) (w : world) (comment_size : nat) : list string :=
  match files w !! cache_filename E with
  | Some text => take comment_size (Py.readlines text)
  | None => replicate comment_size comment_line
  end.

Definition lines_found (E : env) (w : world) (comment_size : nat) : nat :=
  match files w !! cache_filename E with
  | Some text => length (Py.readlines text)
  | None => comment_size
  end.

(** All the repositories of the pages of a listing. *)
Definition edges_of (js : list listing) : list repo_edge :=
  concat (map listing_edges js).

(** ** A small concrete listing, tree and archive *)

Definition demo_page_one : listing :=
  {| listing_edges := [demo_repo]; listing_hasNextPage := true;
     listing_endCursor := Some "c1" |}.

Definition demo_page_two : listing :=
  {| listing_edges := [demo_empty_repo]; listing_hasNextPage := false;
     listing_endCursor := None |}.

Definition demo_repositories : repositories :=
  {| repositories_totalCount := 2;
     repositories_edges :=
       [ {| star_nameWithOwner := "me/repo"; stargazers := 3 |};
         {| star_nameWithOwner := "me/empty"; stargazers := 0 |} ] |}.

(** The demo listing has two pages; the second is asked with the cursor
    of the first. *)
Definition demo_api : api :=
  {| post_graph_repos_stars := fun _ _ _ => Replied 200 demo_repositories;
     post_loc_query := fun _ _ cursor =>
       match cursor with
       | None => Replied 200 demo_page_one
       | Some _ => Replied 200 demo_page_two
       end |}.

(** The same listing, whose second request fails. *)
Definition demo_api_down : api :=
  {| post_graph_repos_stars := fun _ _ _ => PostRaises;
     post_loc_query := fun _ _ cursor =>
       match cursor with
       | None => Replied 200 demo_page_one
       | Some _ => PostRaises
       end |}.

Definition demo_state : state :=
  {| state_world := demo_world ∅; graph_repos_stars_calls := 0;
     loc_query_calls := 0; loc_query_edges := [] |}.

(** The state that a first call of [loc_query] on the demo listing
    leaves. *)
Definition demo_after_listing : state :=
  match loc_query_default demo_env demo_api 2 5 demo_state ["OWNER"] 2 false with
  | Some (_, s1) => s1
  | None => demo_state
  end.

(** A cache file with something in it, and the world after its flush. *)
Definition demo_stale_world : world :=
  demo_world {[ cache_filename demo_env := "one line" +:+ nl +:+ "cut short" ]}.

Definition demo_after_flush : world :=
  (flush_cache demo_env demo_stale_world [demo_repo; demo_empty_repo]
     (cache_filename demo_env) 2).2.

Definition demo_records : list cache_record :=
  [ {| record_key := "r7"; record_total := 3; record_mine := 1;
       record_add := 10; record_del := 2 |};
    {| record_key := "r9"; record_total := 5; record_mine := 4;
       record_add := 7; record_del := 9 |} ].

(** Stored records of the two demo repositories, the first of them
    stale, and what a pass makes of them. *)
Definition demo_stale_records : list (cache_record * cache_record) :=
  [ ({| record_key := "r7"; record_total := 1; record_mine := 1;
        record_add := 4; record_del := 1 |},
     {| record_key := "r7"; record_total := 3; record_mine := 1;
        record_add := 10; record_del := 2 |});
    ({| record_key := "r9"; record_total := 5; record_mine := 4;
        record_add := 7; record_del := 9 |},
     {| record_key := "r9"; record_total := 5; record_mine := 4;
        record_add := 7; record_del := 9 |}) ].

Definition demo_stale_cache_world : world :=
  demo_world {[ cache_filename demo_env :=
                  Py.text_of ([comment_line] ++ map record_line demo_stale_records.*1) ]}.

(** The records that a rebuild leaves for the two demo repositories. *)
Definition demo_rebuilt_records : list cache_record :=
  [ {| record_key := "r7"; record_total := 3; record_mine := 1;
       record_add := 10; record_del := 2 |};
    {| record_key := "r8"; record_total := 0; record_mine := 0;
       record_add := 0; record_del := 0 |} ].

Definition demo_cache_world : world :=
  demo_world {[ cache_filename demo_env :=
                  Py.text_of ([comment_line] ++ map record_line demo_records) ]}.

Definition demo_svg : element :=
  Element None None
    [ Element (Some "age_data") (Some "old") [];
      Element (Some "loc_add") (Some "1") [];
      Element (Some "loc_add_dots") None [];
      Element (Some "loc_add") (Some "kept") [] ].

(** An archive of seven header lines, one record and three footer lines. *)
Definition demo_archive_world : world :=
  demo_world {[ archive_filename :=
                  Py.text_of (replicate 7 comment_line
                                ++ [ "k 10 4 100 20" +:+ nl;
                                     "footer" +:+ nl; "footer" +:+ nl;
                                     "Commits added by hand: 12." +:+ nl ]) ]}.

(** * Properties *)

(** ** The built-ins *)

Section Builtins.

Lemma append_nil_l (s : string) : "" +:+ s = s.
Proof. reflexivity. Qed.

Lemma append_cons (c : ascii) (s t : string) :
  String c s +:+ t = String c (s +:+ t).
Proof. reflexivity. Qed.

Lemma append_assoc (a b c : string) : (a +:+ b) +:+ c = a +:+ (b +:+ c).
Proof.
  induction a as [|x a IH]; [done|]. by rewrite !append_cons, IH.
Qed.

Lemma append_empty_r (a : string) : a +:+ "" = a.
Proof. induction a as [|x a IH]; [done|]. by rewrite append_cons, IH. Qed.

Lemma text_of_cons (l : string) (ls : list string) :
  Py.text_of (l :: ls) = l +:+ Py.text_of ls.
Proof. reflexivity. Qed.

Lemma readlines_cons (c : ascii) (s : string) :
  Py.readlines (String c s) =
  if Ascii.eqb c Py.newline then String c "" :: Py.readlines s
  else match Py.readlines s with
       | t :: ts => String c t :: ts
       | [] => [String c ""]
       end.
Proof. reflexivity. Qed.

Lemma text_of_readlines (s : string) : Py.text_of (Py.readlines s) = s.
Proof.
  induction s as [|c s IH]; simpl; [done|].
  destruct (Ascii.eqb c Py.newline).
  - by rewrite text_of_cons, append_cons, append_nil_l, IH.
  - destruct (Py.readlines s) as [|t ts].
    + simpl in IH. by rewrite <- IH.
    + rewrite text_of_cons in *. by rewrite append_cons, IH.
Qed.

Lemma text_of_app (l1 l2 : list string) :
  Py.text_of (l1 ++ l2) = Py.text_of l1 +:+ Py.text_of l2.
Proof.
  induction l1 as [|l l1 IH]; [done|].
  rewrite <- app_comm_cons, !text_of_cons, IH. by rewrite append_assoc.
Qed.

Lemma full_line_is_line (l : string) : full_line l = true -> is_line l = true.
Proof.
  induction l as [|c l IH]; simpl; [done|].
  destruct l as [|c' l']; [done|].
  intros [Hc Hl]%andb_prop. rewrite Hc. simpl. by apply IH.
Qed.

Lemma readlines_full (l s : string) :
  full_line l = true -> Py.readlines (l +:+ s) = l :: Py.readlines s.
Proof.
  induction l as [|c l IH]; [done|].
  destruct l as [|c' l'].
  - simpl. intros ->. done.
  - intros [Hc Hl]%andb_prop. apply negb_true_iff in Hc.
    rewrite append_cons. simpl. rewrite Hc.
    rewrite append_cons in IH. simpl in IH. by rewrite (IH Hl).
Qed.

Lemma readlines_line (l : string) : is_line l = true -> Py.readlines l = [l].
Proof.
  induction l as [|c l IH]; [done|].
  destruct l as [|c' l'].
  - intros _. simpl. by destruct (Ascii.eqb c Py.newline).
  - intros [Hc Hl]%andb_prop. apply negb_true_iff in Hc.
    simpl. rewrite Hc. simpl in IH. by rewrite (IH Hl).
Qed.

Lemma readlines_text_of (ls : list string) :
  lines_ok ls = true -> Py.readlines (Py.text_of ls) = ls.
Proof.
  induction ls as [|l ls IH]; [done|].
  destruct ls as [|l' ls'].
  - intros Hl. rewrite text_of_cons. change (Py.text_of []) with "".
    rewrite append_empty_r. by apply readlines_line.
  - intros [Hl Hr]%andb_prop.
    rewrite text_of_cons, readlines_full by done. by rewrite IH.
Qed.

Lemma lines_ok_cons (l l' : string) (ls : list string) :
  lines_ok (l :: l' :: ls) = full_line l && lines_ok (l' :: ls).
Proof. reflexivity. Qed.

Lemma lines_ok_readlines (s : string) : lines_ok (Py.readlines s) = true.
Proof.
  induction s as [|c s IH]; [done|]. simpl.
  destruct (Ascii.eqb c Py.newline) eqn:Hc.
  - destruct (Py.readlines s) as [|t ts]; [by simpl|].
    rewrite lines_ok_cons, IH. simpl. by rewrite Hc.
  - destruct (Py.readlines s) as [|t ts]; [done|].
    destruct ts as [|t' ts'].
    + simpl in *. destruct t; [done|]. by rewrite Hc.
    + rewrite lines_ok_cons in *. apply andb_prop in IH as [Ht Hr].
      rewrite Hr, andb_true_r. simpl. destruct t; [done|]. by rewrite Hc.
Qed.

Lemma lines_ok_cons_inv (l : string) (ls : list string) :
  lines_ok (l :: ls) = true -> is_line l = true /\ lines_ok ls = true.
Proof.
  destruct ls as [|l' ls'].
  - done.
  - rewrite lines_ok_cons. intros [Hl Hr]%andb_prop.
    split; [by apply full_line_is_line|done].
Qed.

Lemma lines_ok_Forall (ls : list string) :
  lines_ok ls = true -> Forall (fun l => is_line l = true) ls.
Proof.
  induction ls as [|l ls IH]; [constructor|].
  intros [Hl Hr]%lines_ok_cons_inv. constructor; auto.
Qed.

Lemma lines_ok_take (n : nat) (ls : list string) :
  lines_ok ls = true -> lines_ok (take n ls) = true.
Proof.
  revert n. induction ls as [|l ls IH]; intros [|n]; try done.
  intros H. destruct ls as [|l' ls'].
  - by destruct n.
  - rewrite lines_ok_cons in H. apply andb_prop in H as [Hl Hr].
    specialize (IH n Hr). destruct n as [|n].
    + simpl. by apply full_line_is_line.
    + change (take (S (S n)) (l :: l' :: ls')) with (l :: l' :: take n ls').
      change (take (S n) (l' :: ls')) with (l' :: take n ls') in IH.
      by rewrite lines_ok_cons, Hl, IH.
Qed.

Lemma lines_ok_app_full (l1 l2 : list string) :
  Forall (fun l => full_line l = true) l1 -> lines_ok l2 = true ->
  lines_ok (l1 ++ l2) = true.
Proof.
  induction 1 as [|l l1 Hl _ IH]; [done|]. intros H2. specialize (IH H2).
  simpl. destruct (l1 ++ l2) eqn:Heq.
  - by apply full_line_is_line.
  - by rewrite Hl, IH.
Qed.

Lemma lines_ok_full (ls : list string) :
  Forall (fun l => full_line l = true) ls -> lines_ok ls = true.
Proof.
  intros H. rewrite <- (app_nil_r ls). by apply lines_ok_app_full.
Qed.

Lemma readlines_app_le (l s : string) :
  is_line l = true ->
  (length (Py.readlines (l +:+ s)) <= S (length (Py.readlines s)))%nat.
Proof.
  induction l as [|c l IH]; [done|].
  destruct l as [|c' l'].
  - intros _. rewrite append_cons, append_nil_l. simpl.
    destruct (Ascii.eqb c Py.newline); simpl; [lia|].
    destruct (Py.readlines s); simpl; lia.
  - intros [Hc Hl]%andb_prop. apply negb_true_iff in Hc.
    specialize (IH Hl). rewrite append_cons, readlines_cons, Hc.
    destruct (Py.readlines (String c' l' +:+ s)) as [|t ts]; simpl in *; lia.
Qed.

Lemma readlines_text_of_le (ls : list string) :
  Forall (fun l => is_line l = true) ls ->
  (length (Py.readlines (Py.text_of ls)) <= length ls)%nat.
Proof.
  induction 1 as [|l ls Hl _ IH]; [done|].
  rewrite text_of_cons.
  pose proof (readlines_app_le l (Py.text_of ls) Hl). simpl. lia.
Qed.

End Builtins.

Section Tokens.

Lemma split_cons_space (c : ascii) (s : string) :
  Py.is_space c = true -> Py.split (String c s) = Py.split s.
Proof. intros H. simpl. by rewrite H. Qed.

Lemma split_cons_last (c : ascii) :
  Py.is_space c = false -> Py.split (String c "") = [String c ""].
Proof. intros H. simpl. by rewrite H. Qed.

Lemma split_cons_cons (c c' : ascii) (s : string) :
  Py.is_space c = false ->
  Py.split (String c (String c' s)) =
  if Py.is_space c' then String c "" :: Py.split (String c' s)
  else match Py.split (String c' s) with
       | t :: ts => String c t :: ts
       | [] => [String c ""]
       end.
Proof. intros H. simpl. by rewrite H. Qed.

Lemma split_token (t : string) (c : ascii) (r : string) :
  is_token t = true -> Py.is_space c = true ->
  Py.split (t +:+ String c r) = t :: Py.split r.
Proof.
  induction t as [|a t IH]; [done|]. intros Ht Hc.
  simpl in Ht. apply andb_prop in Ht as [Ha Ht]. apply negb_true_iff in Ha.
  destruct t as [|a' t'].
  - rewrite append_cons, append_nil_l, split_cons_cons, Hc by done.
    by rewrite split_cons_space.
  - assert (Ha' : Py.is_space a' = false).
    { simpl in Ht. apply andb_prop in Ht as [Ha' _]. by apply negb_true_iff. }
    rewrite !append_cons, split_cons_cons, Ha' by done.
    rewrite append_cons in IH. by rewrite IH.
Qed.

Lemma split_tokens (s : string) :
  Forall (fun t => is_token t = true) (Py.split s).
Proof.
  induction s as [|c s IH]; [constructor|].
  destruct (Py.is_space c) eqn:Hc.
  - by rewrite split_cons_space.
  - destruct s as [|c' s'].
    + rewrite split_cons_last by done. constructor; [|constructor].
      simpl. by rewrite Hc.
    + rewrite split_cons_cons by done.
      destruct (Py.is_space c') eqn:Hc'.
      * constructor; [|done]. simpl. by rewrite Hc.
      * destruct (Py.split (String c' s')) as [|t ts].
        -- constructor; [|constructor]. simpl. by rewrite Hc.
        -- inversion IH as [|? ? Ht Hts]; subst. constructor; [|done].
           simpl. rewrite Hc. simpl. by destruct t.
Qed.

Lemma split_hd_token (s h : string) (rest : list string) :
  Py.split s = h :: rest -> is_token h = true.
Proof.
  intros Hs. pose proof (split_tokens s) as H. rewrite Hs in H.
  by inversion H.
Qed.

Lemma digit_cases (d : Z) :
  0 <= d < 10 ->
  d = 0 \/ d = 1 \/ d = 2 \/ d = 3 \/ d = 4 \/ d = 5 \/ d = 6 \/ d = 7 \/ d = 8 \/ d = 9.
Proof. lia. Qed.

Lemma digit_val_char (d : Z) :
  0 <= d < 10 -> Py.digit_val (Py.digit_char d) = Some d.
Proof. intros H. destruct (digit_cases d H) as [->|[->|[->|[->|[->|[->|[->|[->|[->| ->]]]]]]]]]; reflexivity. Qed.

Lemma digit_char_plain (d : Z) :
  0 <= d < 10 ->
  Py.is_space (Py.digit_char d) = false /\
  Ascii.eqb (Py.digit_char d) "-" = false /\
  Ascii.eqb (Py.digit_char d) "+" = false.
Proof. intros H. destruct (digit_cases d H) as [->|[->|[->|[->|[->|[->|[->|[->|[->| ->]]]]]]]]]; done. Qed.

Lemma digits_from_S (fuel : nat) (n : Z) (tail : string) :
  Py.digits_from (S fuel) n tail =
  if n <? 10 then String (Py.digit_char (n mod 10)) tail
  else Py.digits_from fuel (n / 10) (String (Py.digit_char (n mod 10)) tail).
Proof. reflexivity. Qed.

Lemma int_digits_cons (acc : Z) (seen : bool) (c : ascii) (s : string) :
  Py.int_digits acc seen (String c s) =
  match Py.digit_val c with
  | Some d => Py.int_digits (10 * acc + d) true s
  | None => if Ascii.eqb c "_" && seen then Py.int_digits acc false s else None
  end.
Proof. reflexivity. Qed.

Lemma int_cons (c : ascii) (s : string) :
  Py.int (String c s) =
  if Ascii.eqb c "-" then Z.opp <$> Py.int_digits 0 false s
  else if Ascii.eqb c "+" then Py.int_digits 0 false s
  else Py.int_digits 0 false (String c s).
Proof. reflexivity. Qed.

Lemma is_token_cons (c : ascii) (s : string) :
  is_token (String c s) = negb (Py.is_space c) && no_space s.
Proof. reflexivity. Qed.

Lemma int_digits_digit (d acc : Z) (seen : bool) (s : string) :
  0 <= d < 10 ->
  Py.int_digits acc seen (String (Py.digit_char d) s) =
  Py.int_digits (10 * acc + d) true s.
Proof. intros H. by rewrite int_digits_cons, digit_val_char. Qed.

Lemma int_digits_from (fuel : nat) (n : Z) (tail : string) :
  0 <= n < 10 ^ Z.of_nat (S fuel) ->
  Py.int_digits 0 false (Py.digits_from (S fuel) n tail) = Py.int_digits n true tail.
Proof.
  revert n tail. induction fuel as [|fuel IH]; intros n tail Hn.
  - rewrite digits_from_S. cbn in Hn.
    assert ((n <? 10) = true) as -> by lia.
    rewrite Z.mod_small by lia. rewrite int_digits_digit by lia.
    f_equal; lia.
  - rewrite digits_from_S. destruct (n <? 10) eqn:Hlt.
    + rewrite Z.mod_small by lia. rewrite int_digits_digit by lia.
      f_equal; lia.
    + rewrite IH.
      * rewrite int_digits_digit by (apply Z.mod_pos_bound; lia).
        f_equal. pose proof (Z.div_mod n 10). lia.
      * split; [apply Z.div_pos; lia|].
        apply Z.div_lt_upper_bound; [lia|].
        rewrite Nat2Z.inj_succ, Z.pow_succ_r in Hn by lia. lia.
Qed.

Lemma digits_bound (n : Z) :
  0 <= n -> n < 10 ^ Z.of_nat (S (Z.to_nat (Z.log2 n))).
Proof.
  intros Hn. rewrite Nat2Z.inj_succ, Z2Nat.id by apply Z.log2_nonneg.
  destruct (decide (n = 0)) as [->|Hne]; [done|].
  pose proof (Z.log2_spec n ltac:(lia)) as [_ Hlt].
  eapply Z.lt_le_trans; [exact Hlt|].
  apply Z.pow_le_mono_l. lia.
Qed.

Lemma digits_from_head (fuel : nat) (n : Z) (tail : string) :
  exists d rest, 0 <= d < 10 /\
    Py.digits_from (S fuel) n tail = String (Py.digit_char d) rest.
Proof.
  revert n tail. induction fuel as [|fuel IH]; intros n tail.
  - rewrite digits_from_S. destruct (n <? 10).
    + eexists _, _. split; [|done]. apply Z.mod_pos_bound. lia.
    + eexists _, _. split; [|done]. apply Z.mod_pos_bound. lia.
  - rewrite digits_from_S. destruct (n <? 10).
    + eexists _, _. split; [|done]. apply Z.mod_pos_bound. lia.
    + apply IH.
Qed.

Lemma no_space_digits_from (fuel : nat) (n : Z) (tail : string) :
  no_space tail = true -> no_space (Py.digits_from fuel n tail) = true.
Proof.
  revert n tail. induction fuel as [|fuel IH]; intros n tail Ht; [done|].
  assert (Hd : 0 <= n mod 10 < 10) by (apply Z.mod_pos_bound; lia).
  assert (no_space (String (Py.digit_char (n mod 10)) tail) = true).
  { change (negb (Py.is_space (Py.digit_char (n mod 10))) && no_space tail = true).
    destruct (digit_char_plain _ Hd) as [-> _]. by rewrite Ht. }
  rewrite digits_from_S. destruct (n <? 10); [done|]. by apply IH.
Qed.

Lemma int_digits_str (n : Z) : 0 <= n -> Py.int (Py.digits n) = Some n.
Proof.
  intros Hn. pose proof (int_digits_from _ n "" (conj Hn (digits_bound n Hn))) as H.
  unfold Py.digits in *.
  destruct (digits_from_head (Z.to_nat (Z.log2 n)) n "") as (d & rest & Hd & Heq).
  rewrite Heq in *. rewrite int_cons.
  destruct (digit_char_plain d Hd) as (_ & -> & ->). exact H.
Qed.

Lemma int_str (z : Z) : Py.int (Py.str z) = Some z.
Proof.
  unfold Py.str. destruct (z <? 0) eqn:Hz.
  - apply Z.ltb_lt in Hz. assert (Hn : 0 <= - z) by lia.
    pose proof (int_digits_from _ (- z) "" (conj Hn (digits_bound (- z) Hn))) as H.
    rewrite int_cons. change (Ascii.eqb "-" "-") with true. cbv iota.
    unfold Py.digits. rewrite H.
    change (Py.int_digits (- z) true "") with (Some (- z)).
    change (Some (- - z) = Some z). f_equal. lia.
  - apply Z.ltb_ge in Hz. by apply int_digits_str.
Qed.

Lemma str_token (z : Z) : is_token (Py.str z) = true.
Proof.
  unfold Py.str. destruct (z <? 0).
  - rewrite is_token_cons. change (Py.is_space "-") with false.
    by apply no_space_digits_from.
  - unfold Py.digits.
    destruct (digits_from_head (Z.to_nat (Z.log2 z)) z "") as (d & rest & Hd & Heq).
    pose proof (no_space_digits_from (S (Z.to_nat (Z.log2 z))) z "" eq_refl) as H.
    rewrite Heq in *. exact H.
Qed.

Lemma token_no_space (t : string) : is_token t = true -> no_space t = true.
Proof. by destruct t. Qed.

Lemma no_space_no_nl (s : string) : no_space s = true -> no_nl s = true.
Proof.
  induction s as [|c s IH]; [done|]. simpl.
  intros [Hc Hs]%andb_prop. rewrite (IH Hs), andb_true_r.
  destruct (Ascii.eqb c Py.newline) eqn:Heq; [|done].
  apply Ascii.eqb_eq in Heq. by subst.
Qed.

Lemma full_line_app (a b : string) :
  no_nl a = true -> full_line b = true -> full_line (a +:+ b) = true.
Proof.
  induction a as [|c a IH]; [done|]. intros Ha Hb.
  change (negb (Ascii.eqb c Py.newline) && no_nl a = true) in Ha.
  apply andb_prop in Ha as [Hc Ha]. specialize (IH Ha Hb).
  rewrite append_cons. destruct (a +:+ b) as [|c' r] eqn:Heq; [done|].
  change (negb (Ascii.eqb c Py.newline) && full_line (String c' r) = true).
  by rewrite Hc, IH.
Qed.

Lemma full_line_zero_record (h : string) :
  is_token h = true -> full_line (zero_record h) = true.
Proof.
  intros Hh. apply full_line_app; [|done].
  by apply no_space_no_nl, token_no_space.
Qed.

Lemma full_line_format_record (h : string) (total my add del : Z) :
  is_token h = true -> full_line (format_record h total my add del) = true.
Proof.
  intros Hh. unfold format_record.
  repeat (apply full_line_app;
          [first [done | by apply no_space_no_nl, token_no_space
                 | apply no_space_no_nl, token_no_space, str_token]|]).
  done.
Qed.

Lemma split_zero_record (h : string) :
  is_token h = true -> Py.split (zero_record h) = [h; "0"; "0"; "0"; "0"].
Proof.
  intros Hh.
  change (zero_record h) with (h +:+ String " " ("0 0 0 0" +:+ nl)).
  by rewrite (split_token h " ").
Qed.

Lemma split_format_record (h : string) (total my add del : Z) :
  is_token h = true ->
  Py.split (format_record h total my add del) =
  [h; Py.str total; Py.str my; Py.str add; Py.str del].
Proof.
  intros Hh. unfold format_record. rewrite !append_cons, !append_nil_l.
  rewrite (split_token h " ") by done.
  rewrite (split_token (Py.str total) " ") by (done || apply str_token).
  rewrite (split_token (Py.str my) " ") by (done || apply str_token).
  rewrite (split_token (Py.str add) " ") by (done || apply str_token).
  change nl with (String Py.newline "").
  rewrite (split_token (Py.str del) Py.newline) by (done || apply str_token).
  done.
Qed.

End Tokens.

(** ** The file operations *)

Section Files.
Context (E : env).

Lemma append_eq_self (a s : string) : a +:+ s = a -> s = "".
Proof.
  induction a as [|c a IH]; [done|].
  rewrite append_cons. intros [= H]. by apply IH.
Qed.

Lemma tmp_of_ne (filename : string) : tmp_of filename <> filename.
Proof. intros H. by apply append_eq_self in H. Qed.

Lemma fs_run_app (fs : gmap string string) (ops1 ops2 : list fs_op) :
  fs_run E fs (ops1 ++ ops2) =
  match fs_run E fs ops1 with
  | (fs', true) => fs_run E fs' ops2
  | (fs', false) => (fs', false)
  end.
Proof.
  revert fs. induction ops1 as [|op ops1 IH]; intros fs; [done|].
  simpl. destruct (fs_step E fs op); [apply IH|done].
Qed.

Lemma fs_run_appends (p : string) (ls : list string) (fs : gmap string string)
    (text : string) :
  fs !! p = Some text ->
  fs_run E fs (map (Append p) ls) = (<[p := text +:+ Py.text_of ls]> fs, true).
Proof.
  revert fs text. induction ls as [|l ls IH]; intros fs text Hp.
  - simpl. change (Py.text_of []) with "". rewrite append_empty_r.
    by rewrite insert_id.
  - rewrite text_of_cons. simpl. rewrite Hp.
    rewrite (IH _ (text +:+ l)) by apply lookup_insert_eq.
    by rewrite insert_insert_eq, append_assoc.
Qed.

Lemma fs_run_write_file (p : string) (ls : list string) (fs : gmap string string) :
  can_write E p = true ->
  fs_run E fs (write_file p ls) = (<[p := Py.text_of ls]> fs, true).
Proof.
  intros Hp. unfold write_file. simpl. rewrite Hp.
  rewrite (fs_run_appends p ls _ "") by apply lookup_insert_eq.
  by rewrite insert_insert_eq.
Qed.

Lemma fs_run_denied (p : string) (ops : list fs_op) (fs : gmap string string) :
  can_write E p = false -> fs_run E fs (Create p :: ops) = (fs, false).
Proof. intros Hp. simpl. by rewrite Hp. Qed.

Lemma fs_run_atomic_write (filename : string) (ls : list string)
    (fs : gmap string string) :
  can_write E (tmp_of filename) = true ->
  fs_run E fs (atomic_write filename ls) =
  (<[filename := Py.text_of ls]> (delete (tmp_of filename) fs), true).
Proof.
  intros Hp. unfold atomic_write.
  rewrite fs_run_app, fs_run_write_file by done.
  simpl. rewrite lookup_insert_eq. by rewrite delete_insert_eq.
Qed.

Lemma fs_run_atomic_write_denied (filename : string) (ls : list string)
    (fs : gmap string string) :
  can_write E (tmp_of filename) = false ->
  fs_run E fs (atomic_write filename ls) = (fs, false).
Proof. intros Hp. unfold atomic_write, write_file. simpl. by rewrite Hp. Qed.

(** Operations on the temporary file leave every other file as it is. *)
Lemma fs_step_other (p q : string) (fs fs' : gmap string string) (op : fs_op) :
  (op = Create p \/ exists s, op = Append p s) ->
  q <> p -> fs_step E fs op = Some fs' -> fs' !! q = fs !! q.
Proof.
  intros [->|[s ->]] Hq; simpl.
  - destruct (can_write E p); [|done]. intros [= <-]. by rewrite lookup_insert_ne.
  - destruct (fs !! p); [|done]. intros [= <-]. by rewrite lookup_insert_ne.
Qed.

Lemma fs_run_other (p q : string) (ops : list fs_op) (fs : gmap string string) :
  Forall (fun op => op = Create p \/ exists s, op = Append p s) ops ->
  q <> p -> (fs_run E fs ops).1 !! q = fs !! q.
Proof.
  intros Hops Hq. revert fs. induction Hops as [|op ops Hop _ IH]; intros fs; [done|].
  simpl. destruct (fs_step E fs op) as [fs'|] eqn:Hstep; [|done].
  rewrite IH. by eapply fs_step_other.
Qed.

Lemma write_file_ops (p : string) (ls : list string) :
  Forall (fun op => op = Create p \/ exists s, op = Append p s) (write_file p ls).
Proof.
  constructor; [by left|]. apply Forall_forall. intros op Hop.
  apply list_elem_of_fmap in Hop as (s & -> & _). right. by exists s.
Qed.

(** Whatever prefix of the atomic write was carried out, the canonical
    file holds its old content or the whole new content. *)
Lemma atomic_write_prefix (filename : string) (ops : list fs_op)
    (new : list string) (fs : gmap string string) :
  ops `prefix_of` atomic_write filename new ->
  (fs_run E fs ops).1 !! filename = fs !! filename \/
  (fs_run E fs ops).1 !! filename = Some (Py.text_of new).
Proof.
  intros [k Hk]. destruct k as [|op k _] using rev_ind.
  - rewrite app_nil_r in Hk. subst ops.
    destruct (can_write E (tmp_of filename)) eqn:Hw.
    + right. rewrite fs_run_atomic_write by done. simpl. apply lookup_insert_eq.
    + left. by rewrite fs_run_atomic_write_denied.
  - left. unfold atomic_write in Hk. rewrite app_assoc in Hk.
    apply app_inj_tail in Hk as [Hk _].
    apply fs_run_other with (p := tmp_of filename).
    + pose proof (write_file_ops (tmp_of filename) new) as H.
      rewrite Hk in H. by apply Forall_app in H as [H _].
    + intros H. by apply (tmp_of_ne filename).
Qed.

Lemma force_close_file_files (w1 w2 : world) (data cc : list string) :
  files w1 = files w2 ->
  files (force_close_file E w1 data cc) = files (force_close_file E w2 data cc).
Proof.
  intros H. unfold force_close_file. rewrite H.
  by destruct (fs_run E (files w2) _) as [fs' []].
Qed.

(** Where the temporary file can be written, the crash guard leaves the
    header followed by the records in the canonical file. *)
Lemma force_close_file_saved (w : world) (data cc : list string) :
  can_write E (tmp_of (cache_filename E)) = true ->
  files (force_close_file E w data cc) =
  <[cache_filename E := Py.text_of (cc ++ data)]>
    (delete (tmp_of (cache_filename E)) (files w)).
Proof.
  intros Hw. unfold force_close_file. by rewrite fs_run_atomic_write.
Qed.

End Files.

(** ** The history walker *)

Section Walker.
Context (E : env).

Lemma sum_field_app (f : commit_node -> Z) (l1 l2 : list commit_node) :
  sum_field f (l1 ++ l2) = sum_field f l1 + sum_field f l2.
Proof.
  unfold sum_field. induction l1 as [|x l1 IH]; simpl; [done|]. rewrite IH. lia.
Qed.

Lemma authored_by_app (id : string) (l1 l2 : list commit_node) :
  authored_by id (l1 ++ l2) = authored_by id l1 ++ authored_by id l2.
Proof. apply filter_app. Qed.

Lemma count_page_spec (edges : list commit_node) (a d m : Z) :
  count_page E edges (a, d, m) =
  (a + sum_field additions (authored_by (OWNER_ID E) edges),
   d + sum_field deletions (authored_by (OWNER_ID E) edges),
   m + Z.of_nat (length (authored_by (OWNER_ID E) edges))).
Proof.
  unfold count_page, authored_by. revert a d m.
  induction edges as [|node edges IH]; intros a d m.
  - simpl. f_equal; [f_equal|]; unfold sum_field; simpl; lia.
  - rewrite filter_cons. simpl.
    destruct (decide (author_user node = Some (OWNER_ID E))).
    + rewrite IH. unfold sum_field. simpl. f_equal; [f_equal|]; lia.
    + apply IH.
Qed.

Lemma outcome_cases (o : http_outcome) :
  retryable o = true \/ fatal o = true \/ exists b, o = Response 200 b.
Proof.
  destruct o as [|c b]; [by left|]. simpl.
  destruct (c =? 200) eqn:Hc.
  - right. right. exists b. f_equal. lia.
  - simpl. destruct ((500 <=? c) && (c <? 600)); auto.
Qed.

Section Attempts.
Context (on_history : world -> history -> option (result loc_value * world))
        (owner repo_name : string) (data cc : list string) (cursor : option string).

Lemma attempt_retry (attempt : Z) (rest : list Z) (w : world) :
  retryable (remote E (posts w) owner repo_name cursor) = true ->
  attempt <> 4 ->
  attempt_loop E on_history owner repo_name data cc cursor (attempt :: rest) w =
  attempt_loop E on_history owner repo_name data cc cursor rest (tick w).
Proof.
  intros Hr Ha. simpl.
  assert ((attempt =? max_attempts) = false) as -> by (unfold max_attempts; lia).
  destruct (remote E (posts w) owner repo_name cursor) as [|c b]; [done|].
  simpl in Hr. apply andb_prop in Hr as [Hc Hs]. apply negb_true_iff in Hc.
  by rewrite Hc, Hs.
Qed.

Lemma attempt_exhausted (rest : list Z) (w : world) :
  retryable (remote E (posts w) owner repo_name cursor) = true ->
  attempt_loop E on_history owner repo_name data cc cursor (4 :: rest) w =
  Some (Raise RuntimeError, force_close_file E (tick w) data cc).
Proof.
  intros Hr. simpl.
  destruct (remote E (posts w) owner repo_name cursor) as [|c b]; [done|].
  simpl in Hr. apply andb_prop in Hr as [Hc Hs]. apply negb_true_iff in Hc.
  by rewrite Hc, Hs.
Qed.

Lemma attempt_fatal (attempt : Z) (rest : list Z) (w : world) :
  fatal (remote E (posts w) owner repo_name cursor) = true ->
  attempt_loop E on_history owner repo_name data cc cursor (attempt :: rest) w =
  Some (Raise RuntimeError, force_close_file E (tick w) data cc).
Proof.
  intros Hf. simpl.
  destruct (remote E (posts w) owner repo_name cursor) as [|c b]; [done|].
  simpl in Hf. apply andb_prop in Hf as [Hc Hs]. apply negb_true_iff in Hc, Hs.
  rewrite Hc, Hs. by destruct (c =? 403).
Qed.

Lemma attempt_ok (attempt : Z) (rest : list Z) (w : world) (b : option history) :
  remote E (posts w) owner repo_name cursor = Response 200 b ->
  attempt_loop E on_history owner repo_name data cc cursor (attempt :: rest) w =
  match b with
  | Some h => on_history (tick w) h
  | None => Some (Ok LocZero, tick w)
  end.
Proof. intros Hr. simpl. by rewrite Hr. Qed.

Lemma page_aborts_loop (w : world) (k : nat) :
  page_aborts E owner repo_name (posts w) cursor k ->
  attempt_loop E on_history owner repo_name data cc cursor [1; 2; 3; 4] w =
  Some (Raise RuntimeError, force_close_file E (ticks (S k) w) data cc).
Proof.
  intros (Hk & Hr & Hf).
  destruct k as [|[|[|[|k]]]]; [| | | |lia].
  - destruct Hf as [Hf|[? _]]; [|done]. by rewrite attempt_fatal.
  - pose proof (Hr 0%nat ltac:(lia)) as H0.
    rewrite attempt_retry by (exact H0 || lia).
    destruct Hf as [Hf|[? _]]; [|done]. by rewrite attempt_fatal.
  - pose proof (Hr 0%nat ltac:(lia)) as H0. pose proof (Hr 1%nat ltac:(lia)) as H1.
    rewrite attempt_retry by (exact H0 || lia).
    rewrite attempt_retry by (exact H1 || lia).
    destruct Hf as [Hf|[? _]]; [|done]. by rewrite attempt_fatal.
  - pose proof (Hr 0%nat ltac:(lia)) as H0. pose proof (Hr 1%nat ltac:(lia)) as H1.
    pose proof (Hr 2%nat ltac:(lia)) as H2.
    rewrite attempt_retry by (exact H0 || lia).
    rewrite attempt_retry by (exact H1 || lia).
    rewrite attempt_retry by (exact H2 || lia).
    destruct Hf as [Hf|[_ Hf]]; [by rewrite attempt_fatal|by rewrite attempt_exhausted].
Qed.

Lemma page_yields_loop (w : world) (k : nat) (b : option history) :
  page_yields E owner repo_name (posts w) cursor k b ->
  attempt_loop E on_history owner repo_name data cc cursor [1; 2; 3; 4] w =
  match b with
  | Some h => on_history (ticks (S k) w) h
  | None => Some (Ok LocZero, ticks (S k) w)
  end.
Proof.
  intros (Hk & Hr & Hy).
  destruct k as [|[|[|[|k]]]]; [| | | |lia].
  - by rewrite (attempt_ok _ _ _ b).
  - pose proof (Hr 0%nat ltac:(lia)) as H0.
    rewrite attempt_retry by (exact H0 || lia).
    by rewrite (attempt_ok _ _ _ b).
  - pose proof (Hr 0%nat ltac:(lia)) as H0. pose proof (Hr 1%nat ltac:(lia)) as H1.
    rewrite attempt_retry by (exact H0 || lia).
    rewrite attempt_retry by (exact H1 || lia).
    by rewrite (attempt_ok _ _ _ b).
  - pose proof (Hr 0%nat ltac:(lia)) as H0. pose proof (Hr 1%nat ltac:(lia)) as H1.
    pose proof (Hr 2%nat ltac:(lia)) as H2.
    rewrite attempt_retry by (exact H0 || lia).
    rewrite attempt_retry by (exact H1 || lia).
    rewrite attempt_retry by (exact H2 || lia).
    by rewrite (attempt_ok _ _ _ b).
Qed.

End Attempts.

End Walker.

Section Walk.
Context (E : env).

Lemma recursive_loc_S (fuel : nat) (w : world) (owner repo_name : string)
    (data cc : list string) (a d m : Z) (cursor : option string) :
  recursive_loc E (S fuel) w owner repo_name data cc a d m cursor =
  attempt_loop E
    (fun w' h =>
       loc_counter_one_repo E
         (fun w'' a' d' m' c => recursive_loc E fuel w'' owner repo_name data cc a' d' m' c)
         w' h a d m)
    owner repo_name data cc cursor [1; 2; 3; 4] (query_count w).
Proof. reflexivity. Qed.

Lemma loc_counter_last
    (recurse : world -> Z -> Z -> Z -> option string -> option (result loc_value * world))
    (w : world) (h : history) (a d m : Z) :
  hist_edges h = [] \/ hasNextPage h = false ->
  loc_counter_one_repo E recurse w h a d m =
  Some (Ok (LocTuple
              (a + sum_field additions (authored_by (OWNER_ID E) (hist_edges h)))
              (d + sum_field deletions (authored_by (OWNER_ID E) (hist_edges h)))
              (m + Z.of_nat (length (authored_by (OWNER_ID E) (hist_edges h))))), w).
Proof.
  intros Hlast. unfold loc_counter_one_repo. rewrite count_page_spec.
  destruct Hlast as [Hl| ->].
  - by rewrite bool_decide_eq_true_2.
  - by rewrite orb_true_r.
Qed.

Lemma loc_counter_more
    (recurse : world -> Z -> Z -> Z -> option string -> option (result loc_value * world))
    (w : world) (h : history) (a d m : Z) :
  hist_edges h <> [] -> hasNextPage h = true ->
  loc_counter_one_repo E recurse w h a d m =
  recurse w
    (a + sum_field additions (authored_by (OWNER_ID E) (hist_edges h)))
    (d + sum_field deletions (authored_by (OWNER_ID E) (hist_edges h)))
    (m + Z.of_nat (length (authored_by (OWNER_ID E) (hist_edges h))))
    (endCursor h).
Proof.
  intros Hne Hnext. unfold loc_counter_one_repo. rewrite count_page_spec.
  by rewrite bool_decide_eq_false_2, Hnext.
Qed.

Lemma loc_counter_cases
    (recurse : world -> Z -> Z -> Z -> option string -> option (result loc_value * world))
    (w : world) (h : history) (a d m : Z) :
  (exists a' d' m', loc_counter_one_repo E recurse w h a d m = Some (Ok (LocTuple a' d' m'), w)) \/
  (exists a' d' m', loc_counter_one_repo E recurse w h a d m = recurse w a' d' m' (endCursor h)).
Proof.
  destruct (decide (hist_edges h = [])) as [Hl|Hl].
  - left. rewrite loc_counter_last by auto. eauto.
  - destruct (hasNextPage h) eqn:Hn.
    + right. rewrite loc_counter_more by auto. eauto.
    + left. rewrite loc_counter_last by auto. eauto.
Qed.

Lemma files_ticks (k : nat) (w : world) : files (ticks k w) = files w.
Proof. induction k as [|k IH]; [done|]. exact IH. Qed.

Lemma posts_ticks (k : nat) (w : world) : posts (ticks k w) = (k + posts w)%nat.
Proof. induction k as [|k IH]; [done|]. simpl. by rewrite IH. Qed.

(** An invariant of the attempt loop: a property of the result that holds
    on each of its exits holds of the loop. *)
Lemma attempt_loop_inv (P : result loc_value -> world -> Prop)
    (on_history : world -> history -> option (result loc_value * world))
    (owner repo_name : string) (data cc : list string) (cursor : option string)
    (w : world) :
  (forall w1 h r w', files w1 = files w -> on_history w1 h = Some (r, w') -> P r w') ->
  (forall w1 v, files w1 = files w -> v = LocZero \/ v = LocNone -> P (Ok v) w1) ->
  (forall w1, files w1 = files w -> P (Raise RuntimeError) (force_close_file E w1 data cc)) ->
  forall attempts w0 r w',
    files w0 = files w ->
    attempt_loop E on_history owner repo_name data cc cursor attempts w0 = Some (r, w') ->
    P r w'.
Proof.
  intros Hon Hval Hraise. induction attempts as [|attempt rest IH]; intros w0 r w' Hw0.
  - simpl. intros [= <- <-]. apply Hval; auto.
  - simpl. destruct (remote E (posts w0) owner repo_name cursor) as [|c b].
    + destruct (attempt =? max_attempts).
      * intros [= <- <-]. by apply Hraise.
      * by apply IH.
    + destruct (c =? 200).
      * destruct b as [h|].
        -- by apply Hon.
        -- intros [= <- <-]. apply Hval; auto.
      * destruct ((500 <=? c) && (c <? 600)).
        -- destruct (attempt =? max_attempts).
           ++ intros [= <- <-]. by apply Hraise.
           ++ by apply IH.
        -- destruct (c =? 403); intros [= <- <-]; by apply Hraise.
Qed.

(** A walk that returns leaves the files as they were; a walk that raises
    raises [RuntimeError] after the crash guard ran on the data passed. *)
Lemma recursive_loc_files (fuel : nat) (w : world) (owner repo_name : string)
    (data cc : list string) (a d m : Z) (cursor : option string)
    (r : result loc_value) (w' : world) :
  recursive_loc E fuel w owner repo_name data cc a d m cursor = Some (r, w') ->
  match r with
  | Ok _ => files w' = files w
  | Raise e => e = RuntimeError /\ files w' = files (force_close_file E w data cc)
  end.
Proof.
  revert w a d m cursor r w'. induction fuel as [|fuel IH]; intros w a d m cursor r w'; [done|].
  rewrite recursive_loc_S.
  apply (attempt_loop_inv
           (fun r w' => match r with
                        | Ok _ => files w' = files w
                        | Raise e => e = RuntimeError /\
                                     files w' = files (force_close_file E w data cc)
                        end)) with (w := w); [| | |done].
  - intros w1 h r1 w1' Hw1 Hon.
    destruct (loc_counter_cases
                (fun w'' a' d' m' c => recursive_loc E fuel w'' owner repo_name data cc a' d' m' c)
                w1 h a d m) as [(a' & d' & m' & Heq)|(a' & d' & m' & Heq)];
      rewrite Heq in Hon.
    + by injection Hon as <- <-.
    + apply IH in Hon. destruct r1 as [v|e].
      * congruence.
      * destruct Hon as [-> Hf]. split; [done|].
        rewrite Hf. by apply force_close_file_files.
  - intros w1 v Hw1 _. done.
  - intros w1 Hw1. split; [done|]. by apply force_close_file_files.
Qed.

Lemma walk_aborts_raises (owner repo_name : string) (data cc : list string)
    (n t : nat) (cursor : option string) :
  walk_aborts E owner repo_name n t cursor ->
  forall fuel w a d m, (n <= fuel)%nat -> posts w = t ->
  exists w',
    recursive_loc E fuel w owner repo_name data cc a d m cursor = Some (Raise RuntimeError, w') /\
    files w' = files (force_close_file E w data cc).
Proof.
  induction 1 as [n t cursor k Hab|n t cursor k h Hy Hne Hnext _ IH];
    intros fuel w a d m Hfuel Ht; (destruct fuel as [|fuel]; [lia|]);
    rewrite recursive_loc_S.
  - rewrite (page_aborts_loop E _ _ _ _ _ _ (query_count w) k) by (by simpl; rewrite Ht).
    eexists. split; [done|]. apply force_close_file_files.
    by rewrite files_ticks.
  - rewrite (page_yields_loop E _ _ _ _ _ _ (query_count w) k (Some h)) by (by simpl; rewrite Ht).
    rewrite loc_counter_more by done.
    edestruct (IH fuel (ticks (S k) (query_count w))) as (w' & Heq & Hf);
      [lia|rewrite posts_ticks; simpl; by rewrite Ht|].
    exists w'. split; [exact Heq|]. rewrite Hf. apply force_close_file_files.
    by rewrite files_ticks.
Qed.

Lemma walk_serves_result (owner repo_name : string) (data cc : list string)
    (t : nat) (cursor : option string) (hs : list history) :
  walk_serves E owner repo_name t cursor hs ->
  forall fuel w a d m, (length hs <= fuel)%nat -> posts w = t ->
  exists w',
    recursive_loc E fuel w owner repo_name data cc a d m cursor =
    Some (Ok (LocTuple
                (a + sum_field additions (authored_by (OWNER_ID E) (commits_of hs)))
                (d + sum_field deletions (authored_by (OWNER_ID E) (commits_of hs)))
                (m + Z.of_nat (length (authored_by (OWNER_ID E) (commits_of hs))))), w') /\
    files w' = files w.
Proof.
  induction 1 as [t cursor k h Hy Hlast|t cursor k h hs Hy Hne Hnext _ IH];
    intros fuel w a d m Hfuel Ht; (destruct fuel as [|fuel]; [simpl in Hfuel; lia|]);
    rewrite recursive_loc_S.
  - rewrite (page_yields_loop E _ _ _ _ _ _ (query_count w) k (Some h)) by (by simpl; rewrite Ht).
    rewrite loc_counter_last by done.
    change (commits_of [h]) with (hist_edges h ++ []). rewrite app_nil_r.
    eexists. split; [reflexivity|]. by rewrite files_ticks.
  - rewrite (page_yields_loop E _ _ _ _ _ _ (query_count w) k (Some h)) by (by simpl; rewrite Ht).
    rewrite loc_counter_more by done.
    edestruct (IH fuel (ticks (S k) (query_count w))) as (w' & Heq & Hf);
      [simpl in Hfuel; lia|rewrite posts_ticks; simpl; by rewrite Ht|].
    exists w'. split; [|by rewrite Hf, files_ticks].
    rewrite Heq. change (commits_of (h :: hs)) with (hist_edges h ++ commits_of hs).
    rewrite !authored_by_app, !sum_field_app, length_app.
    do 3 f_equal. f_equal; lia.
Qed.

Lemma attempt_loop_stationary
    (on_history : world -> history -> option (result loc_value * world))
    (owner repo_name : string) (data cc : list string) (cursor : option string) :
  stationary E ->
  (exists b, remote E 0 owner repo_name cursor = Response 200 b /\
     forall w0,
       attempt_loop E on_history owner repo_name data cc cursor [1; 2; 3; 4] w0 =
       match b with
       | Some h => on_history (tick w0) h
       | None => Some (Ok LocZero, tick w0)
       end) \/
  (forall b, remote E 0 owner repo_name cursor <> Response 200 b) /\
  (forall w0, exists w',
       attempt_loop E on_history owner repo_name data cc cursor [1; 2; 3; 4] w0 =
       Some (Raise RuntimeError, w')).
Proof.
  intros Hst.
  destruct (outcome_cases (remote E 0 owner repo_name cursor)) as [Hr|[Hf|[b Hb]]].
  - right. split; [intros b Hb; by rewrite Hb in Hr|]. intros w0.
    assert (Hall : forall w1, retryable (remote E (posts w1) owner repo_name cursor) = true)
      by (intros w1; by rewrite (Hst _ 0%nat)).
    rewrite !attempt_retry by (apply Hall || lia).
    rewrite attempt_exhausted by apply Hall. eauto.
  - right. split; [intros b Hb; by rewrite Hb in Hf|]. intros w0.
    rewrite attempt_fatal by (by rewrite (Hst _ 0%nat)). eauto.
  - left. exists b. split; [done|]. intros w0. apply attempt_ok.
    by rewrite (Hst _ 0%nat).
Qed.

(** With a stationary remote, a walk that returned returns the same value
    again, whatever the world it starts from. *)
Lemma recursive_loc_stationary (fuel : nat) (w : world) (owner repo_name : string)
    (data cc : list string) (a d m : Z) (cursor : option string)
    (v : loc_value) (w' : world) :
  stationary E ->
  recursive_loc E fuel w owner repo_name data cc a d m cursor = Some (Ok v, w') ->
  forall w2 data2 cc2, exists w2',
    recursive_loc E fuel w2 owner repo_name data2 cc2 a d m cursor = Some (Ok v, w2') /\
    files w2' = files w2.
Proof.
  intros Hst. revert w a d m cursor v w'.
  induction fuel as [|fuel IH]; intros w a d m cursor v w' Hrun w2 data2 cc2; [done|].
  rewrite recursive_loc_S in *.
  destruct (attempt_loop_stationary
              (fun w' h =>
                 loc_counter_one_repo E
                   (fun w'' a' d' m' c => recursive_loc E fuel w'' owner repo_name data cc a' d' m' c)
                   w' h a d m) owner repo_name data cc cursor Hst)
    as [(b & Hb & Hloop)|(_ & Hloop)].
  - rewrite Hloop in Hrun.
    destruct (attempt_loop_stationary
                (fun w' h =>
                   loc_counter_one_repo E
                     (fun w'' a' d' m' c => recursive_loc E fuel w'' owner repo_name data2 cc2 a' d' m' c)
                     w' h a d m) owner repo_name data2 cc2 cursor Hst)
      as [(b2 & Hb2 & Hloop2)|(Hno & _)]; [|by destruct (Hno b)].
    rewrite Hloop2. assert (b2 = b) as -> by congruence.
    destruct b as [h|].
    + destruct (decide (hist_edges h = [] \/ hasNextPage h = false)) as [Hlast|Hmore].
      * rewrite loc_counter_last in Hrun |- * by done.
        injection Hrun as <- _. eexists. split; [reflexivity|done].
      * assert (hist_edges h <> [] /\ hasNextPage h = true) as [Hne Hnext].
        { destruct (hasNextPage h); split; auto. }
        rewrite loc_counter_more in Hrun |- * by done.
        edestruct (IH _ _ _ _ _ _ _ Hrun (tick (query_count w2)) data2 cc2)
          as (w2' & Heq & Hfiles).
        exists w2'. split; [exact Heq|]. by rewrite Hfiles.
    + injection Hrun as <- _. eexists. split; [reflexivity|done].
  - destruct (Hloop (query_count w)) as [w'' Heq]. by rewrite Heq in Hrun.
Qed.

End Walk.

(** ** One pass over the repositories *)

Section Pass.
Context (E : env).

Lemma update_index_mismatch (fuel : nat) (w : world) (cc data : list string)
    (i : nat) (edge : repo_edge) (line h c : string) (rest : list string) :
  data !! i = Some line -> Py.split line = h :: c :: rest ->
  h <> repo_key E edge ->
  update_index E fuel w cc data i edge = Some (Ok data, w).
Proof.
  intros Hl Hs Hk. unfold update_index. rewrite Hl, Hs.
  apply String.eqb_neq in Hk. by rewrite Hk.
Qed.

Lemma update_index_hit (fuel : nat) (w : world) (cc data : list string)
    (i : nat) (edge : repo_edge) (line h c : string) (rest : list string) (n : Z) :
  data !! i = Some line -> Py.split line = h :: c :: rest ->
  h = repo_key E edge -> Py.int c = Some n -> defaultBranchRef edge = Some n ->
  update_index E fuel w cc data i edge = Some (Ok data, w).
Proof.
  intros Hl Hs Hk Hn Hb. unfold update_index. rewrite Hl, Hs, Hn, Hb.
  apply String.eqb_eq in Hk. rewrite Hk. by rewrite Z.eqb_refl.
Qed.

Lemma update_index_branchless (fuel : nat) (w : world) (cc data : list string)
    (i : nat) (edge : repo_edge) (line h c : string) (rest : list string) (n : Z) :
  data !! i = Some line -> Py.split line = h :: c :: rest ->
  h = repo_key E edge -> Py.int c = Some n -> defaultBranchRef edge = None ->
  update_index E fuel w cc data i edge = Some (Ok (<[i := zero_record h]> data), w).
Proof.
  intros Hl Hs Hk Hn Hb. unfold update_index. rewrite Hl, Hs, Hn, Hb.
  apply String.eqb_eq in Hk. by rewrite Hk.
Qed.

Lemma update_index_stale (fuel : nat) (w : world) (cc data : list string)
    (i : nat) (edge : repo_edge) (line h c : string) (rest : list string)
    (n total : Z) (owner repo_name : string) :
  data !! i = Some line -> Py.split line = h :: c :: rest ->
  h = repo_key E edge -> Py.int c = Some n ->
  defaultBranchRef edge = Some total -> n <> total ->
  Py.split_on "/" (nameWithOwner edge) = [owner; repo_name] ->
  update_index E fuel w cc data i edge =
  match recursive_loc E fuel w owner repo_name data cc 0 0 0 None with
  | None => None
  | Some (Ok v, w1) => Some (Ok (<[i := written_record h total v]> data), w1)
  | Some (Raise e, w1) => Some (Raise e, w1)
  end.
Proof.
  intros Hl Hs Hk Hn Hb Hne Hso. unfold update_index. rewrite Hl, Hs, Hn, Hb, Hso.
  apply String.eqb_eq in Hk. rewrite Hk.
  apply Z.eqb_neq in Hne. rewrite Hne. simpl.
  destruct (recursive_loc E fuel w owner repo_name data cc 0 0 0 None)
    as [[[v|e] w1]|] eqn:Hrec; [by destruct v| |done].
  apply recursive_loc_files in Hrec as [-> _]. done.
Qed.

(** What a position that was processed without an exception went through. *)
Lemma update_index_Ok_inv (fuel : nat) (w : world) (cc data : list string)
    (i : nat) (edge : repo_edge) (data1 : list string) (w1 : world) :
  update_index E fuel w cc data i edge = Some (Ok data1, w1) ->
  exists line h c rest,
    data !! i = Some line /\ Py.split line = h :: c :: rest /\
    ((h <> repo_key E edge /\ data1 = data /\ w1 = w) \/
     (h = repo_key E edge /\ exists n, Py.int c = Some n /\
        ((defaultBranchRef edge = None /\ data1 = <[i := zero_record h]> data /\ w1 = w) \/
         (defaultBranchRef edge = Some n /\ data1 = data /\ w1 = w) \/
         (exists total owner repo_name v,
            defaultBranchRef edge = Some total /\ n <> total /\
            Py.split_on "/" (nameWithOwner edge) = [owner; repo_name] /\
            recursive_loc E fuel w owner repo_name data cc 0 0 0 None = Some (Ok v, w1) /\
            data1 = <[i := written_record h total v]> data)))).
Proof.
  intros H.
  destruct (data !! i) as [line|] eqn:Hl; [|by unfold update_index in H; rewrite Hl in H].
  destruct (Py.split line) as [|h [|c rest]] eqn:Hs;
    [by unfold update_index in H; rewrite Hl, Hs in H
    |by unfold update_index in H; rewrite Hl, Hs in H|].
  exists line, h, c, rest. split; [done|]. split; [done|].
  destruct (decide (h = repo_key E edge)) as [Hk|Hk].
  - right. split; [done|].
    destruct (Py.int c) as [n|] eqn:Hn.
    2:{ unfold update_index in H. rewrite Hl, Hs, Hn in H.
        apply String.eqb_eq in Hk. by rewrite Hk in H. }
    exists n. split; [done|].
    destruct (defaultBranchRef edge) as [total|] eqn:Hb.
    + destruct (decide (n = total)) as [->|Hne].
      * rewrite (update_index_hit _ _ _ _ _ _ line h c rest total) in H by done.
        injection H as <- <-. right. left. done.
      * destruct (Py.split_on "/" (nameWithOwner edge)) as [|owner [|repo_name [|x l]]] eqn:Hso.
        1,2,4: unfold update_index in H; rewrite Hl, Hs, Hn, Hb, Hso in H;
          apply String.eqb_eq in Hk; rewrite Hk in H;
          apply Z.eqb_neq in Hne; by rewrite Hne in H.
        rewrite (update_index_stale _ _ _ _ _ _ line h c rest n total owner repo_name) in H by done.
        destruct (recursive_loc E fuel w owner repo_name data cc 0 0 0 None)
          as [[[v|e] w1']|] eqn:Hrec; [|done|done].
        injection H as <- <-. right. right. exists total, owner, repo_name, v. done.
    + rewrite (update_index_branchless _ _ _ _ _ _ line h c rest n) in H by done.
      injection H as <- <-. left. done.
  - left. rewrite (update_index_mismatch _ _ _ _ _ _ line h c rest) in H by done.
    by injection H as <- <-.
Qed.

Lemma update_index_frame (fuel : nat) (w : world) (cc data : list string)
    (i : nat) (edge : repo_edge) (data1 : list string) (w1 : world) :
  update_index E fuel w cc data i edge = Some (Ok data1, w1) ->
  length data1 = length data /\ forall j, j <> i -> data1 !! j = data !! j.
Proof.
  intros H. apply update_index_Ok_inv in H as (line & h & c & rest & Hl & Hs & H).
  destruct H as [(_ & -> & _)|(_ & n & _ & [(_ & -> & _)|[(_ & -> & _)|(? & ? & ? & ? & _ & _ & _ & _ & ->)]])];
    (split; [by rewrite ?length_insert|intros j Hj; by rewrite ?list_lookup_insert_ne]).
Qed.

Lemma update_index_files (fuel : nat) (w : world) (cc data : list string)
    (i : nat) (edge : repo_edge) (data1 : list string) (w1 : world) :
  update_index E fuel w cc data i edge = Some (Ok data1, w1) -> files w1 = files w.
Proof.
  intros H. apply update_index_Ok_inv in H as (line & h & c & rest & Hl & Hs & H).
  destruct H as [(_ & _ & ->)|(_ & n & _ & [(_ & _ & ->)|[(_ & _ & ->)|(? & ? & ? & ? & _ & _ & _ & Hrec & _)]])];
    try done.
  by apply recursive_loc_files in Hrec.
Qed.

Lemma update_index_IndexError (fuel : nat) (w : world) (cc data : list string)
    (i : nat) (edge : repo_edge) (w1 : world) :
  update_index E fuel w cc data i edge = Some (Raise IndexError, w1) ->
  data !! i = None.
Proof.
  unfold update_index. destruct (data !! i) as [line|]; [|done].
  destruct (Py.split line) as [|h [|c rest]]; [done|done|].
  destruct (String.eqb h (repo_key E edge)); [|done].
  destruct (Py.int c) as [n|]; [|done].
  destruct (defaultBranchRef edge) as [total|]; [|done].
  destruct (negb (n =? total)); [|done].
  destruct (Py.split_on "/" (nameWithOwner edge)) as [|owner [|repo_name [|x l]]]; try done.
  destruct (recursive_loc E fuel w owner repo_name data cc 0 0 0 None)
    as [[[v|e] w1']|] eqn:Hrec; [by destruct v| |done].
  apply recursive_loc_files in Hrec as [-> _]. done.
Qed.

Lemma update_from_cons (fuel : nat) (w : world) (cc data : list string)
    (i : nat) (edge : repo_edge) (rest : list repo_edge) :
  update_from E fuel w cc data i (edge :: rest) =
  match update_index E fuel w cc data i edge with
  | None => None
  | Some (Raise e, w1) => Some (Raise e, w1)
  | Some (Ok data1, w1) => update_from E fuel w1 cc data1 (S i) rest
  end.
Proof. reflexivity. Qed.

Lemma update_from_frame (fuel : nat) (edges : list repo_edge) (w : world)
    (cc data : list string) (i : nat) (data' : list string) (w' : world) :
  update_from E fuel w cc data i edges = Some (Ok data', w') ->
  length data' = length data /\ files w' = files w /\
  forall j, (j < i)%nat -> data' !! j = data !! j.
Proof.
  revert w data i. induction edges as [|edge rest IH]; intros w data i.
  - simpl. by intros [= <- <-].
  - rewrite update_from_cons.
    destruct (update_index E fuel w cc data i edge) as [[[data1|e] w1]|] eqn:Hstep; [|done|done].
    intros Hrest. apply IH in Hrest as (Hlen & Hf & Hframe).
    pose proof (update_index_frame _ _ _ _ _ _ _ _ Hstep) as [Hlen1 Hframe1].
    apply update_index_files in Hstep.
    split; [congruence|]. split; [congruence|].
    intros j Hj. rewrite Hframe by lia. apply Hframe1. lia.
Qed.

(** With one line per remaining repository, the loop never leaves the
    range of [data]. *)
Lemma update_from_in_range (fuel : nat) (edges : list repo_edge) (w : world)
    (cc data : list string) (i : nat) (w' : world) :
  (i + length edges <= length data)%nat ->
  update_from E fuel w cc data i edges <> Some (Raise IndexError, w').
Proof.
  revert w data i. induction edges as [|edge rest IH]; intros w data i Hlen; [done|].
  rewrite update_from_cons. simpl in Hlen.
  destruct (update_index E fuel w cc data i edge) as [[[data1|e] w1]|] eqn:Hstep; [| |done].
  - apply IH. apply update_index_frame in Hstep as [-> _]. lia.
  - intros [= -> ->]. apply update_index_IndexError in Hstep.
    apply lookup_ge_None in Hstep. lia.
Qed.

(** A loop that ran to its end had a line for every repository. *)
Lemma update_from_length (fuel : nat) (edges : list repo_edge) (w : world)
    (cc data : list string) (i : nat) (data' : list string) (w' : world) :
  update_from E fuel w cc data i edges = Some (Ok data', w') ->
  (i + length edges <= length data)%nat \/ edges = [].
Proof.
  revert w data i. induction edges as [|edge rest IH]; intros w data i; [by right|].
  rewrite update_from_cons.
  destruct (update_index E fuel w cc data i edge) as [[[data1|e] w1]|] eqn:Hstep; [|done|done].
  intros Hrest. left. simpl.
  pose proof (update_index_frame _ _ _ _ _ _ _ _ Hstep) as [Hlen1 _].
  apply update_index_Ok_inv in Hstep as (line & _ & _ & _ & Hl & _).
  apply lookup_lt_Some in Hl.
  apply IH in Hrest as [Hr| ->]; simpl; lia.
Qed.

End Pass.

Section Positions.
Context (E : env).

Lemma update_from_app (fuel : nat) (l1 l2 : list repo_edge) (w : world)
    (cc data : list string) (i : nat) :
  update_from E fuel w cc data i (l1 ++ l2) =
  match update_from E fuel w cc data i l1 with
  | None => None
  | Some (Raise e, w1) => Some (Raise e, w1)
  | Some (Ok data1, w1) => update_from E fuel w1 cc data1 (i + length l1) l2
  end.
Proof.
  revert w data i. induction l1 as [|edge l1 IH]; intros w data i.
  - simpl. by rewrite Nat.add_0_r.
  - rewrite <- app_comm_cons, !update_from_cons.
    destruct (update_index E fuel w cc data i edge) as [[[data1|e] w1]|]; [|done|done].
    rewrite IH. simpl. by rewrite Nat.add_succ_r.
Qed.

Lemma update_from_frame_above (fuel : nat) (edges : list repo_edge) (w : world)
    (cc data : list string) (i : nat) (data' : list string) (w' : world) :
  update_from E fuel w cc data i edges = Some (Ok data', w') ->
  forall j, (i + length edges <= j)%nat -> data' !! j = data !! j.
Proof.
  revert w data i. induction edges as [|edge rest IH]; intros w data i.
  - simpl. by intros [= <- <-].
  - rewrite update_from_cons.
    destruct (update_index E fuel w cc data i edge) as [[[data1|e] w1]|] eqn:Hstep; [|done|done].
    intros Hrest j Hj. simpl in Hj.
    rewrite (IH _ _ _ Hrest) by lia.
    apply update_index_frame in Hstep as [_ Hframe]. apply Hframe. lia.
Qed.

(** The step taken at position [i] of a pass that ran to its end. *)
Lemma update_from_at (fuel : nat) (edges : list repo_edge) (w : world)
    (cc data : list string) (i : nat) (edge : repo_edge)
    (data' : list string) (w' : world) :
  edges !! i = Some edge ->
  update_from E fuel w cc data 0 edges = Some (Ok data', w') ->
  exists w_i data_i w_i' data_i',
    update_from E fuel w cc data 0 (take i edges) = Some (Ok data_i, w_i) /\
    data_i !! i = data !! i /\
    update_index E fuel w_i cc data_i i edge = Some (Ok data_i', w_i') /\
    data' !! i = data_i' !! i.
Proof.
  intros Hi Hrun. pose proof (lookup_lt_Some _ _ _ Hi) as Hlt.
  rewrite <- (take_drop_middle edges i edge Hi), update_from_app in Hrun.
  destruct (update_from E fuel w cc data 0 (take i edges)) as [[[data_i|e] w_i]|] eqn:H1;
    [|done|done].
  rewrite length_take, Nat.min_l, Nat.add_0_l in Hrun by lia.
  rewrite update_from_cons in Hrun.
  destruct (update_index E fuel w_i cc data_i i edge) as [[[data_i'|e] w_i']|] eqn:H2;
    [|done|done].
  exists w_i, data_i, w_i', data_i'. split; [done|]. split; [|split; [done|]].
  - apply (update_from_frame_above _ _ _ _ _ _ _ _ H1).
    rewrite length_take. lia.
  - apply update_from_frame in Hrun as (_ & _ & Hframe). apply Hframe. lia.
Qed.

(** Processing a position a second time, with the line that the first
    time left there, changes nothing when the remote is stationary. *)
Lemma update_index_idem (fuel : nat) (w : world) (cc data : list string)
    (i : nat) (edge : repo_edge) (data1 : list string) (w1 : world) :
  stationary E ->
  update_index E fuel w cc data i edge = Some (Ok data1, w1) ->
  forall w2 cc2 data2, data2 !! i = data1 !! i ->
  exists w2', update_index E fuel w2 cc2 data2 i edge = Some (Ok data2, w2') /\
              files w2' = files w2.
Proof.
  intros Hst H w2 cc2 data2 H2.
  apply update_index_Ok_inv in H as (line & h & c & rest & Hl & Hs & H).
  pose proof (split_hd_token _ _ _ Hs) as Hh.
  pose proof (lookup_lt_Some _ _ _ Hl) as Hlt.
  assert (Hzero : forall d : list string, d !! i = Some (zero_record h) ->
            <[i := zero_record h]> d = d) by (intros d Hd; by apply list_insert_id).
  destruct H as [(Hk & -> & _)|(Hk & n & Hn & [(Hb & -> & _)|[(Hb & -> & _)|H]])].
  - exists w2. split; [|done]. rewrite Hl in H2.
    by eapply update_index_mismatch.
  - rewrite list_lookup_insert_eq in H2 by done. exists w2. split; [|done].
    rewrite (update_index_branchless E _ _ _ _ _ _ _ h "0" ["0"; "0"; "0"] 0 H2);
      [by rewrite Hzero|by apply split_zero_record|done|done|done].
  - exists w2. split; [|done]. rewrite Hl in H2.
    by eapply update_index_hit.
  - destruct H as (total & owner & repo_name & v & Hb & Hne & Hso & Hrec & ->).
    rewrite list_lookup_insert_eq in H2 by done.
    assert (Hcase : (exists a d m, v = LocTuple a d m) \/
                    written_record h total v = zero_record h)
      by (destruct v; eauto).
    destruct Hcase as [(a & d & m & ->)|Hw].
    + exists w2. split; [|done]. simpl in H2.
      eapply update_index_hit; [exact H2|by apply split_format_record|done| |done].
      apply int_str.
    + rewrite Hw in H2.
      destruct (decide (0 = total)) as [<-|Hne0].
      * exists w2. split; [|done].
        eapply update_index_hit; [exact H2|by apply split_zero_record|done|done|done].
      * destruct (recursive_loc_stationary E _ _ _ _ _ _ _ _ _ _ _ _ Hst Hrec w2 data2 cc2)
          as (w2' & Hrec2 & Hf).
        exists w2'. split; [|done].
        rewrite (update_index_stale E _ _ _ _ _ _ _ h "0" ["0"; "0"; "0"] 0 total owner repo_name H2);
          [|by apply split_zero_record|done|done|done|done|done].
        rewrite Hrec2, Hw. by rewrite Hzero.
Qed.

Lemma update_from_idem (fuel : nat) (edges : list repo_edge) (w : world)
    (cc data : list string) (i : nat) (data' : list string) (w' : world) :
  stationary E ->
  update_from E fuel w cc data i edges = Some (Ok data', w') ->
  forall w2 cc2 data2,
    (forall j, (i <= j)%nat -> data2 !! j = data' !! j) ->
    exists w2', update_from E fuel w2 cc2 data2 i edges = Some (Ok data2, w2') /\
                files w2' = files w2.
Proof.
  intros Hst. revert w data i. induction edges as [|edge rest IH]; intros w data i.
  - intros _ w2 cc2 data2 _. exists w2. done.
  - rewrite update_from_cons.
    destruct (update_index E fuel w cc data i edge) as [[[data1|e] w1]|] eqn:Hstep; [|done|done].
    intros Hrest w2 cc2 data2 H2.
    pose proof (update_from_frame E _ _ _ _ _ _ _ _ Hrest) as (_ & _ & Hframe).
    destruct (update_index_idem _ _ _ _ _ _ _ _ Hst Hstep w2 cc2 data2) as (w2' & Hstep2 & Hf2).
    { rewrite H2 by lia. apply Hframe. lia. }
    destruct (IH _ _ _ Hrest w2' cc2 data2) as (w2'' & Hrest2 & Hf2').
    { intros j Hj. apply H2. lia. }
    exists w2''. rewrite update_from_cons, Hstep2. split; [done|]. congruence.
Qed.

End Positions.

(** ** Facts about a whole run *)



Lemma update_index_malformed (E : env) (fuel : nat) (w : world) (cc data : list string)
    (i : nat) (edge : repo_edge) (line : string) :
  data !! i = Some line -> (length (Py.split line) < 2)%nat ->
  update_index E fuel w cc data i edge = Some (Raise ValueError, w).
Proof.
  intros Hl Hlen. unfold update_index. rewrite Hl.
  destruct (Py.split line) as [|h [|c rest]]; [done|done|simpl in Hlen; lia].
Qed.

Lemma flush_cache_ok (E : env) (w : world) (edges : list repo_edge)
    (filename : string) (comment_size : nat) (text : string) :
  files w !! filename = Some text ->
  can_write E (tmp_of filename) = true ->
  flush_cache E w edges filename comment_size =
  (Ok (),
   set_files w
     (<[filename := Py.text_of (take comment_size (Py.readlines text)
                                  ++ map (fun node => zero_record (repo_key E node)) edges)]>
        (delete (tmp_of filename) (files w)))).
Proof.
  intros Hf Hw. unfold flush_cache. rewrite Hf.
  assert ((if (0 <? comment_size)%nat then take comment_size (Py.readlines text) else [])
          = take comment_size (Py.readlines text)) as ->
    by (by destruct comment_size).
  by rewrite fs_run_atomic_write.
Qed.

Lemma full_line_comment_line : full_line comment_line = true.
Proof. reflexivity. Qed.

(** After the rebuild step, a store whose header lines are in place and
    end in a newline has one record line per repository. *)
Lemma reconcile_in_range (E : env) (w : world) (edges : list repo_edge)
    (comment_size : nat) (force_cache : bool) (text : string) :
  let filename := cache_filename E in
  digest_is_token E ->
  can_write E (tmp_of filename) = true ->
  files w !! filename = Some text ->
  (comment_size <= length (Py.readlines text))%nat ->
  Forall (fun l => full_line l = true) (take comment_size (Py.readlines text)) ->
  exists cached lines w1,
    reconcile E w filename comment_size force_cache edges (Py.readlines text) =
      (Ok (cached, lines), w1) /\
    length (drop comment_size lines) = length edges /\
    (comment_size <= length lines)%nat.
Proof.
  intros filename Hd Hw Hf Hcs Hfull. unfold reconcile.
  destruct (needs_flush (Py.readlines text) comment_size edges force_cache) eqn:Hflush.
  - rewrite (flush_cache_ok E w edges filename comment_size text Hf Hw). simpl.
    rewrite lookup_insert_eq.
    set (skeleton := map (fun node => zero_record (repo_key E node)) edges).
    assert (Hsk : Forall (fun l => full_line l = true) skeleton).
    { apply Forall_forall. intros l Hl.
      apply list_elem_of_fmap in Hl as (node & -> & _).
      apply full_line_zero_record, Hd. }
    rewrite readlines_text_of by (apply lines_ok_full, Forall_app; done).
    eexists _, _, _. split; [reflexivity|].
    rewrite drop_app_length' by (by rewrite length_take_le).
    split; [unfold skeleton; by rewrite length_map|].
    rewrite length_app, length_take_le by done. lia.
  - eexists _, _, _. split; [reflexivity|]. split; [|done].
    unfold needs_flush in Hflush. apply orb_false_iff in Hflush as [Hflush _].
    apply negb_false_iff, Z.eqb_eq in Hflush. rewrite length_drop. lia.
Qed.

Lemma reconcile_in_range_inv (E : env) (w : world) (edges : list repo_edge)
    (comment_size : nat) (force_cache : bool) (text : string)
    (cached : bool) (lines : list string) (w1 : world) :
  let filename := cache_filename E in
  digest_is_token E ->
  files w !! filename = Some text ->
  (comment_size <= length (Py.readlines text))%nat ->
  Forall (fun l => full_line l = true) (take comment_size (Py.readlines text)) ->
  reconcile E w filename comment_size force_cache edges (Py.readlines text) =
    (Ok (cached, lines), w1) ->
  length (drop comment_size lines) = length edges.
Proof.
  intros filename Hd Hf Hcs Hfull Hrec.
  destruct (can_write E (tmp_of filename)) eqn:Hw.
  - destruct (reconcile_in_range E w edges comment_size force_cache text Hd Hw Hf Hcs Hfull)
      as (cached' & lines' & w1' & Hrec' & Hlen & _).
    fold filename in Hrec'. rewrite Hrec in Hrec'. by injection Hrec' as <- <- <-.
  - unfold reconcile in Hrec.
    destruct (needs_flush (Py.readlines text) comment_size edges force_cache) eqn:Hflush.
    + unfold flush_cache in Hrec. rewrite Hf in Hrec.
      by rewrite fs_run_atomic_write_denied in Hrec.
    + injection Hrec as <- <- <-.
      unfold needs_flush in Hflush. apply orb_false_iff in Hflush as [Hflush _].
      apply negb_false_iff, Z.eqb_eq in Hflush. rewrite length_drop. lia.
Qed.

Lemma demo_digest_token : digest_is_token demo_env.
Proof.
  intros s. unfold demo_env, sha256_hex, demo_digest.
  rewrite append_cons, append_nil_l, is_token_cons.
  apply token_no_space, str_token.
Qed.

Lemma sum_authored_perm (f : commit_node -> Z) (id : string) (l l' : list commit_node) :
  l ≡ₚ l' ->
  sum_field f (authored_by id l) = sum_field f (authored_by id l') /\
  length (authored_by id l) = length (authored_by id l').
Proof.
  unfold authored_by, sum_field.
  induction 1 as [|x l l' _ [IH1 IH2]|x y l|l l' l'' _ [IH1 IH2] _ [IH1' IH2']].
  - done.
  - rewrite !filter_cons. destruct (decide (author_user x = Some id)); simpl; split; lia.
  - rewrite !filter_cons.
    destruct (decide (author_user x = Some id)), (decide (author_user y = Some id));
      simpl; split; lia.
  - split; congruence.
Qed.

Lemma sum_authored_nonneg (f : commit_node -> Z) (id : string) (l : list commit_node) :
  Forall (fun node => 0 <= f node) l -> 0 <= sum_field f (authored_by id l).
Proof.
  unfold authored_by, sum_field. induction 1 as [|x l Hx _ IH]; [done|].
  rewrite filter_cons. destruct (decide (author_user x = Some id)); simpl; lia.
Qed.

(** The totals of the authored commits grow with the multiset of commits. *)
Lemma totals_mono (id : string) (old new : list commit_node) :
  old ⊆+ new ->
  Forall (fun node => 0 <= additions node /\ 0 <= deletions node) new ->
  sum_field additions (authored_by id old) <= sum_field additions (authored_by id new) /\
  sum_field deletions (authored_by id old) <= sum_field deletions (authored_by id new) /\
  Z.of_nat (length (authored_by id old)) <= Z.of_nat (length (authored_by id new)).
Proof.
  intros [extra Hperm]%submseteq_Permutation Hnn.
  destruct (sum_authored_perm additions id _ _ Hperm) as [Ha Hlen].
  destruct (sum_authored_perm deletions id _ _ Hperm) as [Hd _].
  rewrite Ha, Hd, Hlen, !authored_by_app, !sum_field_app, length_app.
  assert (Hextra : Forall (fun node => 0 <= additions node /\ 0 <= deletions node) extra).
  { apply Forall_forall. intros x Hx. rewrite Forall_forall in Hnn. apply Hnn.
    rewrite Hperm. apply elem_of_app. by right. }
  pose proof (sum_authored_nonneg additions id extra
                (Forall_impl _ _ _ Hextra (fun _ H => proj1 H))).
  pose proof (sum_authored_nonneg deletions id extra
                (Forall_impl _ _ _ Hextra (fun _ H => proj2 H))).
  lia.
Qed.

Lemma lines_ok_insert (ls : list string) (i : nat) (l : string) :
  full_line l = true -> lines_ok ls = true -> lines_ok (<[i := l]> ls) = true.
Proof.
  intros Hl. revert i. induction ls as [|x ls IH]; intros i Hok; [done|].
  destruct ls as [|y r].
  - destruct i; simpl; [by apply full_line_is_line|done].
  - rewrite lines_ok_cons in Hok. apply andb_prop in Hok as [Hx Hr].
    destruct i as [|j].
    + change (<[0%nat := l]> (x :: y :: r)) with (l :: y :: r).
      by rewrite lines_ok_cons, Hl, Hr.
    + specialize (IH j Hr).
      change (<[S j := l]> (x :: y :: r)) with (x :: <[j := l]> (y :: r)).
      destruct (<[j := l]> (y :: r)) as [|y' r'] eqn:Heq.
      * by destruct j.
      * by rewrite lines_ok_cons, Hx, IH.
Qed.

Lemma update_index_lines_ok (E : env) (fuel : nat) (w : world) (cc data : list string)
    (i : nat) (edge : repo_edge) (data1 : list string) (w1 : world) (header : list string) :
  update_index E fuel w cc data i edge = Some (Ok data1, w1) ->
  lines_ok (header ++ data) = true -> lines_ok (header ++ data1) = true.
Proof.
  intros H Hok. apply update_index_Ok_inv in H as (line & h & c & rest & Hl & Hs & H).
  pose proof (split_hd_token _ _ _ Hs) as Hh.
  pose proof (lookup_lt_Some _ _ _ Hl) as Hlt.
  assert (Hins : forall l, full_line l = true ->
            lines_ok (header ++ <[i := l]> data) = true).
  { intros l Hfl.
    replace (header ++ <[i := l]> data)
      with (<[(length header + i)%nat := l]> (header ++ data))
      by (by rewrite insert_app_r).
    by apply lines_ok_insert. }
  destruct H as [(_ & -> & _)|(_ & n & _ & [(_ & -> & _)|[(_ & -> & _)|(total & ? & ? & v & _ & _ & _ & _ & ->)]])];
    [done|by apply Hins, full_line_zero_record|done|].
  apply Hins. destruct v; [by apply full_line_format_record|by apply full_line_zero_record..].
Qed.

Lemma update_from_lines_ok (E : env) (fuel : nat) (edges : list repo_edge) (w : world)
    (cc data : list string) (i : nat) (data' : list string) (w' : world)
    (header : list string) :
  update_from E fuel w cc data i edges = Some (Ok data', w') ->
  lines_ok (header ++ data) = true -> lines_ok (header ++ data') = true.
Proof.
  revert w data i. induction edges as [|edge rest IH]; intros w data i.
  - simpl. by intros [= <- <-].
  - rewrite update_from_cons.
    destruct (update_index E fuel w cc data i edge) as [[[data1|e] w1]|] eqn:Hstep; [|done|done].
    intros Hrest Hok. eapply IH; [exact Hrest|]. by eapply update_index_lines_ok.
Qed.

(** What [load_cache] leaves behind when it returns. *)
Lemma load_cache_Ok_inv (E : env) (w : world) (filename : string) (comment_size : nat)
    (data0 : list string) (w0 : world) :
  (files w !! filename = None \/
   exists text, files w !! filename = Some text /\
     (comment_size <= length (Py.readlines text))%nat) ->
  load_cache E w filename comment_size = (Ok data0, w0) ->
  exists text0,
    files w0 !! filename = Some text0 /\ Py.readlines text0 = data0 /\
    (comment_size <= length data0)%nat /\
    posts w0 = posts w /\ recursive_loc_calls w0 = recursive_loc_calls w.
Proof.
  intros [Hnone|(text & Hf & Hcs)]; unfold load_cache.
  - rewrite Hnone.
    assert ((if (0 <? comment_size)%nat then replicate comment_size comment_line else [])
            = replicate comment_size comment_line) as -> by (by destruct comment_size).
    destruct (can_write E filename) eqn:Hw.
    + rewrite fs_run_write_file by done. intros [= <- <-].
      exists (Py.text_of (replicate comment_size comment_line)).
      split; [simpl; apply lookup_insert_eq|]. split; [|by rewrite length_replicate].
      apply readlines_text_of, lines_ok_full, Forall_replicate, full_line_comment_line.
    + unfold write_file. by rewrite fs_run_denied.
  - rewrite Hf. intros [= <- <-]. by exists text.
Qed.

Lemma load_cache_Ok_file (E : env) (w : world) (filename : string) (comment_size : nat)
    (data0 : list string) (w0 : world) :
  load_cache E w filename comment_size = (Ok data0, w0) ->
  exists text0, files w0 !! filename = Some text0 /\ Py.readlines text0 = data0.
Proof.
  destruct (files w !! filename) as [text|] eqn:Hf.
  - unfold load_cache. rewrite Hf. intros [= <- <-]. by exists text.
  - intros Hload.
    destruct (load_cache_Ok_inv E w filename comment_size data0 w0 (or_introl Hf) Hload)
      as (text0 & Hf0 & Hr0 & _).
    by exists text0.
Qed.

(** What the rebuild step returns, for a run whose loop then had a line
    at every position. *)
Lemma reconcile_Ok_inv (E : env) (w0 : world) (filename : string) (comment_size : nat)
    (force_cache : bool) (edges : list repo_edge) (text0 : string)
    (cached : bool) (lines : list string) (w1 : world) :
  digest_is_token E ->
  files w0 !! filename = Some text0 ->
  ((comment_size <= length (Py.readlines text0))%nat \/ edges <> []) ->
  reconcile E w0 filename comment_size force_cache edges (Py.readlines text0) =
    (Ok (cached, lines), w1) ->
  ((length edges <= length (drop comment_size lines))%nat \/ edges = []) ->
  lines_ok lines = true /\ (comment_size <= length lines)%nat /\
  length (drop comment_size lines) = length edges /\
  posts w1 = posts w0 /\ recursive_loc_calls w1 = recursive_loc_calls w0.
Proof.
  intros Hd Hf Hcs. unfold reconcile.
  destruct (needs_flush (Py.readlines text0) comment_size edges force_cache) eqn:Hflush.
  - destruct (can_write E (tmp_of filename)) eqn:Hw.
    2:{ unfold flush_cache. rewrite Hf. by rewrite fs_run_atomic_write_denied. }
    rewrite (flush_cache_ok E w0 edges filename comment_size text0 Hf Hw). simpl.
    rewrite lookup_insert_eq.
    set (header := take comment_size (Py.readlines text0)).
    set (skeleton := map (fun node => zero_record (repo_key E node)) edges).
    intros [= <- Hlines <-] Hloop.
    assert (Hlen_h : (length header <= comment_size)%nat)
      by (unfold header; rewrite length_take; lia).
    assert (Hlen_s : length skeleton = length edges) by (unfold skeleton; by rewrite length_map).
    assert (Hsk : Forall (fun l => full_line l = true) skeleton).
    { apply Forall_forall. intros l Hl.
      apply list_elem_of_fmap in Hl as (node & -> & _).
      apply full_line_zero_record, Hd. }
    assert (Hhd : lines_ok header = true) by apply lines_ok_take, lines_ok_readlines.
    assert (Hle : (length (Py.readlines (Py.text_of (header ++ skeleton)))
                   <= comment_size + length edges)%nat).
    { etrans; [apply readlines_text_of_le|rewrite length_app, Hlen_s; lia].
      apply Forall_app. split; [by apply lines_ok_Forall|].
      eapply Forall_impl; [exact Hsk|]. intros l. apply full_line_is_line. }
    split; [rewrite <- Hlines; apply lines_ok_readlines|].
    rewrite length_drop in *.
    assert (Hcases : (1 <= length edges)%nat \/ edges = [])
      by (destruct edges; [by right|left; simpl; lia]).
    destruct Hcases as [Hpos|Hnil].
    + rewrite Hlines in Hle. destruct Hloop as [Hloop| ->]; [|simpl in Hpos; lia].
      split; [|split; [|done]]; lia.
    + assert (Hsk_nil : skeleton = []) by (unfold skeleton; by rewrite Hnil).
      rewrite Hsk_nil, app_nil_r, readlines_text_of in Hlines by done.
      destruct Hcs as [Hcs|Hne]; [|done].
      assert (length header = comment_size) by (by apply length_take_le).
      subst lines edges. simpl. split; [|split; [|done]]; lia.
  - intros [= <- <- <-] _. split; [apply lines_ok_readlines|].
    unfold needs_flush in Hflush. apply orb_false_iff in Hflush as [Hflush _].
    apply negb_false_iff, Z.eqb_eq in Hflush. rewrite length_drop. lia.
Qed.

(** * The claims *)

(** C1. For an existing store: the rebuild test of [cache_builder] holds
    exactly when the line count minus [comment_size] differs from the
    number of repositories, or the rebuild is forced. For a store that
    holds at least [comment_size] lines this is: exactly when the number
    of stored record lines (the lines after the first [comment_size])
    differs from the number of repositories, or the rebuild is forced; a
    store with fewer lines is rebuilt on every run. Without a rebuild
    the pass runs on the store as read; with a rebuild, the new content
    is the first [comment_size] lines of the old text, unchanged,
    followed by one line per repository, in the order supplied, made of
    the digest of its name and 0 0 0 0; it is installed by the atomic
    write, no request has been posted by then, and the rest of
    [cache_builder] (the loop over the positions) runs on it. *)
Theorem C1_skeleton_rebuild (E : env) (fuel : nat) (w : world)
    (edges : list repo_edge) (comment_size : nat) (force_cache : bool) (text : string) :
  let filename := cache_filename E in
  let lines := Py.readlines text in
  let skeleton :=
    map (fun node => sha256_hex E (nameWithOwner node) +:+ " 0 0 0 0" +:+ nl) edges in
  files w !! filename = Some text ->
  (needs_flush lines comment_size edges force_cache = true <->
   Z.of_nat (length lines) - Z.of_nat comment_size <> Z.of_nat (length edges) \/
   force_cache = true) /\
  ((comment_size <= length lines)%nat ->
   (needs_flush lines comment_size edges force_cache = true <->
    length (drop comment_size lines) <> length edges \/ force_cache = true)) /\
  ((length lines < comment_size)%nat ->
   needs_flush lines comment_size edges force_cache = true) /\
  text = Py.text_of (take comment_size lines) +:+ Py.text_of (drop comment_size lines) /\
  (needs_flush lines comment_size edges force_cache = false ->
   cache_builder E fuel w edges comment_size force_cache =
   cache_builder_tail E fuel w filename comment_size edges true lines) /\
  (needs_flush lines comment_size edges force_cache = true ->
   can_write E (tmp_of filename) = true ->
   let new_text := Py.text_of (take comment_size lines) +:+ Py.text_of skeleton in
   let w1 := set_files w (<[filename := new_text]> (delete (tmp_of filename) (files w))) in
   flush_cache E w edges filename comment_size = (Ok (), w1) /\
   files w1 =
     (fs_run E (files w) (atomic_write filename (take comment_size lines ++ skeleton))).1 /\
   posts w1 = posts w /\ recursive_loc_calls w1 = recursive_loc_calls w /\
   cache_builder E fuel w edges comment_size force_cache =
   cache_builder_tail E fuel w1 filename comment_size edges false (Py.readlines new_text)).
Proof.
  intros filename lines skeleton Hf.
  split.
  { unfold needs_flush. rewrite orb_true_iff, negb_true_iff, Z.eqb_neq. done. }
  split.
  { intros Hcs. unfold needs_flush.
    rewrite orb_true_iff, negb_true_iff, Z.eqb_neq, length_drop. split.
    - intros [Hne|Hforce]; [left; lia|by right].
    - intros [Hne|Hforce]; [left; lia|by right]. }
  split.
  { intros Hshort. unfold needs_flush. apply orb_true_iff. left.
    apply negb_true_iff, Z.eqb_neq. lia. }
  split.
  { rewrite <- text_of_app, take_drop. unfold lines. by rewrite text_of_readlines. }
  split.
  - intros Hno. unfold cache_builder, load_cache. fold filename. rewrite Hf.
    unfold reconcile. fold lines. by rewrite Hno.
  - intros Hyes Hw new_text w1.
    assert (Hflush : flush_cache E w edges filename comment_size = (Ok (), w1)).
    { rewrite (flush_cache_ok E w edges filename comment_size text Hf Hw).
      unfold w1, new_text. by rewrite text_of_app. }
    split; [exact Hflush|]. split; [|split; [done|split; [done|]]].
    + rewrite fs_run_atomic_write by done. simpl. by rewrite text_of_app.
    + unfold cache_builder, load_cache. fold filename. rewrite Hf.
      unfold reconcile. fold lines. rewrite Hyes, Hflush.
      unfold w1 at 1. simpl. by rewrite lookup_insert_eq.
Qed.

Lemma C1_skeleton_rebuild_witness :
  let header := "# header" +:+ nl in
  let text := header +:+ "stale 9 9 9 9" +:+ nl in
  let w := demo_world {[ cache_filename demo_env := text ]} in
  needs_flush (Py.readlines text) 1 [demo_repo; demo_empty_repo] false = true /\
  (flush_cache demo_env w [demo_repo; demo_empty_repo] (cache_filename demo_env) 1).2 =
  set_files w
    (<[cache_filename demo_env :=
         header +:+ "r7 0 0 0 0" +:+ nl +:+ "r8 0 0 0 0" +:+ nl]>
       (delete (tmp_of (cache_filename demo_env)) (files w))).
Proof.
  intros header text w.
  assert (Hflush : needs_flush (Py.readlines text) 1 [demo_repo; demo_empty_repo] false = true)
    by reflexivity.
  split; [exact Hflush|].
  destruct (C1_skeleton_rebuild demo_env 5 w [demo_repo; demo_empty_repo] 1 false text
              eq_refl) as (_ & _ & _ & _ & _ & Hrebuild).
  destruct (Hrebuild Hflush eq_refl) as (-> & _).
  reflexivity.
Defined.

(** A store of one header line, where seven are expected, and no
    repository: the number of record lines is the number of
    repositories, and the run rebuilds all the same. *)
Lemma C1_short_header_rebuilds :
  let text := "# header" +:+ nl in
  let w := demo_world {[ cache_filename demo_env := text ]} in
  length (drop 7 (Py.readlines text)) = length (@nil repo_edge) /\
  needs_flush (Py.readlines text) 7 [] false = true /\
  exists w1, cache_builder demo_env 5 w [] 7 false = Some (Ok (0, 0, 0, false), w1).
Proof.
  intros text w. split; [reflexivity|]. split; [reflexivity|].
  eexists. vm_compute. reflexivity.
Qed.



(** C3, as the code has it. A position whose record line has at least two
    fields and whose stored key differs from the key of the supplied
    repository is skipped: the records and the world are left as they
    are, the pass goes on with the next position, and the line is the
    same at the end of the pass. A record line with fewer than two
    fields is not skipped: the unpacking of its fields raises
    [ValueError], which ends the loop there. *)
Theorem C3_key_mismatch_skipped (E : env) (fuel : nat) (cc : list string)
    (edges : list repo_edge) (i : nat) (edge : repo_edge) :
  edges !! i = Some edge ->
  (forall line h c rest,
     Py.split line = h :: c :: rest -> h <> repo_key E edge ->
     (forall w data, data !! i = Some line ->
        update_index E fuel w cc data i edge = Some (Ok data, w)) /\
     (forall w data later, data !! i = Some line ->
        update_from E fuel w cc data i (edge :: later) =
        update_from E fuel w cc data (S i) later) /\
     (forall w data data' w',
        data !! i = Some line ->
        update_from E fuel w cc data 0 edges = Some (Ok data', w') ->
        data' !! i = Some line)) /\
  (forall line w data later,
     data !! i = Some line -> (length (Py.split line) < 2)%nat ->
     update_index E fuel w cc data i edge = Some (Raise ValueError, w) /\
     update_from E fuel w cc data i (edge :: later) = Some (Raise ValueError, w)).
Proof.
  intros Hi. split.
  - intros line h c rest Hs Hk.
    assert (Hstep : forall w data, data !! i = Some line ->
              update_index E fuel w cc data i edge = Some (Ok data, w))
      by (intros w data Hl; by eapply update_index_mismatch).
    split; [exact Hstep|]. split.
    + intros w data later Hl. by rewrite update_from_cons, Hstep.
    + intros w data data' w' Hl Hrun.
      destruct (update_from_at E _ _ _ _ _ _ _ _ _ Hi Hrun)
        as (w_i & data_i & w_i' & data_i' & _ & Hsame & Hupd & Hend).
      rewrite Hstep in Hupd by congruence. injection Hupd as <- <-. congruence.
  - intros line w data later Hl Hlen.
    pose proof (update_index_malformed E fuel w cc data i edge line Hl Hlen) as Hstep.
    split; [exact Hstep|]. by rewrite update_from_cons, Hstep.
Qed.

Lemma C3_key_mismatch_skipped_witness :
  let data := ["other 3 1 10 2" +:+ nl] in
  update_index demo_env 5 (demo_world ∅) [] data 0 demo_repo =
  Some (Ok data, demo_world ∅).
Proof.
  intros data.
  apply (proj1 (proj1 (C3_key_mismatch_skipped demo_env 5 [] [demo_repo] 0 demo_repo eq_refl)
                  ("other 3 1 10 2" +:+ nl) "other" "3" ["1"; "10"; "2"]
                  eq_refl ltac:(discriminate))).
  reflexivity.
Defined.

(** C3 as stated fails: the record line at position 0 holds the key alone
    (one field), the store has one line per repository and no rebuild is
    forced; the pass raises [ValueError] at that position instead of
    skipping it, the second position is never processed and nothing is
    written. *)
Lemma C3_malformed_line_raises :
  let w := demo_world {[ cache_filename demo_env :=
                           "r7" +:+ nl +:+ "r8 5 0 0 0" +:+ nl ]} in
  Py.split ("r7" +:+ nl) = ["r7"] /\
  cache_builder demo_env 5 w [demo_repo; demo_empty_repo] 0 false =
  Some (Raise ValueError, w).
Proof. split; vm_compute; reflexivity. Qed.

(** C4. A non-retryable error during the walk of the repository at
    position [k] (a 403, an unexpected status, or four failed attempts on
    network or 5xx errors, on any page of the walk): [cache_builder]
    raises [RuntimeError]; the files are those the crash guard leaves
    when called with the header and the records as they stood after the
    positions before [k]; the record of position [k] among them is still
    the one read from the store, whatever had been summed; where the
    temporary file can be written the canonical file holds exactly that
    header and those records. *)
Theorem C4_fatal_error_aborts_pass (E : env) (fuel : nat) (w : world)
    (edges : list repo_edge) (comment_size : nat) (force_cache : bool)
    (data0 : list string) (w0 : world) (cached : bool) (lines : list string) (w1 : world)
    (k : nat) (edge : repo_edge) (data_k : list string) (w_k : world)
    (line h c : string) (rest : list string) (n total : Z)
    (owner repo_name : string) (pages : nat) :
  load_cache E w (cache_filename E) comment_size = (Ok data0, w0) ->
  reconcile E w0 (cache_filename E) comment_size force_cache edges data0 =
    (Ok (cached, lines), w1) ->
  edges !! k = Some edge ->
  update_from E fuel w1 (take comment_size lines) (drop comment_size lines) 0 (take k edges) =
    Some (Ok data_k, w_k) ->
  data_k !! k = Some line -> Py.split line = h :: c :: rest ->
  h = repo_key E edge -> Py.int c = Some n ->
  defaultBranchRef edge = Some total -> n <> total ->
  Py.split_on "/" (nameWithOwner edge) = [owner; repo_name] ->
  walk_aborts E owner repo_name pages (posts w_k) None -> (pages <= fuel)%nat ->
  exists w',
    cache_builder E fuel w edges comment_size force_cache = Some (Raise RuntimeError, w') /\
    files w' = files (force_close_file E w_k data_k (take comment_size lines)) /\
    data_k !! k = drop comment_size lines !! k /\
    (can_write E (tmp_of (cache_filename E)) = true ->
     files w' !! cache_filename E = Some (Py.text_of (take comment_size lines ++ data_k))).
Proof.
  intros Hload Hrec Hk Hprefix Hl Hs Hkey Hn Hb Hne Hso Hwalk Hfuel.
  destruct (walk_aborts_raises E owner repo_name data_k (take comment_size lines)
              pages (posts w_k) None Hwalk fuel w_k 0 0 0 Hfuel eq_refl)
    as (w' & Hraise & Hfiles).
  exists w'. split; [|split; [exact Hfiles|split]].
  - unfold cache_builder. rewrite Hload, Hrec. unfold cache_builder_tail.
    pose proof (lookup_lt_Some _ _ _ Hk) as Hlt.
    rewrite <- (take_drop_middle edges k edge Hk), update_from_app, Hprefix.
    rewrite length_take, Nat.min_l, Nat.add_0_l by lia.
    rewrite update_from_cons.
    rewrite (update_index_stale E _ _ _ _ _ _ line h c rest n total owner repo_name)
      by done.
    by rewrite Hraise.
  - apply (update_from_frame_above E _ _ _ _ _ _ _ _ Hprefix).
    rewrite length_take. lia.
  - intros Hw. rewrite Hfiles, force_close_file_saved by done.
    apply lookup_insert_eq.
Qed.

Lemma C4_fatal_error_aborts_pass_witness :
  exists w',
    cache_builder demo_env 5 (demo_world ∅) [demo_repo; demo_gone_repo] 1 false =
      Some (Raise RuntimeError, w') /\
    files w' !! cache_filename demo_env =
      Some (comment_line +:+ "r7 3 1 10 2" +:+ nl +:+ "r9 0 0 0 0" +:+ nl).
Proof.
  destruct (C4_fatal_error_aborts_pass demo_env 5 (demo_world ∅)
              [demo_repo; demo_gone_repo] 1 false
              [comment_line]
              (demo_world {[ cache_filename demo_env := comment_line ]})
              false
              [comment_line; "r7 0 0 0 0" +:+ nl; "r9 0 0 0 0" +:+ nl]
              (demo_world {[ cache_filename demo_env :=
                               comment_line +:+ "r7 0 0 0 0" +:+ nl +:+ "r9 0 0 0 0" +:+ nl ]})
              1 demo_gone_repo
              ["r7 3 1 10 2" +:+ nl; "r9 0 0 0 0" +:+ nl]
              {| files := {[ cache_filename demo_env :=
                               comment_line +:+ "r7 0 0 0 0" +:+ nl +:+ "r9 0 0 0 0" +:+ nl ]};
                 posts := 1; recursive_loc_calls := 1 |}
              ("r9 0 0 0 0" +:+ nl) "r9" "0" ["0"; "0"; "0"] 0 5 "team" "gone" 1)
    as (w' & Hrun & _ & _ & Hsaved).
  - vm_compute. reflexivity.
  - vm_compute. reflexivity.
  - reflexivity.
  - vm_compute. reflexivity.
  - reflexivity.
  - reflexivity.
  - reflexivity.
  - reflexivity.
  - reflexivity.
  - discriminate.
  - reflexivity.
  - apply walk_aborts_here with (k := 0%nat).
    split; [lia|]. split; [intros j Hj; lia|]. left. reflexivity.
  - lia.
  - exists w'. split; [exact Hrun|]. rewrite (Hsaved eq_refl). reflexivity.
Defined.

(** C5. Cache hit: where the stored key matches the repository's key and
    the stored total commit count equals the fetched one, processing the
    position returns the records as they are and leaves the world as it
    is (no request is posted, [recursive_loc] is not called), and the
    record is the same at the end of the pass. *)
Theorem C5_cache_hit_unchanged (E : env) (fuel : nat) (cc : list string)
    (edges : list repo_edge) (i : nat) (edge : repo_edge)
    (line h c : string) (rest : list string) (n : Z) :
  edges !! i = Some edge ->
  Py.split line = h :: c :: rest -> h = repo_key E edge ->
  Py.int c = Some n -> defaultBranchRef edge = Some n ->
  (forall w data, data !! i = Some line ->
     update_index E fuel w cc data i edge = Some (Ok data, w)) /\
  (forall w data data' w',
     data !! i = Some line ->
     update_from E fuel w cc data 0 edges = Some (Ok data', w') ->
     data' !! i = Some line).
Proof.
  intros Hi Hs Hk Hn Hb.
  assert (Hstep : forall w data, data !! i = Some line ->
            update_index E fuel w cc data i edge = Some (Ok data, w))
    by (intros w data Hl; by eapply update_index_hit).
  split; [exact Hstep|].
  intros w data data' w' Hl Hrun.
  destruct (update_from_at E _ _ _ _ _ _ _ _ _ Hi Hrun)
    as (w_i & data_i & w_i' & data_i' & _ & Hsame & Hupd & Hend).
  rewrite Hstep in Hupd by congruence. injection Hupd as <- <-. congruence.
Qed.

Lemma C5_cache_hit_unchanged_witness :
  let data := ["r7 3 1 10 2" +:+ nl] in
  update_index demo_env 5 (demo_world ∅) [] data 0 demo_repo =
  Some (Ok data, demo_world ∅).
Proof.
  intros data.
  apply (proj1 (C5_cache_hit_unchanged demo_env 5 [] [demo_repo] 0 demo_repo
                  ("r7 3 1 10 2" +:+ nl) "r7" "3" ["1"; "10"; "2"] 3
                  eq_refl eq_refl eq_refl eq_refl eq_refl)).
  reflexivity.
Defined.

(** C6, as the code has it. A repository without a default branch, at a
    position whose record line is well-formed (at least two fields, an
    integer count) and keyed by it: when the listing reports no default
    branch, the record becomes the key followed by 0 0 0 0, no exception
    is raised and no request is posted; when the first answer of the walk
    reports it, the record becomes the same after exactly that one
    request; the fields of the new record read as 0; and the record is
    still all-zero at the end of the pass. (Without the conditions on
    the record line the claim fails: a record keyed by another
    repository is left as it is, and a count field that is not an
    integer raises [ValueError].) *)
Theorem C6_branchless_zero_record (E : env) (fuel : nat) (cc : list string)
    (i : nat) (edge : repo_edge) (line h c : string) (rest : list string) (n : Z) :
  Py.split line = h :: c :: rest -> h = repo_key E edge -> Py.int c = Some n ->
  (defaultBranchRef edge = None ->
     forall w data, data !! i = Some line ->
       update_index E fuel w cc data i edge =
       Some (Ok (<[i := zero_record h]> data), w)) /\
  (forall total owner repo_name w data,
     defaultBranchRef edge = Some total -> n <> total ->
     Py.split_on "/" (nameWithOwner edge) = [owner; repo_name] ->
     data !! i = Some line ->
     remote E (posts w) owner repo_name None = Response 200 None ->
     update_index E (S fuel) w cc data i edge =
     Some (Ok (<[i := zero_record h]> data), tick (query_count w))) /\
  (Py.split (zero_record h) = [h; "0"; "0"; "0"; "0"] /\ Py.int "0" = Some 0) /\
  (defaultBranchRef edge = None ->
     forall edges w data data' w',
       edges !! i = Some edge -> data !! i = Some line ->
       update_from E fuel w cc data 0 edges = Some (Ok data', w') ->
       data' !! i = Some (zero_record h)).
Proof.
  intros Hs Hk Hn.
  assert (Hstep : defaultBranchRef edge = None ->
            forall w data, data !! i = Some line ->
              update_index E fuel w cc data i edge =
              Some (Ok (<[i := zero_record h]> data), w))
    by (intros Hb w data Hl; by eapply update_index_branchless).
  split; [exact Hstep|]. split; [|split].
  - intros total owner repo_name w data Hb Hne Hso Hl Hr.
    rewrite (update_index_stale E _ _ _ _ _ _ line h c rest n total owner repo_name)
      by done.
    rewrite recursive_loc_S, (attempt_ok E _ _ _ _ _ _ _ _ _ None) by done.
    done.
  - split; [|done]. apply split_zero_record. by eapply split_hd_token.
  - intros Hb edges w data data' w' Hi Hl Hrun.
    destruct (update_from_at E _ _ _ _ _ _ _ _ _ Hi Hrun)
      as (w_i & data_i & w_i' & data_i' & _ & Hsame & Hupd & Hend).
    rewrite (Hstep Hb) in Hupd by congruence. injection Hupd as <- <-.
    rewrite Hend. apply list_lookup_insert_eq.
    apply lookup_lt_Some with (x := line). congruence.
Qed.

Lemma C6_branchless_zero_record_witness :
  let data := ["r7 3 1 10 2" +:+ nl; "r8 4 1 1 1" +:+ nl] in
  update_index demo_env 5 (demo_world ∅) [] data 1 demo_empty_repo =
  Some (Ok (<[1%nat := zero_record "r8"]> data), demo_world ∅).
Proof.
  intros data.
  apply (proj1 (C6_branchless_zero_record demo_env 5 [] 1 demo_empty_repo
                  ("r8 4 1 1 1" +:+ nl) "r8" "4" ["1"; "1"; "1"] 4
                  eq_refl eq_refl eq_refl) eq_refl).
  reflexivity.
Defined.

(** C6 as stated fails. The repository has no default branch, and: (1)
    the record at its position is keyed by another repository: the pass
    returns, the record is left as it was and is not all-zero; (2) the
    record is keyed by the repository but its count field is not an
    integer: the pass raises [ValueError]. *)
Lemma C6_unmatched_or_malformed_record :
  let f := cache_filename demo_env in
  (exists w',
     cache_builder demo_env 5 (demo_world {[ f := "other 4 1 1 1" +:+ nl ]})
       [demo_empty_repo] 0 false = Some (Ok (1, 1, 0, true), w') /\
     files w' !! f = Some ("other 4 1 1 1" +:+ nl)) /\
  cache_builder demo_env 5 (demo_world {[ f := "r8 x 1 1 1" +:+ nl ]})
    [demo_empty_repo] 0 false =
  Some (Raise ValueError, demo_world {[ f := "r8 x 1 1 1" +:+ nl ]}).
Proof.
  intros f. split.
  - eexists. split; vm_compute; reflexivity.
  - vm_compute. reflexivity.
Qed.

(** C7. Idempotence. The remote is stationary (it answers a request the
    same way whenever it is posted) and a first run of [cache_builder]
    returned, on a list of at least one repository, or on a cache file
    that was absent or had its [comment_size] header lines. Then a
    second run on the same repositories, without a forced rebuild,
    returns too, with the same totals and [cached = true], and leaves
    every file (so every stored record) as the first run left it. *)
Theorem C7_sync_idempotent (E : env) (fuel : nat) (w : world)
    (edges : list repo_edge) (comment_size : nat) (force_cache : bool)
    (loc_add loc_del loc_net : Z) (cached : bool) (w1 : world) :
  stationary E -> digest_is_token E ->
  (edges <> [] \/
   files w !! cache_filename E = None \/
   exists text, files w !! cache_filename E = Some text /\
     (comment_size <= length (Py.readlines text))%nat) ->
  cache_builder E fuel w edges comment_size force_cache =
    Some (Ok (loc_add, loc_del, loc_net, cached), w1) ->
  exists w2,
    cache_builder E fuel w1 edges comment_size false =
      Some (Ok (loc_add, loc_del, loc_net, true), w2) /\
    files w2 = files w1.
Proof.
  intros Hst Hd Hstore Hrun.
  unfold cache_builder in Hrun.
  set (filename := cache_filename E) in *.
  destruct (load_cache E w filename comment_size) as [[data0|e] w0] eqn:Hload; [|done].
  assert (exists text0, files w0 !! filename = Some text0 /\ Py.readlines text0 = data0 /\
            ((comment_size <= length data0)%nat \/ edges <> []))
    as (text0 & Hf0 & Hread0 & Hcs0).
  { destruct Hstore as [Hne|Hstore].
    - destruct (load_cache_Ok_file E w filename comment_size data0 w0 Hload)
        as (text0 & Hf0 & Hread0).
      exists text0. auto.
    - destruct (load_cache_Ok_inv E w filename comment_size data0 w0 Hstore Hload)
        as (text0 & Hf0 & Hread0 & Hcs0 & _).
      exists text0. auto. }
  subst data0.
  destruct (reconcile E w0 filename comment_size force_cache edges (Py.readlines text0))
    as [[[cached0 lines]|e] wr] eqn:Hrec; [|done].
  unfold cache_builder_tail in Hrun.
  destruct (update_from E fuel wr (take comment_size lines) (drop comment_size lines) 0 edges)
    as [[[dataF|e] wF]|] eqn:Hloop; [|done|done].
  destruct (can_write E (tmp_of filename)) eqn:Hw.
  2:{ by rewrite fs_run_atomic_write_denied in Hrun. }
  rewrite fs_run_atomic_write in Hrun by done.
  destruct (sum_loc dataF 0 0) as [[a d]|e] eqn:Hsum; [|done].
  injection Hrun as <- <- <- <- <-.
  destruct (reconcile_Ok_inv E w0 filename comment_size force_cache edges text0
              cached0 lines wr Hd Hf0 Hcs0 Hrec) as (Hok & Hcs & Hlen & _).
  { apply update_from_length in Hloop. destruct Hloop as [Hloop|Hnil]; [left; lia|by right]. }
  pose proof (update_from_frame E _ _ _ _ _ _ _ _ Hloop) as (HlenF & HfilesF & _).
  assert (HokF : lines_ok (take comment_size lines ++ dataF) = true).
  { eapply update_from_lines_ok; [exact Hloop|]. by rewrite take_drop. }
  assert (Hlen_h : length (take comment_size lines) = comment_size)
    by (by apply length_take_le).
  set (T := Py.text_of (take comment_size lines ++ dataF)) in *.
  set (w1 := set_files wF (<[filename := T]> (delete (tmp_of filename) (files wF)))).
  destruct (update_from_idem E fuel edges wr (take comment_size lines)
              (drop comment_size lines) 0 dataF wF Hst Hloop
              w1 (take comment_size lines) dataF) as (w2 & Hloop2 & Hfiles2); [done|].
  exists (set_files w2 (<[filename := T]> (delete (tmp_of filename) (files w2)))).
  split.
  - unfold cache_builder, load_cache. fold filename.
    assert (Hlook : files w1 !! filename = Some T) by (simpl; apply lookup_insert_eq).
    rewrite Hlook. unfold T at 1 2. rewrite readlines_text_of by done.
    unfold reconcile.
    assert (needs_flush (take comment_size lines ++ dataF) comment_size edges false = false)
      as ->.
    { unfold needs_flush. rewrite orb_false_r, negb_false_iff, Z.eqb_eq, length_app.
      lia. }
    unfold cache_builder_tail.
    rewrite take_app_length', drop_app_length' by done.
    rewrite Hloop2, fs_run_atomic_write by done.
    by rewrite Hsum.
  - simpl. rewrite Hfiles2. simpl.
    rewrite delete_insert_ne by apply tmp_of_ne.
    by rewrite delete_delete_eq, insert_insert_eq.
Qed.

Lemma C7_sync_idempotent_witness :
  exists w2,
    cache_builder demo_env 5 demo_after_first_run [demo_repo; demo_empty_repo] 2 false =
      Some (Ok (10, 2, 8, true), w2) /\
    files w2 = files demo_after_first_run.
Proof.
  apply (C7_sync_idempotent demo_env 5 (demo_world ∅) [demo_repo; demo_empty_repo] 2 false
           10 2 8 false demo_after_first_run).
  - intros t t' owner repo_name cursor. reflexivity.
  - apply demo_digest_token.
  - right. left. reflexivity.
  - vm_compute. reflexivity.
Defined.

(** An empty cache file, where one header line is expected, and no
    repository: every run rebuilds, so that the second run returns
    [cached = false] as the first did, with the remote and the files
    unchanged. *)
Lemma C7_short_header_never_cached :
  let w := demo_world {[ cache_filename demo_env := "" ]} in
  stationary demo_env /\
  exists w1 w2,
    cache_builder demo_env 5 w [] 1 false = Some (Ok (0, 0, 0, false), w1) /\
    cache_builder demo_env 5 w1 [] 1 false = Some (Ok (0, 0, 0, false), w2) /\
    files w2 = files w1.
Proof.
  intros w. split; [intros t t' owner repo_name cursor; reflexivity|].
  eexists _, _. split; [vm_compute; reflexivity|].
  split; [vm_compute; reflexivity|]. vm_compute. reflexivity.
Qed.

(** C8. Monotonicity. The stored record of a repository holds the total
    commit count [total_old] and the counts of the authored commits among
    [old_commits], the commits that the repository had at the prior run.
    The listing now reports a larger total, and the walk is served pages
    whose commits contain [old_commits] (as a multiset), with
    non-negative additions and deletions. Then the position is
    recomputed: the record written holds the new total and counts that
    are each at least the stored ones. *)
Theorem C8_recomputed_counts_monotone (E : env) (fuel : nat) (w : world)
    (cc data : list string) (i : nat) (edge : repo_edge)
    (old_commits : list commit_node) (hs : list history)
    (total_old total_new : Z) (owner repo_name : string) :
  let id := OWNER_ID E in
  let h := repo_key E edge in
  let m := Z.of_nat (length (authored_by id old_commits)) in
  let a := sum_field additions (authored_by id old_commits) in
  let d := sum_field deletions (authored_by id old_commits) in
  is_token h = true ->
  data !! i = Some (format_record h total_old m a d) ->
  defaultBranchRef edge = Some total_new -> total_old < total_new ->
  Py.split_on "/" (nameWithOwner edge) = [owner; repo_name] ->
  walk_serves E owner repo_name (posts w) None hs -> (length hs <= fuel)%nat ->
  old_commits ⊆+ commits_of hs ->
  Forall (fun node => 0 <= additions node /\ 0 <= deletions node) (commits_of hs) ->
  exists m' a' d' w',
    update_index E fuel w cc data i edge =
      Some (Ok (<[i := format_record h total_new m' a' d']> data), w') /\
    m' = Z.of_nat (length (authored_by id (commits_of hs))) /\
    a' = sum_field additions (authored_by id (commits_of hs)) /\
    d' = sum_field deletions (authored_by id (commits_of hs)) /\
    m <= m' /\ a <= a' /\ d <= d'.
Proof.
  intros id h m a d Hh Hl Hb Hlt Hso Hwalk Hfuel Hsub Hnn.
  destruct (walk_serves_result E owner repo_name data cc (posts w) None hs Hwalk
              fuel w 0 0 0 Hfuel eq_refl) as (w' & Hrun & _).
  destruct (totals_mono id old_commits (commits_of hs) Hsub Hnn) as (Ha & Hd & Hm).
  eexists _, _, _, w'. split; [|split; [reflexivity|split; [reflexivity|split; [reflexivity|]]]].
  - rewrite (update_index_stale E _ _ _ _ _ _ _ h (Py.str total_old)
               [Py.str m; Py.str a; Py.str d] total_old total_new owner repo_name Hl);
      [|by apply split_format_record|done|apply int_str|done|lia|done].
    rewrite Hrun. simpl. rewrite !Z.add_0_l. reflexivity.
  - done.
Qed.

Lemma C8_recomputed_counts_monotone_witness :
  exists m' a' d' w',
    update_index demo_env 5 (demo_world ∅) [] ["r7 1 1 10 2" +:+ nl] 0 demo_repo =
      Some (Ok (<[0%nat := format_record "r7" 3 m' a' d']> ["r7 1 1 10 2" +:+ nl]), w') /\
    1 <= m' /\ 10 <= a' /\ 2 <= d'.
Proof.
  destruct (C8_recomputed_counts_monotone demo_env 5 (demo_world ∅) [] ["r7 1 1 10 2" +:+ nl]
              0 demo_repo
              [ {| author_user := Some "me"; additions := 10; deletions := 2 |} ]
              [demo_history] 1 3 "me" "repo")
    as (m' & a' & d' & w' & Hrun & _ & _ & _ & Hm & Ha & Hd).
  - reflexivity.
  - reflexivity.
  - reflexivity.
  - lia.
  - reflexivity.
  - apply walk_serves_last with (k := 0%nat).
    + split; [lia|]. split; [intros j Hj; lia|reflexivity].
    + by right.
  - simpl. lia.
  - apply sublist_submseteq. repeat constructor.
  - repeat constructor; simpl; lia.
  - exists m', a', d', w'. split; [exact Hrun|]. done.
Defined.

(** C9. The three persistence paths (the write at the end of a pass, the
    skeleton rebuild, the first path of the crash guard) all run the
    sequence [atomic_write]: the temporary file named after the canonical
    one is created, the header and the records are written to it, and it
    is renamed onto the canonical file. Whatever prefix of that sequence
    was carried out (a crash or a failing step at any point), the
    canonical file holds its old content or the whole new content; when
    the temporary file can be written the run ends with the new content
    installed. *)
Theorem C9_atomic_persistence (E : env) (filename : string) (new : list string)
    (fs : gmap string string) :
  atomic_write filename new =
    Create (filename +:+ ".tmp") :: map (Append (filename +:+ ".tmp")) new
      ++ [Replace (filename +:+ ".tmp") filename] /\
  (forall ops, ops `prefix_of` atomic_write filename new ->
     (fs_run E fs ops).1 !! filename = fs !! filename \/
     (fs_run E fs ops).1 !! filename = Some (Py.text_of new)) /\
  (can_write E (filename +:+ ".tmp") = true ->
     fs_run E fs (atomic_write filename new) =
     (<[filename := Py.text_of new]> (delete (filename +:+ ".tmp") fs), true)) /\
  (forall w edges comment_size text,
     files w !! filename = Some text ->
     flush_cache E w edges filename comment_size =
     let r := fs_run E (files w)
                (atomic_write filename
                   ((if (0 <? comment_size)%nat
                     then take comment_size (Py.readlines text) else [])
                    ++ map (fun node => zero_record (repo_key E node)) edges)) in
     (if r.2 then Ok () else Raise OSError, set_files w r.1)) /\
  (forall w data cache_comment,
     (fs_run E (files w) (atomic_write (cache_filename E) (cache_comment ++ data))).2 = true ->
     force_close_file E w data cache_comment =
     set_files w
       (fs_run E (files w) (atomic_write (cache_filename E) (cache_comment ++ data))).1) /\
  (forall fuel w comment_size edges cached lines data' w1,
     update_from E fuel w (take comment_size lines) (drop comment_size lines) 0 edges =
       Some (Ok data', w1) ->
     exists r,
       cache_builder_tail E fuel w filename comment_size edges cached lines =
       Some (r, set_files w1
                  (fs_run E (files w1)
                     (atomic_write filename (take comment_size lines ++ data'))).1)).
Proof.
  split; [reflexivity|]. split; [intros ops; apply atomic_write_prefix|].
  split; [apply fs_run_atomic_write|]. split; [|split].
  - intros w edges comment_size text Hf. unfold flush_cache. rewrite Hf.
    by destruct (fs_run E (files w) _) as [fs' []].
  - intros w data cache_comment. unfold force_close_file.
    by destruct (fs_run E (files w) _) as [fs' []].
  - intros fuel w comment_size edges cached lines data' w1 Hrun.
    unfold cache_builder_tail. rewrite Hrun.
    destruct (fs_run E (files w1) _) as [fs' []]; simpl; [|by eexists].
    destruct (sum_loc data' 0 0) as [[a d]|e]; by eexists.
Qed.

Lemma C9_atomic_persistence_witness :
  let fs : gmap string string := {[ "f" := "old" ]} in
  let ops := [Create "f.tmp"; Append "f.tmp" "x"] in
  (fs_run demo_env fs ops).1 !! "f" = fs !! "f" \/
  (fs_run demo_env fs ops).1 !! "f" = Some (Py.text_of ["x"; "y"]).
Proof.
  intros fs ops.
  apply (proj1 (proj2 (C9_atomic_persistence demo_env "f" ["x"; "y"] fs))).
  exists [Append "f.tmp" "y"; Replace "f.tmp" "f"]. reflexivity.
Defined.

(** C10, as the code has it. The cache file is absent, or holds at least
    [comment_size] lines of which the first [comment_size] end in a
    newline. Then a store returned by the loading and rebuild steps has
    exactly one record line per repository: every position below the
    repository count holds a line, and the loop over the positions never
    raises [IndexError]; and where the files can be opened for writing
    the two steps do return. (With a header line that does not end in a
    newline the claim fails: the first record is written onto that
    line.) *)
Theorem C10_positions_in_range (E : env) (w : world) (edges : list repo_edge)
    (comment_size : nat) (force_cache : bool) :
  let filename := cache_filename E in
  digest_is_token E ->
  (files w !! filename = None \/
   exists text, files w !! filename = Some text /\
     (comment_size <= length (Py.readlines text))%nat /\
     Forall (fun l => full_line l = true) (take comment_size (Py.readlines text))) ->
  (forall data0 w0 cached lines w1,
     load_cache E w filename comment_size = (Ok data0, w0) ->
     reconcile E w0 filename comment_size force_cache edges data0 = (Ok (cached, lines), w1) ->
     length (drop comment_size lines) = length edges /\
     (forall i, (i < length edges)%nat -> is_Some (drop comment_size lines !! i)) /\
     (forall fuel w' cc r,
        update_from E fuel w' cc (drop comment_size lines) 0 edges <>
        Some (Raise IndexError, r))) /\
  (can_write E filename = true -> can_write E (tmp_of filename) = true ->
   exists data0 w0 cached lines w1,
     load_cache E w filename comment_size = (Ok data0, w0) /\
     reconcile E w0 filename comment_size force_cache edges data0 = (Ok (cached, lines), w1)).
Proof.
  intros filename Hd Hstore.
  assert (Hloaded : forall data0 w0,
            load_cache E w filename comment_size = (Ok data0, w0) ->
            exists text0, files w0 !! filename = Some text0 /\
              Py.readlines text0 = data0 /\
              (comment_size <= length data0)%nat /\
              Forall (fun l => full_line l = true) (take comment_size data0)).
  { intros data0 w0 Hload.
    destruct (load_cache_Ok_inv E w filename comment_size data0 w0) as (text0 & Hf0 & Hr0 & Hcs0 & _).
    - destruct Hstore as [Hnone|(text & Hf & Hcs & _)]; [by left|right; eauto].
    - exact Hload.
    - exists text0. split; [done|]. split; [done|]. split; [done|].
      destruct Hstore as [Hnone|(text & Hf & Hcs & Hfull)].
      + unfold load_cache in Hload. rewrite Hnone in Hload.
        destruct (fs_run E (files w) _) as [fs' []]; [|done].
        injection Hload as <- _. destruct comment_size; [done|].
        apply Forall_take, Forall_replicate, full_line_comment_line.
      + unfold load_cache in Hload. rewrite Hf in Hload. by injection Hload as <- _. }
  split.
  - intros data0 w0 cached lines w1 Hload Hrec.
    destruct (Hloaded data0 w0 Hload) as (text0 & Hf0 & <- & Hcs0 & Hfull0).
    pose proof (reconcile_in_range_inv E w0 edges comment_size force_cache text0
                  cached lines w1 Hd Hf0 Hcs0 Hfull0 Hrec) as Hlen.
    split; [done|]. split.
    + intros i Hi. apply lookup_lt_is_Some. lia.
    + intros fuel w' cc r. apply update_from_in_range. lia.
  - intros Hwf Hwt.
    assert (exists data0 w0, load_cache E w filename comment_size = (Ok data0, w0))
      as (data0 & w0 & Hload).
    { unfold load_cache. destruct Hstore as [Hnone|(text & Hf & _)].
      - rewrite Hnone, fs_run_write_file by done. eauto.
      - rewrite Hf. eauto. }
    destruct (Hloaded data0 w0 Hload) as (text0 & Hf0 & <- & Hcs0 & Hfull0).
    destruct (reconcile_in_range E w0 edges comment_size force_cache text0 Hd Hwt Hf0 Hcs0 Hfull0)
      as (cached & lines & w1 & Hrec & _).
    by exists (Py.readlines text0), w0, cached, lines, w1.
Qed.

Lemma C10_positions_in_range_witness :
  exists data0 w0 cached lines w1,
    load_cache demo_env (demo_world ∅) (cache_filename demo_env) 2 = (Ok data0, w0) /\
    reconcile demo_env w0 (cache_filename demo_env) 2 false [demo_repo; demo_empty_repo] data0 =
      (Ok (cached, lines), w1) /\
    length (drop 2 lines) = length [demo_repo; demo_empty_repo].
Proof.
  destruct (C10_positions_in_range demo_env (demo_world ∅) [demo_repo; demo_empty_repo] 2 false
              demo_digest_token) as [Hsafe Hreturns]; [left; reflexivity|].
  destruct (Hreturns eq_refl eq_refl) as (data0 & w0 & cached & lines & w1 & Hload & Hrec).
  exists data0, w0, cached, lines, w1. split; [exact Hload|]. split; [exact Hrec|].
  exact (proj1 (Hsafe data0 w0 cached lines w1 Hload Hrec)).
Defined.

(** C10 as stated fails: the cache file holds one line, which is the
    whole header ([comment_size] is 1) and does not end in a newline; the
    rebuild writes the record of the one repository onto that same line,
    the store read back has no record line, and the access to position 0
    raises [IndexError]. *)
Lemma C10_unterminated_header_out_of_range :
  let w := demo_world {[ cache_filename demo_env := "header" ]} in
  (1 <= length (Py.readlines "header"))%nat /\
  (exists w0 w1, 
     load_cache demo_env w (cache_filename demo_env) 1 = (Ok ["header"], w0) /\
     reconcile demo_env w0 (cache_filename demo_env) 1 false [demo_repo] ["header"] =
       (Ok (false, ["headerr7 0 0 0 0" +:+ nl]), w1) /\
     drop 1 ["headerr7 0 0 0 0" +:+ nl] !! 0%nat = None) /\
  (exists w', cache_builder demo_env 5 w [demo_repo] 1 false = Some (Raise IndexError, w')).
Proof.
  intros w. split; [vm_compute; lia|]. split.
  - eexists _, _. split; [reflexivity|]. split; [vm_compute; reflexivity|reflexivity].
  - eexists. vm_compute. reflexivity.
Qed.

(** * Further properties of the code *)

(** ** The history walker, continued *)

Section WalkMore.
Context (E : env).

Lemma calls_ticks (k : nat) (w : world) :
  recursive_loc_calls (ticks k w) = recursive_loc_calls w.
Proof. induction k as [|k IH]; [done|]. exact IH. Qed.

(** The attempt loop over attempts that end with the last one allowed
    never falls through. *)
Lemma attempt_loop_returns
    (on_history : world -> history -> option (result loc_value * world))
    (owner repo_name : string) (data cc : list string) (cursor : option string)
    (attempts : list Z) (w : world) :
  last attempts = Some max_attempts ->
  match attempt_loop E on_history owner repo_name data cc cursor attempts w with
  | Some (Ok LocNone, _) =>
      exists w1 h w', on_history w1 h = Some (Ok LocNone, w')
  | Some (Raise e, _) =>
      e = RuntimeError \/ exists w1 h w', on_history w1 h = Some (Raise e, w')
  | _ => True
  end.
Proof.
  revert w. induction attempts as [|attempt rest IH]; intros w Hlast; [done|].
  assert (Hrest : (attempt =? max_attempts) = false -> last rest = Some max_attempts).
  { intros Hne. destruct rest as [|x rest']; [|by rewrite last_cons_cons in Hlast].
    simpl in Hlast. injection Hlast as ->. by rewrite Z.eqb_refl in Hne. }
  simpl. destruct (remote E (posts w) owner repo_name cursor) as [|c b].
  - destruct (attempt =? max_attempts) eqn:Ha; [by left|]. by apply IH, Hrest.
  - destruct (c =? 200).
    + destruct b as [h|]; [|done].
      destruct (on_history (tick w) h) as [[[[]|e] w']|] eqn:Hon; eauto 6.
    + destruct ((500 <=? c) && (c <? 600)).
      * destruct (attempt =? max_attempts) eqn:Ha; [by left|]. by apply IH, Hrest.
      * destruct (c =? 403); by left.
Qed.

(** The outcomes of a walk over the responses that [http_outcome]
    describes: a tuple, the integer 0, or [RuntimeError]. *)
Lemma recursive_loc_outcomes (fuel : nat) (w : world) (owner repo_name : string)
    (data cc : list string) (a d m : Z) (cursor : option string) :
  match recursive_loc E fuel w owner repo_name data cc a d m cursor with
  | Some (Ok LocNone, _) => False
  | Some (Raise e, _) => e = RuntimeError
  | _ => True
  end.
Proof.
  revert w a d m cursor. induction fuel as [|fuel IH]; intros w a d m cursor; [done|].
  rewrite recursive_loc_S.
  pose proof (attempt_loop_returns
                (fun w' h =>
                   loc_counter_one_repo E
                     (fun w'' a' d' m' c =>
                        recursive_loc E fuel w'' owner repo_name data cc a' d' m' c)
                     w' h a d m)
                owner repo_name data cc cursor [1; 2; 3; 4] (query_count w) eq_refl) as H.
  destruct (attempt_loop E _ owner repo_name data cc cursor [1; 2; 3; 4] (query_count w))
    as [[[[]|e] w']|]; try done.
  - destruct H as (w1 & h & w2 & Hon).
    destruct (loc_counter_cases E
                (fun w'' a' d' m' c => recursive_loc E fuel w'' owner repo_name data cc a' d' m' c)
                w1 h a d m) as [(a' & d' & m' & Heq)|(a' & d' & m' & Heq)];
      rewrite Heq in Hon; [done|].
    specialize (IH w1 a' d' m' (endCursor h)). by rewrite Hon in IH.
  - destruct H as [->|(w1 & h & w2 & Hon)]; [done|].
    destruct (loc_counter_cases E
                (fun w'' a' d' m' c => recursive_loc E fuel w'' owner repo_name data cc a' d' m' c)
                w1 h a d m) as [(a' & d' & m' & Heq)|(a' & d' & m' & Heq)];
      rewrite Heq in Hon; [done|].
    specialize (IH w1 a' d' m' (endCursor h)). by rewrite Hon in IH.
Qed.

(** One count of [QUERY_COUNT] per page, and between one and four
    requests per page. *)
Lemma walk_serves_counters (owner repo_name : string) (data cc : list string)
    (t : nat) (cursor : option string) (hs : list history) :
  walk_serves E owner repo_name t cursor hs ->
  forall fuel w a d m, (length hs <= fuel)%nat -> posts w = t ->
  exists v w',
    recursive_loc E fuel w owner repo_name data cc a d m cursor = Some (Ok v, w') /\
    recursive_loc_calls w' = (recursive_loc_calls w + length hs)%nat /\
    (posts w + length hs <= posts w')%nat /\
    (posts w' <= posts w + 4 * length hs)%nat.
Proof.
  induction 1 as [t cursor k h Hy Hlast|t cursor k h hs Hy Hne Hnext _ IH];
    intros fuel w a d m Hfuel Ht; (destruct fuel as [|fuel]; [simpl in Hfuel; lia|]);
    rewrite recursive_loc_S.
  - rewrite (page_yields_loop E _ _ _ _ _ _ (query_count w) k (Some h)) by (by simpl; rewrite Ht).
    rewrite loc_counter_last by done.
    destruct Hy as (Hk & _). eexists _, _. split; [reflexivity|].
    rewrite calls_ticks, posts_ticks. simpl. lia.
  - rewrite (page_yields_loop E _ _ _ _ _ _ (query_count w) k (Some h)) by (by simpl; rewrite Ht).
    rewrite loc_counter_more by done.
    edestruct (IH fuel (ticks (S k) (query_count w))) as (v & w' & Heq & Hc & Hp1 & Hp2);
      [simpl in Hfuel; lia|rewrite posts_ticks; simpl; by rewrite Ht|].
    destruct Hy as (Hk & _). exists v, w'. split; [exact Heq|].
    rewrite calls_ticks in Hc. rewrite posts_ticks in Hp1, Hp2. simpl in *. lia.
Qed.

End WalkMore.

(** ** The files of a run *)

Section FilesMore.
Context (E : env).

Lemma fs_step_frame (filename q : string) (fs fs' : gmap string string) (op : fs_op) :
  op_on filename op -> q <> filename -> q <> tmp_of filename ->
  fs_step E fs op = Some fs' -> fs' !! q = fs !! q.
Proof.
  intros Hop Hq Hqt. destruct op as [p|p s|src dst]; simpl in *.
  - destruct (can_write E p); [|done]. intros [= <-].
    rewrite lookup_insert_ne; [done|]. intros ->. by destruct Hop.
  - destruct (fs !! p); [|done]. intros [= <-].
    rewrite lookup_insert_ne; [done|]. intros ->. by destruct Hop.
  - destruct Hop as [-> ->]. destruct (fs !! tmp_of filename); [|done]. intros [= <-].
    by rewrite lookup_insert_ne, lookup_delete_ne.
Qed.

Lemma fs_run_frame (filename q : string) (ops : list fs_op) (fs : gmap string string) :
  Forall (op_on filename) ops -> q <> filename -> q <> tmp_of filename ->
  (fs_run E fs ops).1 !! q = fs !! q.
Proof.
  intros Hops Hq Hqt. revert fs. induction Hops as [|op ops Hop _ IH]; intros fs; [done|].
  simpl. destruct (fs_step E fs op) as [fs'|] eqn:Hstep; [|done].
  rewrite IH. by eapply fs_step_frame.
Qed.

Lemma write_file_on (filename : string) (ls : list string) :
  Forall (op_on filename) (write_file filename ls).
Proof.
  constructor; [by left|]. apply Forall_forall. intros op Hop.
  apply list_elem_of_fmap in Hop as (s & -> & _). by left.
Qed.

Lemma atomic_write_on (filename : string) (ls : list string) :
  Forall (op_on filename) (atomic_write filename ls).
Proof.
  apply Forall_app. split; [|by repeat constructor].
  constructor; [by right|]. apply Forall_forall. intros op Hop.
  apply list_elem_of_fmap in Hop as (s & -> & _). by right.
Qed.

Lemma force_close_file_frame (w : world) (data cc : list string) (q : string) :
  q <> cache_filename E -> q <> tmp_of (cache_filename E) ->
  files (force_close_file E w data cc) !! q = files w !! q.
Proof.
  intros Hq Hqt. unfold force_close_file.
  pose proof (fs_run_frame (cache_filename E) q
                (atomic_write (cache_filename E) (cc ++ data)) (files w)
                (atomic_write_on _ _) Hq Hqt) as H1.
  destruct (fs_run E (files w) (atomic_write (cache_filename E) (cc ++ data)))
    as [fs' []]; cbn [fst files set_files] in *; [done|].
  rewrite <- H1. apply (fs_run_frame (cache_filename E)); [apply write_file_on|done..].
Qed.

Lemma flush_cache_frame (w : world) (edges : list repo_edge) (filename : string)
    (comment_size : nat) (r : result unit) (w1 : world) (q : string) :
  flush_cache E w edges filename comment_size = (r, w1) ->
  q <> filename -> q <> tmp_of filename -> files w1 !! q = files w !! q.
Proof.
  unfold flush_cache. destruct (files w !! filename) as [text|]; [|by intros [= <- <-]].
  intros H Hq Hqt.
  match type of H with context [fs_run E (files w) ?ops] =>
    pose proof (fs_run_frame filename q ops (files w) (atomic_write_on _ _) Hq Hqt) as H1;
    destruct (fs_run E (files w) ops) as [fs' []]
  end; injection H as <- <-; exact H1.
Qed.

Lemma load_cache_frame (w : world) (filename : string) (comment_size : nat)
    (r : result (list string)) (w0 : world) (q : string) :
  load_cache E w filename comment_size = (r, w0) ->
  q <> filename -> q <> tmp_of filename -> files w0 !! q = files w !! q.
Proof.
  unfold load_cache. destruct (files w !! filename) as [text|]; [by intros [= <- <-]|].
  intros H Hq Hqt.
  match type of H with context [fs_run E (files w) ?ops] =>
    pose proof (fs_run_frame filename q ops (files w) (write_file_on _ _) Hq Hqt) as H1;
    destruct (fs_run E (files w) ops) as [fs' []]
  end; injection H as <- <-; exact H1.
Qed.

Lemma reconcile_frame (w : world) (filename : string) (comment_size : nat)
    (force_cache : bool) (edges : list repo_edge) (data : list string)
    (r : result (bool * list string)) (w1 : world) (q : string) :
  reconcile E w filename comment_size force_cache edges data = (r, w1) ->
  q <> filename -> q <> tmp_of filename -> files w1 !! q = files w !! q.
Proof.
  unfold reconcile. destruct (needs_flush data comment_size edges force_cache);
    [|by intros [= <- <-]].
  destruct (flush_cache E w edges filename comment_size) as [[[]|e] w'] eqn:Hflush;
    intros H Hq Hqt.
  - pose proof (flush_cache_frame _ _ _ _ _ _ q Hflush Hq Hqt) as H1.
    by destruct (files w' !! filename); injection H as <- <-.
  - injection H as <- <-. by eapply flush_cache_frame.
Qed.

(** Whatever a position does, it leaves the files other than the cache
    file and its temporary file alone. *)
Lemma update_index_any_frame (fuel : nat) (w : world) (cc data : list string)
    (i : nat) (edge : repo_edge) (r : result (list string)) (w1 : world) (q : string) :
  update_index E fuel w cc data i edge = Some (r, w1) ->
  q <> cache_filename E -> q <> tmp_of (cache_filename E) ->
  files w1 !! q = files w !! q.
Proof.
  intros H Hq Hqt. destruct r as [data1|e].
  - apply update_index_files in H. by rewrite H.
  - revert H. unfold update_index. destruct (data !! i) as [line|]; [|by intros [= <- <-]].
    destruct (Py.split line) as [|h [|c rest]]; [by intros [= <- <-]..|].
    destruct (String.eqb h (repo_key E edge)); [|done].
    destruct (Py.int c) as [n|]; [|by intros [= <- <-]].
    destruct (defaultBranchRef edge) as [total|]; [|done].
    destruct (negb (n =? total)); [|done].
    destruct (Py.split_on "/" (nameWithOwner edge)) as [|owner [|repo_name [|x l]]];
      try by intros [= <- <-].
    destruct (recursive_loc E fuel w owner repo_name data cc 0 0 0 None)
      as [[[v|e'] w1']|] eqn:Hrec; [by destruct v| |done].
    apply recursive_loc_files in Hrec as [-> Hf].
    intros [= <- <-]. rewrite Hf. by apply force_close_file_frame.
Qed.

Lemma update_from_any_frame (fuel : nat) (edges : list repo_edge) (w : world)
    (cc data : list string) (i : nat) (r : result (list string)) (w1 : world) (q : string) :
  update_from E fuel w cc data i edges = Some (r, w1) ->
  q <> cache_filename E -> q <> tmp_of (cache_filename E) ->
  files w1 !! q = files w !! q.
Proof.
  intros H Hq Hqt. revert w data i H.
  induction edges as [|edge rest IH]; intros w data i.
  - simpl. by intros [= <- <-].
  - rewrite update_from_cons.
    destruct (update_index E fuel w cc data i edge) as [[[data1|e] w']|] eqn:Hstep; [| |done].
    + intros Hrest. rewrite (IH _ _ _ Hrest). by eapply update_index_any_frame.
    + intros [= <- <-]. by eapply update_index_any_frame.
Qed.

(** The lines that the rebuild step returns were read from a file. *)
Lemma reconcile_lines (w : world) (filename : string) (comment_size : nat)
    (force_cache : bool) (edges : list repo_edge) (text0 : string)
    (cached : bool) (lines : list string) (w1 : world) :
  reconcile E w filename comment_size force_cache edges (Py.readlines text0) =
    (Ok (cached, lines), w1) ->
  lines_ok lines = true.
Proof.
  unfold reconcile.
  destruct (needs_flush (Py.readlines text0) comment_size edges force_cache).
  - destruct (flush_cache E w edges filename comment_size) as [[[]|e] w']; [|done].
    destruct (files w' !! filename) as [text|]; [|done].
    intros [= <- <- <-]. apply lines_ok_readlines.
  - intros [= <- <- <-]. apply lines_ok_readlines.
Qed.

End FilesMore.

(** ** Further properties of a run *)

(** X1. A call of [recursive_loc] never returns [None]: whatever network
    errors and statuses its attempts meet, on whatever page, the attempt
    loop does not fall through to the end of the function, since the
    last attempt returns or raises. A call that returns, returns the
    tuple of [loc_counter_one_repo] or the integer 0. *)
Theorem X1_recursive_loc_never_none (E : env) (fuel : nat) (w : world)
    (owner repo_name : string) (data cache_comment : list string)
    (addition_total deletion_total my_commits : Z) (cursor : option string) :
  match recursive_loc E fuel w owner repo_name data cache_comment
          addition_total deletion_total my_commits cursor with
  | Some (Ok LocNone, _) => False
  | Some (Ok (LocTuple _ _ _), _) | Some (Ok LocZero, _) | Some (Raise _, _) | None => True
  end.
Proof.
  pose proof (recursive_loc_outcomes E fuel w owner repo_name data cache_comment
                addition_total deletion_total my_commits cursor) as H.
  by destruct (recursive_loc E fuel w owner repo_name data cache_comment
                 addition_total deletion_total my_commits cursor) as [[[[]|e] w']|].
Qed.

(** X2. A walk that is served the pages [hs] counts one
    [QUERY_COUNT['recursive_loc']] per page, and posts at least one and at
    most four requests per page. *)
Theorem X2_walk_counts_pages (E : env) (owner repo_name : string)
    (data cache_comment : list string) (cursor : option string) (hs : list history)
    (fuel : nat) (w : world) (addition_total deletion_total my_commits : Z) :
  walk_serves E owner repo_name (posts w) cursor hs ->
  (length hs <= fuel)%nat ->
  exists v w',
    recursive_loc E fuel w owner repo_name data cache_comment
      addition_total deletion_total my_commits cursor = Some (Ok v, w') /\
    recursive_loc_calls w' = (recursive_loc_calls w + length hs)%nat /\
    (posts w + length hs <= posts w')%nat /\
    (posts w' <= posts w + 4 * length hs)%nat.
Proof.
  intros Hserves Hfuel.
  by apply (walk_serves_counters E owner repo_name data cache_comment (posts w) cursor hs).
Qed.

Lemma X2_walk_counts_pages_witness :
  exists v w',
    recursive_loc demo_env 5 (demo_world ∅) "me" "repo" [] [] 0 0 0 None = Some (Ok v, w') /\
    recursive_loc_calls w' = 1%nat /\ (1 <= posts w')%nat /\ (posts w' <= 4)%nat.
Proof.
  destruct (X2_walk_counts_pages demo_env "me" "repo" [] [] None [demo_history] 5
              (demo_world ∅) 0 0 0) as (v & w' & Hrun & Hc & Hp1 & Hp2).
  - apply walk_serves_last with (k := 0%nat).
    + split; [lia|]. split; [intros j Hj; lia|reflexivity].
    + by right.
  - simpl. lia.
  - exists v, w'. split; [exact Hrun|]. simpl in *. lia.
Defined.

(** X3. Whatever its outcome (a result or an exception), a run of
    [cache_builder] leaves every file other than the cache file and its
    temporary file as it was. *)
Theorem X3_cache_builder_other_files (E : env) (fuel : nat) (w : world)
    (edges : list repo_edge) (comment_size : nat) (force_cache : bool) :
  match cache_builder E fuel w edges comment_size force_cache with
  | Some (_, w1) =>
      forall q, q <> cache_filename E -> q <> tmp_of (cache_filename E) ->
                files w1 !! q = files w !! q
  | None => True
  end.
Proof.
  destruct (cache_builder E fuel w edges comment_size force_cache) as [[r w1]|] eqn:Hrun;
    [|done].
  intros q Hq Hqt. revert Hrun. unfold cache_builder.
  destruct (load_cache E w (cache_filename E) comment_size) as [[data0|e] w0] eqn:Hload.
  2:{ intros [= <- <-]. by eapply load_cache_frame. }
  pose proof (load_cache_frame E _ _ _ _ _ q Hload Hq Hqt) as H0.
  destruct (reconcile E w0 (cache_filename E) comment_size force_cache edges data0)
    as [[[cached lines]|e] wr] eqn:Hrec.
  2:{ intros [= <- <-]. rewrite <- H0. by eapply reconcile_frame. }
  pose proof (reconcile_frame E _ _ _ _ _ _ _ _ q Hrec Hq Hqt) as Hr.
  unfold cache_builder_tail.
  destruct (update_from E fuel wr (take comment_size lines) (drop comment_size lines) 0 edges)
    as [[[data'|e] wu]|] eqn:Hup; [| |done].
  2:{ intros [= <- <-]. rewrite <- H0, <- Hr. by eapply update_from_any_frame. }
  pose proof (update_from_any_frame E _ _ _ _ _ _ _ _ q Hup Hq Hqt) as Hu.
  pose proof (fs_run_frame E (cache_filename E) q
                (atomic_write (cache_filename E) (take comment_size lines ++ data'))
                (files wu) (atomic_write_on _ _) Hq Hqt) as Hw.
  destruct (fs_run E (files wu) (atomic_write (cache_filename E) (take comment_size lines ++ data')))
    as [fs' []]; cbn [fst] in Hw.
  - destruct (sum_loc data' 0 0) as [[loc_add loc_del]|e]; intros [= <- <-];
      cbn [files set_files]; congruence.
  - intros [= <- <-]. cbn [files set_files]. congruence.
Qed.

(** X4. When [cache_builder] returns, the totals it returns are the sums
    of fields 3 and 4 over the record lines of the cache file as the run
    left it, the net total is their difference, and the temporary file
    is gone. *)
Theorem X4_cache_builder_totals_stored (E : env) (fuel : nat) (w : world)
    (edges : list repo_edge) (comment_size : nat) (force_cache : bool)
    (loc_add loc_del loc_net : Z) (cached : bool) (w1 : world) :
  cache_builder E fuel w edges comment_size force_cache =
    Some (Ok (loc_add, loc_del, loc_net, cached), w1) ->
  loc_net = loc_add - loc_del /\
  files w1 !! tmp_of (cache_filename E) = None /\
  exists text,
    files w1 !! cache_filename E = Some text /\
    sum_loc (drop comment_size (Py.readlines text)) 0 0 = Ok (loc_add, loc_del).
Proof.
  unfold cache_builder.
  destruct (load_cache E w (cache_filename E) comment_size) as [[data0|e] w0] eqn:Hload; [|done].
  destruct (load_cache_Ok_file E _ _ _ _ _ Hload) as (text0 & _ & <-).
  destruct (reconcile E w0 (cache_filename E) comment_size force_cache edges (Py.readlines text0))
    as [[[cached0 lines]|e] wr] eqn:Hrec; [|done].
  apply reconcile_lines in Hrec as Hok.
  unfold cache_builder_tail.
  destruct (update_from E fuel wr (take comment_size lines) (drop comment_size lines) 0 edges)
    as [[[data'|e] wu]|] eqn:Hup; [|done|done].
  pose proof (update_from_lines_ok E _ _ _ _ _ _ _ _ (take comment_size lines) Hup) as Hok'.
  rewrite take_drop in Hok'. specialize (Hok' Hok).
  pose proof (update_from_frame E _ _ _ _ _ _ _ _ Hup) as (Hlen & _ & _).
  destruct (can_write E (tmp_of (cache_filename E))) eqn:Hcw.
  2:{ by rewrite fs_run_atomic_write_denied. }
  rewrite fs_run_atomic_write by done.
  destruct (sum_loc data' 0 0) as [[a d]|e] eqn:Hsum; [|done].
  intros [= <- <- <- <- <-]. split; [done|]. cbn [files set_files].
  split.
  { rewrite lookup_insert_ne by (intros H; by apply (tmp_of_ne (cache_filename E))).
    apply lookup_delete_eq. }
  eexists. split; [apply lookup_insert_eq|].
  rewrite readlines_text_of by done.
  destruct (decide (comment_size <= length lines)%nat) as [Hle|Hgt].
  - rewrite drop_app_length' by (by rewrite length_take_le). done.
  - assert (data' = []) as ->.
    { apply nil_length_inv. rewrite Hlen, length_drop. lia. }
    rewrite app_nil_r, drop_ge by (rewrite length_take; lia). done.
Qed.

Lemma X4_cache_builder_totals_stored_witness :
  8 = 10 - 2 /\
  files demo_after_first_run !! tmp_of (cache_filename demo_env) = None /\
  exists text,
    files demo_after_first_run !! cache_filename demo_env = Some text /\
    sum_loc (drop 2 (Py.readlines text)) 0 0 = Ok (10, 2).
Proof.
  apply (X4_cache_builder_totals_stored demo_env 5 (demo_world ∅)
           [demo_repo; demo_empty_repo] 2 false 10 2 8 false demo_after_first_run).
  vm_compute. reflexivity.
Defined.

(** ** Reading the cache back *)

Section Readers.
Context (E : env).

Lemma open_line_no_nl (l : string) :
  is_line l = true -> full_line l = false -> no_nl l = true.
Proof.
  induction l as [|c l IH]; [done|].
  destruct l as [|c' l'].
  - simpl. intros _ ->. done.
  - intros [Hc Hl]%andb_prop Hf.
    change (negb (Ascii.eqb c Py.newline) && full_line (String c' l') = false) in Hf.
    rewrite Hc in Hf.
    change (negb (Ascii.eqb c Py.newline) && no_nl (String c' l') = true).
    rewrite Hc. by apply IH.
Qed.

(** A line without its newline takes up what follows it. *)
Lemma readlines_open (l s : string) :
  is_line l = true -> full_line l = false ->
  Py.readlines (l +:+ s) =
  match Py.readlines s with
  | [] => [l]
  | t :: ts => (l +:+ t) :: ts
  end.
Proof.
  induction l as [|c l IH]; [done|].
  destruct l as [|c' l'].
  - intros _ Hc. change (Ascii.eqb c Py.newline = false) in Hc.
    rewrite append_cons, append_nil_l, readlines_cons, Hc.
    destruct (Py.readlines s) as [|t ts]; [done|].
    by rewrite append_cons, append_nil_l.
  - intros [Hc Hl]%andb_prop Hf.
    change (negb (Ascii.eqb c Py.newline) && full_line (String c' l') = false) in Hf.
    rewrite Hc in Hf. apply negb_true_iff in Hc.
    rewrite append_cons, readlines_cons, Hc, (IH Hl Hf).
    destruct (Py.readlines s) as [|t ts]; [done|]. by rewrite append_cons.
Qed.

(** The lines read back from a header followed by full lines: as many
    lines as the header has, then the full lines, of which the first is
    missing when the header did not end in a newline. *)
Lemma readlines_header (header body : list string) :
  lines_ok header = true -> Forall (fun l => full_line l = true) body ->
  exists pre j,
    Py.readlines (Py.text_of (header ++ body)) = pre ++ drop j body /\
    length pre = length header.
Proof.
  intros Hh Hb. induction header as [|x header IH].
  - exists [], 0%nat. split; [|done]. simpl. rewrite drop_0.
    by apply readlines_text_of, lines_ok_full.
  - destruct header as [|y r].
    + destruct (full_line x) eqn:Hx.
      * exists [x], 0%nat. split; [|done]. rewrite drop_0.
        apply readlines_text_of. simpl app.
        change (x :: body) with ([x] ++ body).
        apply lines_ok_app_full; [by constructor|by apply lines_ok_full].
      * simpl in Hh. simpl app. rewrite text_of_cons, readlines_open by done.
        rewrite readlines_text_of by (by apply lines_ok_full).
        destruct body as [|s1 body'].
        -- exists [x], 0%nat. done.
        -- exists [x +:+ s1], 1%nat. done.
    + rewrite lines_ok_cons in Hh. apply andb_prop in Hh as [Hx Hr].
      destruct (IH Hr) as (pre & j & Heq & Hlen).
      exists (x :: pre), j. split; [|simpl; by rewrite Hlen].
      rewrite <- app_comm_cons, text_of_cons, readlines_full by done.
      by rewrite Heq.
Qed.

Lemma sum_commits_zero (ls : list string) (acc : Z) :
  Forall (fun l => exists h, is_token h = true /\ l = zero_record h) ls ->
  sum_commits ls acc = Ok acc.
Proof.
  intros H. revert acc. induction H as [|l ls (h & Hh & ->) _ IH]; intros acc; [done|].
  simpl. rewrite split_zero_record by done. simpl.
  rewrite IH. f_equal. change (nat_of_ascii "0") with 48%nat. lia.
Qed.

Lemma split_record_line (r : cache_record) :
  is_token (record_key r) = true ->
  Py.split (record_line r) =
  [record_key r; Py.str (record_total r); Py.str (record_mine r);
   Py.str (record_add r); Py.str (record_del r)].
Proof. apply split_format_record. Qed.

Lemma sum_commits_records (rs : list cache_record) (acc : Z) :
  Forall (fun r => is_token (record_key r) = true) rs ->
  sum_commits (map record_line rs) acc = Ok (acc + sum_records record_mine rs).
Proof.
  intros H. revert acc. induction H as [|r rs Hr _ IH]; intros acc.
  - simpl. f_equal. unfold sum_records. simpl. lia.
  - simpl. rewrite split_record_line by done. simpl.
    rewrite int_str, IH. f_equal. unfold sum_records. simpl. lia.
Qed.

Lemma sum_loc_records (rs : list cache_record) (a d : Z) :
  Forall (fun r => is_token (record_key r) = true) rs ->
  sum_loc (map record_line rs) a d =
  Ok (a + sum_records record_add rs, d + sum_records record_del rs).
Proof.
  intros H. revert a d. induction H as [|r rs Hr _ IH]; intros a d.
  - simpl. unfold sum_records. simpl. do 2 f_equal; lia.
  - simpl. rewrite !split_record_line by done. simpl.
    rewrite !int_str, IH. unfold sum_records. simpl. do 2 f_equal; lia.
Qed.

End Readers.

(** X5. The crash guard never raises and keeps the counters. Where the
    temporary file can be opened, the header and the records replace the
    cache file through it; where only the cache file can be opened, they
    are written straight into it; where neither can, every file is left
    as it was. *)
Theorem X5_force_close_file_outcomes (E : env) (w : world) (data cache_comment : list string) :
  let filename := cache_filename E in
  let saved := Py.text_of (cache_comment ++ data) in
  files (force_close_file E w data cache_comment) =
    (if can_write E (tmp_of filename)
     then <[filename := saved]> (delete (tmp_of filename) (files w))
     else if can_write E filename then <[filename := saved]> (files w)
     else files w) /\
  posts (force_close_file E w data cache_comment) = posts w /\
  recursive_loc_calls (force_close_file E w data cache_comment) = recursive_loc_calls w.
Proof.
  intros filename saved. unfold force_close_file. fold filename.
  destruct (can_write E (tmp_of filename)) eqn:Ht.
  - by rewrite fs_run_atomic_write.
  - rewrite fs_run_atomic_write_denied by done.
    destruct (can_write E filename) eqn:Hf.
    + by rewrite fs_run_write_file.
    + unfold write_file. by rewrite fs_run_denied.
Qed.

(** X6. Right after a successful [flush_cache] of the cache file,
    [commit_counter] returns 0, whatever the file held before: the lines
    after the first [comment_size] are zero records. *)
Theorem X6_commit_counter_after_flush (E : env) (w : world) (edges : list repo_edge)
    (comment_size : nat) (w1 : world) :
  digest_is_token E ->
  flush_cache E w edges (cache_filename E) comment_size = (Ok (), w1) ->
  commit_counter E w1 comment_size = Ok 0.
Proof.
  intros Hd Hflush.
  destruct (files w !! cache_filename E) as [text|] eqn:Hf;
    [|by unfold flush_cache in Hflush; rewrite Hf in Hflush].
  destruct (can_write E (tmp_of (cache_filename E))) eqn:Hw.
  2:{ unfold flush_cache in Hflush. rewrite Hf in Hflush.
      by rewrite fs_run_atomic_write_denied in Hflush. }
  rewrite (flush_cache_ok E w edges _ comment_size text Hf Hw) in Hflush.
  injection Hflush as <-. unfold commit_counter. cbn [files set_files].
  rewrite lookup_insert_eq.
  set (header := take comment_size (Py.readlines text)).
  set (skeleton := map (fun node => zero_record (repo_key E node)) edges).
  assert (Hsk : Forall (fun l => exists h, is_token h = true /\ l = zero_record h) skeleton).
  { apply Forall_forall. intros l Hl.
    apply list_elem_of_fmap in Hl as (node & -> & _). eexists. split; [apply Hd|done]. }
  destruct (readlines_header header skeleton) as (pre & j & -> & Hlen).
  { apply lines_ok_take, lines_ok_readlines. }
  { eapply Forall_impl; [exact Hsk|]. intros l (h & Hh & ->). by apply full_line_zero_record. }
  apply sum_commits_zero.
  assert (Hle : (length pre <= comment_size)%nat)
    by (rewrite Hlen; unfold header; rewrite length_take; lia).
  rewrite drop_app_ge, drop_drop by done.
  by apply Forall_drop.
Qed.

Lemma X6_commit_counter_after_flush_witness :
  commit_counter demo_env demo_after_flush 2 = Ok 0.
Proof.
  apply (X6_commit_counter_after_flush demo_env demo_stale_world
           [demo_repo; demo_empty_repo] 2 demo_after_flush).
  - apply demo_digest_token.
  - vm_compute. reflexivity.
Defined.

(** X7. The record format reads back. For a cache file made of
    [comment_size] header lines that end in a newline, followed by the
    lines that [cache_builder] writes for the records [rs],
    [commit_counter] returns the sum of their commit counts, and the
    closing loop of [cache_builder] sums their additions and deletions. *)
Theorem X7_records_read_back (E : env) (w : world) (header : list string)
    (rs : list cache_record) :
  Forall (fun l => full_line l = true) header ->
  Forall (fun r => is_token (record_key r) = true) rs ->
  files w !! cache_filename E = Some (Py.text_of (header ++ map record_line rs)) ->
  commit_counter E w (length header) = Ok (sum_records record_mine rs) /\
  sum_loc (drop (length header) (Py.readlines (Py.text_of (header ++ map record_line rs)))) 0 0 =
    Ok (sum_records record_add rs, sum_records record_del rs).
Proof.
  intros Hh Hr Hf.
  assert (Hread : Py.readlines (Py.text_of (header ++ map record_line rs)) =
                  header ++ map record_line rs).
  { apply readlines_text_of, lines_ok_app_full; [done|].
    apply lines_ok_full, Forall_forall. intros l Hl.
    apply list_elem_of_fmap in Hl as (r & -> & Hin).
    apply full_line_format_record. rewrite Forall_forall in Hr. by apply Hr. }
  unfold commit_counter. rewrite Hf, Hread, drop_app_length.
  split; [by rewrite sum_commits_records|by rewrite sum_loc_records].
Qed.

Lemma X7_records_read_back_witness :
  commit_counter demo_env demo_cache_world 1 = Ok 5 /\
  sum_loc (drop 1 (Py.readlines (Py.text_of ([comment_line] ++ map record_line demo_records))))
    0 0 = Ok (17, 11).
Proof.
  apply (X7_records_read_back demo_env demo_cache_world [comment_line] demo_records).
  - repeat constructor.
  - repeat constructor.
  - vm_compute. reflexivity.
Defined.

(** ** The listing queries *)

Lemma stars_counter_from (data : list star_edge) (acc : Z) :
  fold_left (fun total_stars node => total_stars + stargazers node) data acc =
  acc + stars_counter data.
Proof.
  unfold stars_counter. revert acc.
  induction data as [|node data IH] using rev_ind; intros acc; [simpl; lia|].
  rewrite !fold_left_app. simpl. rewrite IH. lia.
Qed.

Lemma stars_counter_cons (node : star_edge) (data : list star_edge) :
  stars_counter (node :: data) = stargazers node + stars_counter data.
Proof. unfold stars_counter at 1. simpl. by rewrite stars_counter_from. Qed.

Lemma simple_request_cases {A : Type} (post : nat -> reply A) (w : world) :
  (exists json, post (posts w) = Replied 200 json /\
                simple_request post w = (Ok (200, json), tick w)) \/
  ((forall json, post (posts w) <> Replied 200 json) /\
   simple_request post w = (Raise RuntimeError, tick w)).
Proof.
  unfold simple_request. destruct (post (posts w)) as [|c json].
  - right. done.
  - destruct (c =? 200) eqn:Hc.
    + apply Z.eqb_eq in Hc as ->. left. by exists json.
    + right. split; [intros j [= -> _]; done|].
      by destruct (c =? 401), (c =? 403), ((500 <=? c) && (c <? 600)).
Qed.

Section ListingProofs.
Context (E : env) (A : api).

Lemma calls_iter (k : nat) (s : state) :
  loc_query_calls (Nat.iter k query_count_loc_query s) = (k + loc_query_calls s)%nat.
Proof. induction k as [|k IH]; [done|]. simpl. by rewrite IH. Qed.

(** A listing that is served: every page is asked once, and
    [cache_builder] runs on the repositories of all the pages. *)
Lemma loc_query_serves (owner_affiliation : list string) (comment_size : nat)
    (force_cache : bool) (t : nat) (cursor : option string) (js : list listing) :
  listing_serves A owner_affiliation t cursor js ->
  forall pages fuel s edges, (length js <= pages)%nat -> posts (state_world s) = t ->
  match cache_builder E fuel (ticks (length js) (state_world s)) (edges ++ edges_of js)
          comment_size force_cache with
  | None =>
      loc_query E A pages fuel s owner_affiliation comment_size force_cache cursor edges = None
  | Some (r, w2) =>
      exists s',
        loc_query E A pages fuel s owner_affiliation comment_size force_cache cursor edges =
          Some (r, s', edges ++ edges_of (removelast js)) /\
        state_world s' = w2 /\
        loc_query_calls s' = (loc_query_calls s + length js)%nat /\
        graph_repos_stars_calls s' = graph_repos_stars_calls s /\
        loc_query_edges s' = loc_query_edges s
  end.
Proof.
  induction 1 as [t cursor json Hpost Hlast|t cursor json js Hpost Hnext Hrest IH];
    intros pages fuel s edges Hpages Ht;
    (destruct pages as [|pages]; [simpl in Hpages; lia|]).
  - simpl.
    destruct (simple_request_cases (fun t => post_loc_query A t owner_affiliation cursor)
                (state_world s)) as [(json' & Hp & ->)|(Hno & _)].
    2:{ rewrite Ht in Hno. by destruct (Hno json). }
    rewrite Ht, Hpost in Hp. injection Hp as <-. rewrite Hlast.
    unfold edges_of. simpl. rewrite !app_nil_r.
    destruct (cache_builder E fuel (tick (state_world s)) (edges ++ listing_edges json)
                comment_size force_cache) as [[r w2]|]; [|done].
    eexists. split; [reflexivity|]. simpl. repeat split; lia.
  - cbn [loc_query].
    destruct (simple_request_cases (fun t => post_loc_query A t owner_affiliation cursor)
                (state_world s)) as [(json' & Hp & Heq)|(Hno & _)].
    2:{ rewrite Ht in Hno. by destruct (Hno json). }
    cbn [state_world query_count_loc_query]. rewrite Heq.
    rewrite Ht, Hpost in Hp. injection Hp as <-. rewrite Hnext.
    specialize (IH pages fuel
                  (set_world (query_count_loc_query s) (tick (state_world s)))
                  (edges ++ listing_edges json)).
    assert (Hjs : js <> []) by (by destruct Hrest).
    change (edges_of (json :: js)) with (listing_edges json ++ edges_of js).
    assert (Hrm : edges_of (removelast (json :: js)) =
                  listing_edges json ++ edges_of (removelast js)).
    { destruct js as [|j' js']; [done|]. done. }
    rewrite Hrm, !app_assoc.
    cbn [state_world set_world] in IH.
    change (ticks (length (json :: js)) (state_world s))
      with (ticks (S (length js)) (state_world s)).
    replace (ticks (S (length js)) (state_world s))
      with (ticks (length js) (tick (state_world s)))
      by (unfold ticks; by rewrite <- Nat.iter_succ_r).
    specialize (IH ltac:(simpl in Hpages; lia) ltac:(simpl; by rewrite Ht)).
    destruct (cache_builder E fuel (ticks (length js) (tick (state_world s)))
                ((edges ++ listing_edges json) ++ edges_of js) comment_size force_cache)
      as [[r w2]|]; [|exact IH].
    destruct IH as (s' & Heq' & Hw & Hc & Hg & He).
    exists s'. split; [exact Heq'|]. simpl in *. repeat split; try done. lia.
Qed.

(** A listing that breaks: [RuntimeError], and [cache_builder] never
    runs. *)
Lemma loc_query_breaks (owner_affiliation : list string) (comment_size : nat)
    (force_cache : bool) (t : nat) (cursor : option string) (js : list listing) :
  listing_breaks A owner_affiliation t cursor js ->
  forall pages fuel s edges, (length js < pages)%nat -> posts (state_world s) = t ->
  exists s',
    loc_query E A pages fuel s owner_affiliation comment_size force_cache cursor edges =
      Some (Raise RuntimeError, s', edges ++ edges_of js) /\
    files (state_world s') = files (state_world s) /\
    posts (state_world s') = (posts (state_world s) + S (length js))%nat /\
    loc_query_calls s' = (loc_query_calls s + S (length js))%nat /\
    loc_query_edges s' = loc_query_edges s.
Proof.
  induction 1 as [t cursor Hno|t cursor json js Hpost Hnext Hrest IH];
    intros pages fuel s edges Hpages Ht;
    (destruct pages as [|pages]; [simpl in Hpages; lia|]).
  - cbn [loc_query].
    destruct (simple_request_cases (fun t => post_loc_query A t owner_affiliation cursor)
                (state_world s)) as [(json' & Hp & _)|(_ & Heq)].
    { rewrite Ht in Hp. by destruct (Hno json'). }
    cbn [state_world query_count_loc_query]. rewrite Heq.
    eexists. split; [by rewrite app_nil_r|]. simpl. repeat split; lia.
  - cbn [loc_query].
    destruct (simple_request_cases (fun t => post_loc_query A t owner_affiliation cursor)
                (state_world s)) as [(json' & Hp & Heq)|(Hno & _)].
    2:{ rewrite Ht in Hno. by destruct (Hno json). }
    cbn [state_world query_count_loc_query]. rewrite Heq.
    rewrite Ht, Hpost in Hp. injection Hp as <-. rewrite Hnext.
    destruct (IH pages fuel
                (set_world (query_count_loc_query s) (tick (state_world s)))
                (edges ++ listing_edges json))
      as (s' & Heq' & Hf & Hp & Hc & He);
      [simpl in Hpages; lia|simpl; by rewrite Ht|].
    exists s'. split.
    { rewrite Heq'. change (edges_of (json :: js)) with (listing_edges json ++ edges_of js).
      by rewrite app_assoc. }
    simpl in *. repeat split; try done; lia.
Qed.

End ListingProofs.

(** X8. [stars_counter] adds up the stargazer counts: it is additive over
    the concatenation of two listings and does not depend on the order of
    the repositories. *)
Theorem X8_stars_counter_sum :
  (forall l1 l2 : list star_edge,
     stars_counter (l1 ++ l2) = stars_counter l1 + stars_counter l2) /\
  (forall l l' : list star_edge, l ≡ₚ l' -> stars_counter l = stars_counter l').
Proof.
  assert (Happ : forall l1 l2 : list star_edge,
            stars_counter (l1 ++ l2) = stars_counter l1 + stars_counter l2).
  { intros l1 l2. unfold stars_counter at 1.
    rewrite fold_left_app, stars_counter_from. unfold stars_counter. lia. }
  split; [exact Happ|].
  induction 1 as [|x l l' _ IH|x y l|l l' l'' _ IH1 _ IH2].
  - done.
  - by rewrite !stars_counter_cons, IH.
  - rewrite !stars_counter_cons. lia.
  - congruence.
Qed.

(** X9. One call of [graph_repos_stars] counts itself once and posts one
    request, whatever the answer, and leaves the files alone. It raises
    [RuntimeError] exactly when the answer is not a response with status
    200. On status 200 it returns the total count for ['repos'], the
    sum of the stargazer counts of the one page received for ['stars'],
    and [None] for any other [count_type]. *)
Theorem X9_graph_repos_stars_outcomes (A : api) (s : state) (count_type : string)
    (owner_affiliation : list string) (cursor : option string) :
  let answer := post_graph_repos_stars A (posts (state_world s)) owner_affiliation cursor in
  let run := graph_repos_stars A s count_type owner_affiliation cursor in
  graph_repos_stars_calls run.2 = S (graph_repos_stars_calls s) /\
  posts (state_world run.2) = S (posts (state_world s)) /\
  files (state_world run.2) = files (state_world s) /\
  match run.1 with
  | Raise e => e = RuntimeError /\ forall json, answer <> Replied 200 json
  | Ok v =>
      exists json,
        answer = Replied 200 json /\
        v = if String.eqb count_type "repos" then Some (repositories_totalCount json)
            else if String.eqb count_type "stars"
                 then Some (stars_counter (repositories_edges json))
                 else None
  end.
Proof.
  intros answer run. unfold run, graph_repos_stars.
  destruct (simple_request_cases
              (fun t => post_graph_repos_stars A t owner_affiliation cursor)
              (state_world (query_count_graph_repos_stars s)))
    as [(json & Hp & ->)|(Hno & ->)].
  - change (200 =? 200) with true. cbv iota.
    destruct (String.eqb count_type "repos"); [|destruct (String.eqb count_type "stars")];
      (repeat split; [by exists json]).
  - repeat split. exact Hno.
Qed.

(** X10. When the listing is served the pages [js], a call of
    [loc_query] with the default arguments asks each page once and ends
    as [cache_builder] does on the repositories of all the pages, in the
    order received, after whatever the default list already held. *)
Theorem X10_loc_query_all_pages (E : env) (A : api) (pages fuel : nat) (s : state)
    (owner_affiliation : list string) (comment_size : nat) (force_cache : bool)
    (js : list listing) :
  listing_serves A owner_affiliation (posts (state_world s)) None js ->
  (length js <= pages)%nat ->
  match cache_builder E fuel (ticks (length js) (state_world s))
          (loc_query_edges s ++ edges_of js) comment_size force_cache with
  | None =>
      loc_query_default E A pages fuel s owner_affiliation comment_size force_cache = None
  | Some (r, w2) =>
      exists s',
        loc_query_default E A pages fuel s owner_affiliation comment_size force_cache =
          Some (r, s') /\
        state_world s' = w2 /\
        loc_query_calls s' = (loc_query_calls s + length js)%nat
  end.
Proof.
  intros Hserves Hpages. unfold loc_query_default.
  pose proof (loc_query_serves E A owner_affiliation comment_size force_cache
                _ None js Hserves pages fuel s (loc_query_edges s) Hpages eq_refl) as H.
  destruct (cache_builder E fuel (ticks (length js) (state_world s))
              (loc_query_edges s ++ edges_of js) comment_size force_cache) as [[r w2]|].
  - destruct H as (s' & -> & Hw & Hc & _). eexists. split; [reflexivity|]. done.
  - by rewrite H.
Qed.

Lemma X10_loc_query_all_pages_witness :
  exists s',
    loc_query_default demo_env demo_api 2 5 demo_state ["OWNER"] 2 false =
      Some (Ok (10, 2, 8, false), s') /\
    loc_query_calls s' = 2%nat.
Proof.
  pose proof (X10_loc_query_all_pages demo_env demo_api 2 5 demo_state ["OWNER"] 2 false
                [demo_page_one; demo_page_two]) as H.
  destruct (cache_builder demo_env 5 (ticks 2 (state_world demo_state))
              (loc_query_edges demo_state ++ edges_of [demo_page_one; demo_page_two]) 2 false)
    as [[r w2]|] eqn:Hrun; [|by vm_compute in Hrun].
  destruct H as (s' & Heq & _ & Hc).
  - apply listing_serves_more; [reflexivity|reflexivity|].
    by apply listing_serves_last.
  - simpl. lia.
  - exists s'. split; [|exact Hc].
    rewrite Heq. vm_compute in Hrun. by injection Hrun as <- _.
Defined.

(** X11. The default list of [loc_query] is one object shared by all the
    calls: a call with the default arguments that is served the pages
    [js] leaves in it the repositories of every page but the last, so
    that a later call with the default arguments starts from them. A
    listing of one page leaves it as it was. *)
Theorem X11_loc_query_default_list_grows (E : env) (A : api) (pages fuel : nat) (s : state)
    (owner_affiliation : list string) (comment_size : nat) (force_cache : bool)
    (js : list listing) (r : result (Z * Z * Z * bool)) (s1 : state) :
  listing_serves A owner_affiliation (posts (state_world s)) None js ->
  (length js <= pages)%nat ->
  loc_query_default E A pages fuel s owner_affiliation comment_size force_cache =
    Some (r, s1) ->
  loc_query_edges s1 = loc_query_edges s ++ edges_of (removelast js).
Proof.
  intros Hserves Hpages. unfold loc_query_default.
  pose proof (loc_query_serves E A owner_affiliation comment_size force_cache
                _ None js Hserves pages fuel s (loc_query_edges s) Hpages eq_refl) as H.
  destruct (cache_builder E fuel (ticks (length js) (state_world s))
              (loc_query_edges s ++ edges_of js) comment_size force_cache) as [[r' w2]|].
  - destruct H as (s' & -> & _). by intros [= <- <-].
  - by rewrite H.
Qed.

Lemma X11_loc_query_default_list_grows_witness :
  loc_query_edges demo_after_listing = [demo_repo].
Proof.
  eapply (X11_loc_query_default_list_grows demo_env demo_api 2 5 demo_state ["OWNER"] 2 false
            [demo_page_one; demo_page_two] _ demo_after_listing).
  - apply listing_serves_more; [reflexivity|reflexivity|].
    by apply listing_serves_last.
  - simpl. lia.
  - vm_compute. reflexivity.
Defined.

(** X12. When a request of the listing does not come back with status
    200, after the pages [js], [loc_query] raises [RuntimeError] without
    calling [cache_builder]: the files are as they were. The default
    list has taken up the repositories of the pages received. *)
Theorem X12_loc_query_listing_breaks (E : env) (A : api) (pages fuel : nat) (s : state)
    (owner_affiliation : list string) (comment_size : nat) (force_cache : bool)
    (js : list listing) :
  listing_breaks A owner_affiliation (posts (state_world s)) None js ->
  (length js < pages)%nat ->
  exists s',
    loc_query_default E A pages fuel s owner_affiliation comment_size force_cache =
      Some (Raise RuntimeError, s') /\
    files (state_world s') = files (state_world s) /\
    posts (state_world s') = (posts (state_world s) + S (length js))%nat /\
    loc_query_edges s' = loc_query_edges s ++ edges_of js.
Proof.
  intros Hbreaks Hpages. unfold loc_query_default.
  destruct (loc_query_breaks E A owner_affiliation comment_size force_cache
              _ None js Hbreaks pages fuel s (loc_query_edges s) Hpages eq_refl)
    as (s' & -> & Hf & Hp & _).
  eexists. split; [reflexivity|]. done.
Qed.

Lemma X12_loc_query_listing_breaks_witness :
  exists s',
    loc_query_default demo_env demo_api_down 2 5 demo_state ["OWNER"] 2 false =
      Some (Raise RuntimeError, s') /\
    files (state_world s') = ∅ /\
    posts (state_world s') = 2%nat /\
    loc_query_edges s' = [demo_repo].
Proof.
  apply (X12_loc_query_listing_breaks demo_env demo_api_down 2 5 demo_state ["OWNER"] 2 false
           [demo_page_one]).
  - apply listing_breaks_later; [reflexivity|reflexivity|].
    apply listing_breaks_here. intros json H. discriminate H.
  - simpl. lia.
Defined.

(** ** The elements of the SVG tree *)

Lemma element_ind (P : element -> Prop) :
  (forall i t cs, Forall P cs -> P (Element i t cs)) -> forall e, P e.
Proof.
  intros H. fix IH 1. intros [i t cs]. apply H.
  induction cs as [|c cs IHcs]; constructor; [apply IH|apply IHcs].
Qed.

Section Elements.
Context (element_id new_text : string).

Lemma searched_app_l (l1 l2 l1' : list (option string * option string)) :
  searched element_id new_text l1 (Some l1') -> searched element_id new_text (l1 ++ l2) (Some (l1' ++ l2)).
Proof.
  intros (k & t & Hk & Hbefore & ->). exists k, t.
  pose proof (lookup_lt_Some _ _ _ Hk) as Hlt.
  split; [by rewrite lookup_app_l|].
  split; [by rewrite take_app_le by lia|].
  by rewrite insert_app_l.
Qed.

Lemma searched_app_r (l1 l2 : list (option string * option string))
    (l2' : option (list (option string * option string))) :
  searched element_id new_text l1 None -> searched element_id new_text l2 l2' -> searched element_id new_text (l1 ++ l2) (app l1 <$> l2').
Proof.
  intros H1 H2. destruct l2' as [l2'|]; simpl in *.
  - destruct H2 as (k & t & Hk & Hbefore & ->). exists (length l1 + k)%nat, t.
    split; [by rewrite lookup_app_r, Nat.add_comm, Nat.add_sub by lia|].
    split; [rewrite take_app_add; by apply Forall_app|].
    by rewrite insert_app_r.
  - by apply Forall_app.
Qed.

Lemma set_first_spec (e : element) :
  searched element_id new_text (labels e) (labels <$> set_first element_id new_text e) /\
  forall e', set_first element_id new_text e = Some e' -> erase e' = erase e.
Proof.
  induction e as [i t cs IH] using element_ind.
  cbn [set_first labels].
  destruct (bool_decide (i = Some element_id)) eqn:Hi.
  - apply bool_decide_eq_true in Hi as ->. split.
    + exists 0%nat, t. done.
    + by intros e' [= <-].
  - apply bool_decide_eq_false in Hi.
    match goal with |- context [Element i t <$> ?f cs] => set (in_children := f) end.
    assert (Hcs : searched element_id new_text (concat (map labels cs))
                    ((fun cs' => concat (map labels cs')) <$> in_children cs) /\
                  forall cs', in_children cs = Some cs' -> map erase cs' = map erase cs).
    { induction IH as [|c cs [Hc He] _ [IHs IHe]]; [split; [constructor|done]|].
      cbn [in_children map concat]. fold in_children.
      destruct (set_first element_id new_text c) as [c'|] eqn:Hset.
      - split.
        + simpl. by apply searched_app_l.
        + intros cs' [= <-]. simpl. by rewrite (He c').
      - split.
        + pose proof (searched_app_r _ _ _ Hc IHs) as H.
          by destruct (in_children cs).
        + intros cs'. destruct (in_children cs) as [cs''|]; [|done].
          intros [= <-]. simpl. by rewrite (IHe cs''). }
    destruct Hcs as [Hs He]. split.
    + destruct (in_children cs) as [cs'|]; simpl in *.
      * destruct Hs as (k & u & Hk & Hbefore & ->). exists (S k), u.
        split; [done|]. split; [|done].
        constructor; [done|exact Hbefore].
      * constructor; [done|exact Hs].
    + intros e'. destruct (in_children cs) as [cs'|]; [|done].
      intros [= <-]. simpl. by rewrite (He cs').
Qed.

Lemma find_and_replace_erase (root : element) :
  erase (find_and_replace root element_id new_text) = erase root.
Proof.
  unfold find_and_replace. destruct (set_first_spec root) as [_ He].
  destruct (set_first element_id new_text root) as [root'|]; [by apply He|done].
Qed.

(** An element with another [id] keeps its place and its text. *)
Lemma find_and_replace_other (root : element) (k : nat)
    (i t : option string) :
  labels root !! k = Some (i, t) -> i <> Some element_id ->
  labels (find_and_replace root element_id new_text) !! k = Some (i, t).
Proof.
  intros Hk Hi. unfold find_and_replace. destruct (set_first_spec root) as [Hs _].
  destruct (set_first element_id new_text root) as [root'|]; [|done].
  destruct Hs as (k' & u & Hk' & _ & ->).
  destruct (decide (k' = k)) as [->|Hne]; [congruence|].
  by rewrite list_lookup_insert_ne.
Qed.

End Elements.

Lemma length_append (a b : string) :
  String.length (a +:+ b) = (String.length a + String.length b)%nat.
Proof. induction a as [|c a IH]; [done|]. rewrite append_cons. simpl. by rewrite IH. Qed.

Lemma length_repeat (c : ascii) (n : nat) : String.length (Py.repeat c n) = n.
Proof. induction n as [|n IH]; [done|]. simpl. by rewrite IH. Qed.

Lemma dots_only_append (a b : string) :
  dots_only a = true -> dots_only b = true -> dots_only (a +:+ b) = true.
Proof.
  induction a as [|c a IH]; [done|]. rewrite append_cons. simpl.
  intros [Hc Ha]%andb_prop Hb. by rewrite Hc, IH.
Qed.

Lemma dots_only_repeat (n : nat) : dots_only (Py.repeat "." n) = true.
Proof. induction n as [|n IH]; [done|]. simpl. exact IH. Qed.

(** The dots are always defined: [just_len] is one of the keys of
    [dot_map] whenever it is at most 2. *)
Lemma dot_string_spec (new_text : string) (length : Z) :
  let just_len := Z.max 0 (length - Z.of_nat (String.length new_text)) in
  exists dots,
    dot_string new_text length = Some dots /\
    dots_only dots = true /\
    Z.of_nat (String.length dots) = (if just_len <=? 2 then just_len else just_len + 2).
Proof.
  intros just_len. unfold dot_string. fold just_len.
  destruct (just_len <=? 2) eqn:Hle.
  - assert (Hcases : just_len = 0 \/ just_len = 1 \/ just_len = 2) by (unfold just_len in *; lia).
    destruct Hcases as [H | [H | H]]; rewrite H; eexists; (split; [reflexivity|done]).
  - eexists. split; [reflexivity|]. split.
    + apply dots_only_append; [done|]. apply dots_only_append; [apply dots_only_repeat|done].
    + rewrite !length_append, length_repeat. simpl. lia.
Qed.

Lemma justify_format_other (root : element) (element_id : string) (new_text : py_value)
    (length : Z) :
  exists root',
    justify_format root element_id new_text length = Some root' /\
    erase root' = erase root /\
    forall k i t, labels root !! k = Some (i, t) ->
      i <> Some element_id -> i <> Some (element_id +:+ "_dots") ->
      labels root' !! k = Some (i, t).
Proof.
  unfold justify_format.
  destruct (dot_string_spec (shown new_text) length) as (dots & -> & _).
  eexists. split; [reflexivity|]. split.
  - by rewrite !find_and_replace_erase.
  - intros k i t Hk H1 H2. by do 2 (apply find_and_replace_other; [|done]).
Qed.

(** X13. [find_and_replace] sets the text of the first element, in
    document order, whose [id] is [element_id], and of that one only:
    the shape of the tree, every [id] and every other text stay, also
    the texts of later elements with the same [id]. *)
Theorem X13_find_and_replace_first (root : element) (element_id new_text : string)
    (k : nat) (t : option string) :
  labels root !! k = Some (Some element_id, t) ->
  Forall (fun l => l.1 <> Some element_id) (take k (labels root)) ->
  labels (find_and_replace root element_id new_text) =
    <[k := (Some element_id, Some new_text)]> (labels root) /\
  erase (find_and_replace root element_id new_text) = erase root.
Proof.
  intros Hk Hbefore. split; [|apply find_and_replace_erase].
  unfold find_and_replace. destruct (set_first_spec element_id new_text root) as [Hs _].
  destruct (set_first element_id new_text root) as [root'|]; simpl in Hs.
  - destruct Hs as (k' & u & Hk' & Hbefore' & ->).
    assert (Hfirst : forall (j j' : nat) (u' : option string),
              labels root !! j = Some (Some element_id, u') ->
              Forall (fun l => l.1 <> Some element_id) (take j' (labels root)) ->
              (j' <= j)%nat).
    { intros j j' u' Hj Hall. destruct (decide (j' <= j)%nat) as [|Hgt]; [done|].
      rewrite Forall_lookup in Hall.
      destruct (Hall j (Some element_id, u')); [|done].
      rewrite lookup_take_lt by lia. done. }
    pose proof (Hfirst _ _ _ Hk Hbefore'). pose proof (Hfirst _ _ _ Hk' Hbefore).
    by replace k' with k by lia.
  - rewrite Forall_lookup in Hs. by destruct (Hs k _ Hk).
Qed.

Lemma X13_find_and_replace_first_witness :
  labels (find_and_replace demo_svg "loc_add" "2") =
    [ (None, None); (Some "age_data", Some "old"); (Some "loc_add", Some "2");
      (Some "loc_add_dots", None); (Some "loc_add", Some "kept") ] /\
  erase (find_and_replace demo_svg "loc_add" "2") = erase demo_svg.
Proof.
  apply (X13_find_and_replace_first demo_svg "loc_add" "2" 2 (Some "1")).
  - reflexivity.
  - repeat constructor; discriminate.
Defined.

(** X14. When no element of the tree has the [id] looked for,
    [find_and_replace] leaves the tree as it is. *)
Theorem X14_find_and_replace_missing (root : element) (element_id new_text : string) :
  Forall (fun l => l.1 <> Some element_id) (labels root) ->
  find_and_replace root element_id new_text = root.
Proof.
  intros Hall. unfold find_and_replace.
  destruct (set_first_spec element_id new_text root) as [Hs _].
  destruct (set_first element_id new_text root) as [root'|]; [|done].
  destruct Hs as (k & u & Hk & _). rewrite Forall_lookup in Hall.
  by destruct (Hall k _ Hk).
Qed.

Lemma X14_find_and_replace_missing_witness :
  find_and_replace demo_svg "star_data" "7" = demo_svg.
Proof.
  apply (X14_find_and_replace_missing demo_svg "star_data" "7").
  repeat constructor; discriminate.
Defined.

(** X15. [justify_format] never raises: the lookup in [dot_map] is only
    made for a key that it has. It writes the text shown for the value
    and, in the element [element_id + '_dots'], a string of dots and
    spaces whose length is the gap between [length] and the length of the
    text when the gap is at most 2, and the gap plus 2 when it is
    larger. *)
Theorem X15_justify_format_dots (root : element) (element_id : string)
    (new_text : py_value) (length : Z) :
  let just_len := Z.max 0 (length - Z.of_nat (String.length (shown new_text))) in
  exists dots,
    justify_format root element_id new_text length =
      Some (find_and_replace (find_and_replace root element_id (shown new_text))
              (element_id +:+ "_dots") dots) /\
    dots_only dots = true /\
    Z.of_nat (String.length dots) = (if just_len <=? 2 then just_len else just_len + 2).
Proof.
  intros just_len. unfold justify_format.
  destruct (dot_string_spec (shown new_text) length) as (dots & -> & Hd & Hl).
  by exists dots.
Qed.

(** X16. With the three entries of [loc_data], the updates of
    [svg_overwrite] all go through: the tree keeps its shape and its
    [id]s, and an element whose [id] is none of the sixteen written to
    keeps its text. The result is the same whatever [age_data] is: the
    age is not written anywhere. *)
Theorem X16_svg_overwrite_other_elements (root : element)
    (commit_data star_data repo_data contrib_data follower_data : py_value)
    (loc_data : list py_value) :
  (3 <= length loc_data)%nat ->
  exists root',
    (forall age_data,
       svg_overwrite root age_data commit_data star_data repo_data contrib_data
         follower_data loc_data = Some root') /\
    erase root' = erase root /\
    forall k i t, labels root !! k = Some (i, t) ->
      (forall id, id ∈ svg_ids -> i <> Some id) ->
      labels root' !! k = Some (i, t).
Proof.
  intros Hlen. destruct loc_data as [|loc0 [|loc1 [|loc2 rest]]]; [simpl in Hlen; lia..|].
  unfold svg_overwrite.
  destruct (justify_format_other root "commit_data" commit_data 22) as (r1 & -> & He1 & H1).
  destruct (justify_format_other r1 "star_data" star_data 14) as (r2 & E2 & He2 & H2).
  destruct (justify_format_other r2 "repo_data" repo_data 6) as (r3 & E3 & He3 & H3).
  destruct (justify_format_other r3 "contrib_data" contrib_data 0) as (r4 & E4 & He4 & H4).
  destruct (justify_format_other r4 "follower_data" follower_data 10) as (r5 & E5 & He5 & H5).
  destruct (justify_format_other r5 "loc_data" loc2 9) as (r6 & E6 & He6 & H6).
  destruct (justify_format_other r6 "loc_add" loc0 0) as (r7 & E7 & He7 & H7).
  destruct (justify_format_other r7 "loc_del" loc1 7) as (r8 & E8 & He8 & H8).
  exists r8. split.
  { intros _. cbn [mbind option_bind]. rewrite E2. cbn [mbind option_bind]. rewrite E3.
    cbn [mbind option_bind]. rewrite E4. cbn [mbind option_bind]. rewrite E5.
    cbn [mbind option_bind lookup list_lookup]. rewrite E6.
    cbn [mbind option_bind lookup list_lookup]. rewrite E7.
    cbn [mbind option_bind lookup list_lookup]. exact E8. }
  split; [congruence|].
  intros k i t Hk Hi.
  assert (Hin : forall id, In id svg_ids -> i <> Some id)
    by (intros id Hid; by apply Hi, list_elem_of_In).
  pose proof (H1 k i t Hk (Hin "commit_data" ltac:(vm_compute; tauto)) (Hin "commit_data_dots" ltac:(vm_compute; tauto))) as K1.
  pose proof (H2 k i t K1 (Hin "star_data" ltac:(vm_compute; tauto)) (Hin "star_data_dots" ltac:(vm_compute; tauto))) as K2.
  pose proof (H3 k i t K2 (Hin "repo_data" ltac:(vm_compute; tauto)) (Hin "repo_data_dots" ltac:(vm_compute; tauto))) as K3.
  pose proof (H4 k i t K3 (Hin "contrib_data" ltac:(vm_compute; tauto)) (Hin "contrib_data_dots" ltac:(vm_compute; tauto))) as K4.
  pose proof (H5 k i t K4 (Hin "follower_data" ltac:(vm_compute; tauto)) (Hin "follower_data_dots" ltac:(vm_compute; tauto))) as K5.
  pose proof (H6 k i t K5 (Hin "loc_data" ltac:(vm_compute; tauto)) (Hin "loc_data_dots" ltac:(vm_compute; tauto))) as K6.
  pose proof (H7 k i t K6 (Hin "loc_add" ltac:(vm_compute; tauto)) (Hin "loc_add_dots" ltac:(vm_compute; tauto))) as K7.
  exact (H8 k i t K7 (Hin "loc_del" ltac:(vm_compute; tauto)) (Hin "loc_del_dots" ltac:(vm_compute; tauto))).
Qed.

Lemma X16_svg_overwrite_other_elements_witness :
  exists root',
    svg_overwrite demo_svg (PyStr "21 years") (PyInt 1234) (PyInt 5) (PyInt 6) (PyInt 7)
      (PyInt 8) [PyStr "1,234"; PyStr "56"; PyStr "1,178"] = Some root' /\
    erase root' = erase demo_svg /\
    labels root' !! 1%nat = Some (Some "age_data", Some "old").
Proof.
  destruct (X16_svg_overwrite_other_elements demo_svg (PyInt 1234)
              (PyInt 5) (PyInt 6) (PyInt 7) (PyInt 8)
              [PyStr "1,234"; PyStr "56"; PyStr "1,178"])
    as (root' & Hrun & Hshape & Hother).
  - simpl. lia.
  - exists root'. split; [apply Hrun|]. split; [exact Hshape|].
    apply Hother; [reflexivity|].
    intros id Hid. apply list_elem_of_In in Hid. vm_compute in Hid.
    intros [= <-]. repeat (destruct Hid as [Hid|Hid]; [discriminate Hid|]). exact Hid.
Defined.

(** ** The archive *)

(** The slice [data[7:len(data)-3]]: the lines after the first seven and
    before the last three; empty for ten lines or fewer, also when the end
    of the slice is negative. *)
Lemma slice_archive {A : Type} (l : list A) :
  Py.slice 7 (Z.of_nat (length l) - 3) l = take (length l - 10) (drop 7 l).
Proof.
  unfold Py.slice. set (n := length l).
  destruct (decide (7 <= n)%nat) as [Hn|Hn].
  - change (7 <? 0) with false. cbv iota.
    assert ((Z.of_nat n - 3 <? 0) = false) as -> by lia.
    f_equal; [lia|f_equal; lia].
  - rewrite (drop_ge l 7) by (fold n; lia).
    rewrite take_nil. apply nil_length_inv.
    rewrite length_take, length_drop. fold n.
    change (7 <? 0) with false. cbv iota. lia.
Qed.

(** X17. When [add_archive] returns, the net total is the difference of
    the added and deleted lines, and the number of repositories is the
    number of lines of the archive beyond its seven header lines and its
    three footer lines: none for an archive of ten lines or fewer. The
    archive is not empty. *)
Theorem X17_add_archive_counts (w : world)
    (added_loc deleted_loc net_loc added_commits contributed_repos : Z) :
  add_archive w = Ok (added_loc, deleted_loc, net_loc, added_commits, contributed_repos) ->
  net_loc = added_loc - deleted_loc /\
  exists text,
    files w !! archive_filename = Some text /\
    Py.readlines text <> [] /\
    contributed_repos = Z.of_nat (length (Py.readlines text) - 10).
Proof.
  unfold add_archive. destruct (files w !! archive_filename) as [text|]; [|done].
  rewrite slice_archive.
  destruct (sum_archive _ 0 0 0) as [[[a d] c]|e]; [|done].
  destruct (last (Py.readlines text)) as [footer|] eqn:Hlast; [|done].
  destruct (Py.split footer !! 4%nat) as [f4|]; [|done].
  destruct (Py.int (Py.but_last f4)) as [n|]; [|done].
  intros [= <- <- <- <- <-]. split; [done|]. exists text. split; [done|]. split.
  - intros Hnil. by rewrite Hnil in Hlast.
  - rewrite length_take, length_drop. f_equal. lia.
Qed.

Lemma X17_add_archive_counts_witness :
  80 = 100 - 20 /\
  exists text,
    files demo_archive_world !! archive_filename = Some text /\
    Py.readlines text <> [] /\
    1 = Z.of_nat (length (Py.readlines text) - 10).
Proof.
  apply (X17_add_archive_counts demo_archive_world 100 20 80 16 1).
  vm_compute. reflexivity.
Defined.

(** ** Whole runs *)

Section WholeRun.
Context (E : env).

Lemma zero_record_line (key : string) :
  zero_record key =
  record_line {| record_key := key; record_total := 0; record_mine := 0;
                 record_add := 0; record_del := 0 |}.
Proof. reflexivity. Qed.

Lemma rebuilt_key (fuel : nat) (edge : repo_edge) (r : cache_record) :
  rebuilt E fuel edge r -> record_key r = repo_key E edge.
Proof. by destruct 1. Qed.

(** The pass over a skeleton: every position gets its rebuilt record. *)
Lemma update_from_rebuild (fuel : nat) (cc : list string)
    (edges : list repo_edge) (rs : list cache_record) :
  digest_is_token E ->
  Forall2 (rebuilt E fuel) edges rs ->
  forall w pre, exists w',
    update_from E fuel w cc
      (pre ++ map (fun node => zero_record (repo_key E node)) edges) (length pre) edges =
      Some (Ok (pre ++ map record_line rs), w') /\
    files w' = files w.
Proof.
  intros Hd. induction 1 as [|edge r edges rs Hr _ IH]; intros w pre.
  - exists w. done.
  - rewrite update_from_cons. cbn [map].
    set (rest := map (fun node => zero_record (repo_key E node)) edges).
    set (key := repo_key E edge).
    assert (Hl : (pre ++ zero_record key :: rest) !! length pre = Some (zero_record key))
      by (by apply list_lookup_middle).
    assert (Hs : Py.split (zero_record key) = [key; "0"; "0"; "0"; "0"])
      by (apply split_zero_record, Hd).
    assert (Hins : forall l, <[length pre := l]> (pre ++ zero_record key :: rest) =
                             (pre ++ [l]) ++ rest).
    { intros l. rewrite insert_app_r_alt, Nat.sub_diag by done.
      by rewrite <- app_assoc. }
    assert (Hsame : pre ++ zero_record key :: rest = (pre ++ [zero_record key]) ++ rest)
      by (by rewrite <- app_assoc).
    assert (Hlen : forall l : string, S (length pre) = length (pre ++ [l]))
      by (intros l; rewrite length_app; simpl; lia).
    destruct Hr as [Hb|Hb|total owner repo_name hs Hb Hne Hso Hwalk Hfuel].
    + rewrite (update_index_branchless E _ _ _ _ _ _ _ key "0" ["0"; "0"; "0"] 0 Hl Hs eq_refl
                 eq_refl Hb).
      rewrite Hins, (Hlen (zero_record key)).
      destruct (IH w (pre ++ [zero_record key])) as (w' & Heq & Hf).
      fold rest in Heq. rewrite Heq.
      exists w'. split; [|done]. by rewrite <- app_assoc.
    + rewrite (update_index_hit E _ _ _ _ _ _ _ key "0" ["0"; "0"; "0"] 0 Hl Hs eq_refl
                 eq_refl Hb).
      rewrite Hsame, (Hlen (zero_record key)).
      destruct (IH w (pre ++ [zero_record key])) as (w' & Heq & Hf).
      fold rest in Heq. rewrite Heq.
      exists w'. split; [|done]. by rewrite <- app_assoc.
    + assert (Hne0 : 0 <> total) by lia.
      rewrite (update_index_stale E _ _ _ _ _ _ _ key "0" ["0"; "0"; "0"] 0 total owner
                 repo_name Hl Hs eq_refl eq_refl Hb Hne0 Hso).
      destruct (walk_serves_result E owner repo_name (pre ++ zero_record key :: rest) cc
                  (posts w) None hs (Hwalk (posts w)) fuel w 0 0 0 Hfuel eq_refl)
        as (w1 & -> & Hf1).
      rewrite !Z.add_0_l. cbn [written_record]. rewrite Hins.
      match goal with |- context [(pre ++ [?l]) ++ rest] =>
        rewrite (Hlen l); destruct (IH w1 (pre ++ [l])) as (w' & Heq & Hf)
      end.
      fold rest in Heq. rewrite Heq.
      exists w'. split; [|congruence]. by rewrite <- app_assoc.
Qed.

(** The pass over records that are all up to date changes nothing and
    asks nothing. *)
Lemma update_from_up_to_date (fuel : nat) (cc : list string)
    (edges : list repo_edge) (rs : list cache_record) :
  digest_is_token E ->
  Forall2 (up_to_date E) edges rs ->
  forall w pre,
    update_from E fuel w cc (pre ++ map record_line rs) (length pre) edges =
    Some (Ok (pre ++ map record_line rs), w).
Proof.
  intros Hd. induction 1 as [|edge r edges rs [Hk Hb] _ IH]; intros w pre; [done|].
  rewrite update_from_cons. cbn [map].
  assert (Ht : is_token (record_key r) = true) by (rewrite Hk; apply Hd).
  rewrite (update_index_hit E _ _ _ _ _ _ (record_line r) (record_key r)
             (Py.str (record_total r))
             [Py.str (record_mine r); Py.str (record_add r); Py.str (record_del r)]
             (record_total r));
    [|by apply list_lookup_middle|by apply split_record_line|done|apply int_str|done].
  specialize (IH w (pre ++ [record_line r])).
  rewrite length_app, <- app_assoc in IH. simpl in IH.
  rewrite Nat.add_1_r in IH. by rewrite IH.
Qed.

Lemma record_lines_full (rs : list cache_record) :
  Forall (fun r => is_token (record_key r) = true) rs ->
  Forall (fun l => full_line l = true) (map record_line rs).
Proof.
  intros H. apply Forall_forall. intros l Hl.
  apply list_elem_of_fmap in Hl as (r & -> & Hin).
  apply full_line_format_record. rewrite Forall_forall in H. by apply H.
Qed.

(** What [cache_builder] has read when the cache file is there or can be
    created. *)
Lemma load_cache_found (w : world) (comment_size : nat) :
  (files w !! cache_filename E = None -> can_write E (cache_filename E) = true) ->
  exists text0 w0,
    load_cache E w (cache_filename E) comment_size = (Ok (Py.readlines text0), w0) /\
    files w0 !! cache_filename E = Some text0 /\
    take comment_size (Py.readlines text0) = header_found E w comment_size /\
    length (Py.readlines text0) = lines_found E w comment_size /\
    posts w0 = posts w /\ recursive_loc_calls w0 = recursive_loc_calls w.
Proof.
  intros Hcw. unfold load_cache, header_found, lines_found.
  destruct (files w !! cache_filename E) as [text|] eqn:Hf.
  - by exists text, w.
  - assert ((if (0 <? comment_size)%nat then replicate comment_size comment_line else [])
            = replicate comment_size comment_line) as -> by (by destruct comment_size).
    rewrite fs_run_write_file by auto.
    assert (Hread : Py.readlines (Py.text_of (replicate comment_size comment_line)) =
                    replicate comment_size comment_line).
    { apply readlines_text_of, lines_ok_full, Forall_replicate, full_line_comment_line. }
    eexists _, _. split; [by rewrite Hread|].
    cbn [files set_files posts recursive_loc_calls]. rewrite lookup_insert_eq, Hread.
    split; [done|]. split; [by rewrite take_ge by (by rewrite length_replicate)|].
    by rewrite length_replicate.
Qed.

End WholeRun.

(** X18. A run that rebuilds the cache (forced, or because the number of
    record lines found differs from the number of repositories) computes
    the owner's totals from the remote. With a header of [comment_size]
    lines that end in a newline, and the remote serving a walk over each
    repository that has commits, the run returns the sums of the
    additions and of the deletions of the owner's commits over all the
    repositories, their difference, and [cached = False]; the cache file
    then holds the header followed by one record per repository, in the
    order of the listing, and [commit_counter] returns the number of the
    owner's commits. *)
Theorem X18_rebuild_totals (E : env) (fuel : nat) (w : world) (edges : list repo_edge)
    (comment_size : nat) (force_cache : bool) (rs : list cache_record) :
  let filename := cache_filename E in
  let header := header_found E w comment_size in
  digest_is_token E ->
  can_write E (tmp_of filename) = true ->
  (files w !! filename = None -> can_write E filename = true) ->
  length header = comment_size ->
  Forall (fun l => full_line l = true) header ->
  (force_cache = true \/
   Z.of_nat (lines_found E w comment_size) - Z.of_nat comment_size <> Z.of_nat (length edges)) ->
  Forall2 (rebuilt E fuel) edges rs ->
  exists w1,
    cache_builder E fuel w edges comment_size force_cache =
      Some (Ok (sum_records record_add rs, sum_records record_del rs,
                sum_records record_add rs - sum_records record_del rs, false), w1) /\
    files w1 !! filename = Some (Py.text_of (header ++ map record_line rs)) /\
    commit_counter E w1 comment_size = Ok (sum_records record_mine rs).
Proof.
  intros filename header. subst filename header.
  set (filename := cache_filename E). set (header := header_found E w comment_size).
  intros Hd Hcw Hcf Hlen Hfull Hflush Hrs.
  assert (Htok : Forall (fun r => is_token (record_key r) = true) rs).
  { apply Forall_forall. intros r Hr.
    apply list_elem_of_lookup in Hr as [i Hi].
    destruct (Forall2_lookup_r _ _ _ i r Hrs Hi) as (edge & _ & Hre).
    rewrite (rebuilt_key E _ _ _ Hre). apply Hd. }
  unfold cache_builder.
  destruct (load_cache_found E w comment_size Hcf)
    as (text0 & w0 & Hload & Hf0 & Htake & Hcount & _ & _).
  fold filename in Hload, Hf0. fold header in Htake. fold filename. rewrite Hload.
  unfold reconcile.
  assert (needs_flush (Py.readlines text0) comment_size edges force_cache = true) as ->.
  { unfold needs_flush. rewrite Hcount. destruct Hflush as [->|Hne]; [by rewrite orb_true_r|].
    apply orb_true_iff. left. apply negb_true_iff. lia. }
  rewrite (flush_cache_ok E w0 edges filename comment_size text0 Hf0 Hcw), Htake.
  cbn [files set_files]. rewrite lookup_insert_eq.
  set (skeleton := map (fun node => zero_record (repo_key E node)) edges).
  assert (Hsk : Forall (fun l => full_line l = true) skeleton).
  { apply Forall_forall. intros l Hl.
    apply list_elem_of_fmap in Hl as (node & -> & _). apply full_line_zero_record, Hd. }
  rewrite readlines_text_of by (apply lines_ok_app_full; [done|by apply lines_ok_full]).
  unfold cache_builder_tail.
  rewrite take_app_length', drop_app_length' by done.
  destruct (update_from_rebuild E fuel header edges rs Hd Hrs
              (set_files w0 (<[filename := Py.text_of (header ++ skeleton)]>
                               (delete (tmp_of filename) (files w0)))) [])
    as (w' & Hup & Hfiles).
  simpl in Hup. fold skeleton in Hup. rewrite Hup.
  rewrite fs_run_atomic_write by done.
  rewrite sum_loc_records by done. rewrite !Z.add_0_l.
  eexists. split; [reflexivity|].
  cbn [files set_files]. split; [apply lookup_insert_eq|].
  unfold commit_counter. cbn [files set_files]. fold filename. rewrite lookup_insert_eq.
  rewrite readlines_text_of
    by (apply lines_ok_app_full; [done|by apply lines_ok_full, record_lines_full]).
  rewrite drop_app_length' by done.
  by rewrite sum_commits_records.
Qed.

Lemma X18_rebuild_totals_witness :
  exists w1,
    cache_builder demo_env 5 (demo_world ∅) [demo_repo; demo_empty_repo] 2 false =
      Some (Ok (10, 2, 8, false), w1) /\
    files w1 !! cache_filename demo_env =
      Some (Py.text_of (replicate 2 comment_line ++ map record_line demo_rebuilt_records)) /\
    commit_counter demo_env w1 2 = Ok 1.
Proof.
  destruct (X18_rebuild_totals demo_env 5 (demo_world ∅) [demo_repo; demo_empty_repo] 2 false
              demo_rebuilt_records) as (w1 & Hrun & Hfile & Hcommits);
    [..|exists w1; split; [exact Hrun|split; [exact Hfile|exact Hcommits]]].
  - apply demo_digest_token.
  - reflexivity.
  - reflexivity.
  - reflexivity.
  - repeat constructor.
  - right. vm_compute. discriminate.
  - constructor; [|constructor; [|constructor]].
    + apply (rebuilt_walk demo_env 5 demo_repo 3 "me" "repo" [demo_history]).
      * reflexivity.
      * lia.
      * reflexivity.
      * intros t. apply walk_serves_last with (k := 0%nat).
        -- split; [lia|]. split; [intros j Hj; lia|reflexivity].
        -- by right.
      * simpl. lia.
    + by apply (rebuilt_branchless demo_env 5 demo_empty_repo).
Defined.

(** X19. A run on a cache that is up to date asks nothing. When the cache
    file holds [comment_size] header lines that end in a newline followed
    by one record per repository of the listing, each with the key of
    its repository and the total that the listing reports, the run
    without a forced rebuild posts no request, returns the sums of the
    stored additions and deletions with [cached = True], and writes the
    cache file back with the same text. *)
Theorem X19_up_to_date_run (E : env) (fuel : nat) (w : world) (edges : list repo_edge)
    (header : list string) (rs : list cache_record) :
  let filename := cache_filename E in
  let text := Py.text_of (header ++ map record_line rs) in
  digest_is_token E ->
  can_write E (tmp_of filename) = true ->
  files w !! filename = Some text ->
  Forall (fun l => full_line l = true) header ->
  Forall2 (up_to_date E) edges rs ->
  exists w1,
    cache_builder E fuel w edges (length header) false =
      Some (Ok (sum_records record_add rs, sum_records record_del rs,
                sum_records record_add rs - sum_records record_del rs, true), w1) /\
    posts w1 = posts w /\
    recursive_loc_calls w1 = recursive_loc_calls w /\
    files w1 !! filename = Some text.
Proof.
  intros filename text. subst filename text.
  set (filename := cache_filename E).
  set (text := Py.text_of (header ++ map record_line rs)).
  intros Hd Hcw Hf Hfull Hrs.
  assert (Htok : Forall (fun r => is_token (record_key r) = true) rs).
  { apply Forall_forall. intros r Hr. apply list_elem_of_lookup in Hr as [i Hi].
    destruct (Forall2_lookup_r _ _ _ i r Hrs Hi) as (edge & _ & Hk & _).
    rewrite Hk. apply Hd. }
  assert (Hread : Py.readlines text = header ++ map record_line rs).
  { apply readlines_text_of, lines_ok_app_full; [done|].
    by apply lines_ok_full, record_lines_full. }
  unfold cache_builder, load_cache. fold filename. rewrite Hf, Hread.
  unfold reconcile.
  assert (needs_flush (header ++ map record_line rs) (length header) edges false = false) as ->.
  { unfold needs_flush. rewrite orb_false_r. apply negb_false_iff, Z.eqb_eq.
    rewrite length_app, length_map, (Forall2_length _ _ _ Hrs). lia. }
  unfold cache_builder_tail.
  rewrite take_app_length, drop_app_length.
  pose proof (update_from_up_to_date E fuel header edges rs Hd Hrs w []) as Hup.
  simpl in Hup. rewrite Hup.
  rewrite fs_run_atomic_write by done.
  rewrite sum_loc_records by done. rewrite !Z.add_0_l.
  eexists. split; [reflexivity|].
  cbn [files set_files posts recursive_loc_calls]. repeat split.
  apply lookup_insert_eq.
Qed.

Lemma X19_up_to_date_run_witness :
  exists w1,
    cache_builder demo_env 5 demo_cache_world [demo_repo; demo_gone_repo] 1 false =
      Some (Ok (17, 11, 6, true), w1) /\
    posts w1 = 0%nat /\
    recursive_loc_calls w1 = 0%nat /\
    files w1 !! cache_filename demo_env =
      Some (Py.text_of ([comment_line] ++ map record_line demo_records)).
Proof.
  destruct (X19_up_to_date_run demo_env 5 demo_cache_world [demo_repo; demo_gone_repo]
              [comment_line] demo_records) as (w1 & Hrun & Hposts & Hcalls & Hfile);
    [..|exists w1; split; [exact Hrun|split; [exact Hposts|split; [exact Hcalls|exact Hfile]]]].
  - apply demo_digest_token.
  - reflexivity.
  - vm_compute. reflexivity.
  - repeat constructor.
  - repeat constructor.
Defined.

(** The pass over stored records with the keys of the listing: every
    position gets its synced record. *)
Lemma update_from_synced (E : env) (fuel : nat) (cc : list string)
    (edges : list repo_edge) (rrs : list (cache_record * cache_record)) :
  digest_is_token E ->
  Forall2 (fun edge p => record_key p.1 = repo_key E edge /\ synced E fuel edge p.1 p.2)
    edges rrs ->
  forall w pre, exists w',
    update_from E fuel w cc (pre ++ map record_line rrs.*1) (length pre) edges =
      Some (Ok (pre ++ map record_line rrs.*2), w') /\
    files w' = files w.
Proof.
  intros Hd. induction 1 as [|edge [r r'] edges rrs [Hk Hr] _ IH]; intros w pre.
  - exists w. done.
  - rewrite update_from_cons. cbn [map fmap list_fmap fst snd] in *.
    set (rest := map record_line rrs.*1) in *.
    assert (Ht : is_token (record_key r) = true) by (rewrite Hk; apply Hd).
    assert (Hl : (pre ++ record_line r :: rest) !! length pre = Some (record_line r))
      by (by apply list_lookup_middle).
    pose proof (split_record_line r Ht) as Hs.
    assert (Hins : forall l, <[length pre := l]> (pre ++ record_line r :: rest) =
                             (pre ++ [l]) ++ rest).
    { intros l. rewrite insert_app_r_alt, Nat.sub_diag by done.
      by rewrite <- app_assoc. }
    assert (Hsame : pre ++ record_line r :: rest = (pre ++ [record_line r]) ++ rest)
      by (by rewrite <- app_assoc).
    assert (Hlen : forall l : string, S (length pre) = length (pre ++ [l]))
      by (intros l; rewrite length_app; simpl; lia).
    destruct Hr as [Hb|Hb|total owner repo_name hs Hb Hne Hso Hwalk Hfuel].
    + rewrite (update_index_hit E _ _ _ _ _ _ _ _ _ _ (record_total r) Hl Hs Hk
                 (int_str _) Hb).
      rewrite Hsame, (Hlen (record_line r)).
      destruct (IH w (pre ++ [record_line r])) as (w' & Heq & Hf).
      rewrite Heq. exists w'. split; [|done]. by rewrite <- app_assoc.
    + rewrite (update_index_branchless E _ _ _ _ _ _ _ _ _ _ (record_total r) Hl Hs Hk
                 (int_str _) Hb).
      rewrite Hins, (Hlen (zero_record (record_key r))).
      destruct (IH w (pre ++ [zero_record (record_key r)])) as (w' & Heq & Hf).
      rewrite Heq. exists w'. split; [|done]. by rewrite <- app_assoc.
    + rewrite (update_index_stale E _ _ _ _ _ _ _ _ _ _ (record_total r) total owner
                 repo_name Hl Hs Hk (int_str _) Hb Hne Hso).
      destruct (walk_serves_result E owner repo_name (pre ++ record_line r :: rest) cc
                  (posts w) None hs (Hwalk (posts w)) fuel w 0 0 0 Hfuel eq_refl)
        as (w1 & -> & Hf1).
      rewrite !Z.add_0_l. cbn [written_record]. rewrite Hins.
      match goal with |- context [(pre ++ [?l]) ++ rest] =>
        rewrite (Hlen l); destruct (IH w1 (pre ++ [l])) as (w' & Heq & Hf)
      end.
      rewrite Heq. exists w'. split; [|congruence]. by rewrite <- app_assoc.
Qed.

(** X20. A run without a rebuild brings the cache up to date record by
    record. When the cache file holds [comment_size] header lines that
    end in a newline followed by one record per repository of the
    listing, each with the key of its repository, the run leaves alone
    the records whose total is the one that the listing reports, zeroes
    those of the repositories without a default branch, and replaces the
    others by the new total and the counts of the owner's commits that
    the remote serves. It returns the sums of the additions and
    deletions of the resulting records with [cached = True], the cache
    file holds the header followed by these records, and
    [commit_counter] returns the sum of their commit counts. *)
Theorem X20_incremental_run (E : env) (fuel : nat) (w : world) (edges : list repo_edge)
    (header : list string) (rrs : list (cache_record * cache_record)) :
  let filename := cache_filename E in
  digest_is_token E ->
  can_write E (tmp_of filename) = true ->
  files w !! filename = Some (Py.text_of (header ++ map record_line rrs.*1)) ->
  Forall (fun l => full_line l = true) header ->
  Forall2 (fun edge p => record_key p.1 = repo_key E edge /\ synced E fuel edge p.1 p.2)
    edges rrs ->
  exists w1,
    cache_builder E fuel w edges (length header) false =
      Some (Ok (sum_records record_add rrs.*2, sum_records record_del rrs.*2,
                sum_records record_add rrs.*2 - sum_records record_del rrs.*2, true), w1) /\
    files w1 !! filename = Some (Py.text_of (header ++ map record_line rrs.*2)) /\
    commit_counter E w1 (length header) = Ok (sum_records record_mine rrs.*2).
Proof.
  intros filename. subst filename. set (filename := cache_filename E).
  intros Hd Hcw Hf Hfull Hrs.
  assert (Htok1 : Forall (fun r => is_token (record_key r) = true) rrs.*1).
  { apply Forall_forall. intros r Hr. apply list_elem_of_fmap in Hr as (p & -> & Hp).
    apply list_elem_of_lookup in Hp as [i Hi].
    destruct (Forall2_lookup_r _ _ _ i p Hrs Hi) as (edge & _ & Hk & _).
    rewrite Hk. apply Hd. }
  assert (Htok2 : Forall (fun r => is_token (record_key r) = true) rrs.*2).
  { apply Forall_forall. intros r Hr. apply list_elem_of_fmap in Hr as (p & -> & Hp).
    apply list_elem_of_lookup in Hp as [i Hi].
    destruct (Forall2_lookup_r _ _ _ i p Hrs Hi) as (edge & _ & Hk & Hsync).
    assert (record_key p.2 = record_key p.1) as -> by (by destruct Hsync).
    rewrite Hk. apply Hd. }
  assert (Hread : Py.readlines (Py.text_of (header ++ map record_line rrs.*1)) =
                  header ++ map record_line rrs.*1).
  { apply readlines_text_of, lines_ok_app_full; [done|].
    by apply lines_ok_full, record_lines_full. }
  unfold cache_builder, load_cache. fold filename. rewrite Hf, Hread.
  unfold reconcile.
  assert (needs_flush (header ++ map record_line rrs.*1) (length header) edges false = false)
    as ->.
  { unfold needs_flush. rewrite orb_false_r. apply negb_false_iff, Z.eqb_eq.
    rewrite length_app, length_map, length_fmap, (Forall2_length _ _ _ Hrs). lia. }
  unfold cache_builder_tail.
  rewrite take_app_length, drop_app_length.
  destruct (update_from_synced E fuel header edges rrs Hd Hrs w []) as (w' & Hup & Hfiles).
  simpl in Hup. rewrite Hup.
  rewrite fs_run_atomic_write by done.
  rewrite sum_loc_records by done. rewrite !Z.add_0_l.
  eexists. split; [reflexivity|].
  cbn [files set_files]. split; [apply lookup_insert_eq|].
  unfold commit_counter. cbn [files set_files]. fold filename. rewrite lookup_insert_eq.
  rewrite readlines_text_of
    by (apply lines_ok_app_full; [done|by apply lines_ok_full, record_lines_full]).
  rewrite drop_app_length.
  by rewrite sum_commits_records.
Qed.

Lemma X20_incremental_run_witness :
  exists w1,
    cache_builder demo_env 5 demo_stale_cache_world [demo_repo; demo_gone_repo] 1 false =
      Some (Ok (17, 11, 6, true), w1) /\
    files w1 !! cache_filename demo_env =
      Some (Py.text_of ([comment_line] ++ map record_line demo_stale_records.*2)) /\
    commit_counter demo_env w1 1 = Ok 5.
Proof.
  destruct (X20_incremental_run demo_env 5 demo_stale_cache_world [demo_repo; demo_gone_repo]
              [comment_line] demo_stale_records) as (w1 & Hrun & Hfile & Hcommits);
    [..|exists w1; split; [exact Hrun|split; [exact Hfile|exact Hcommits]]].
  - apply demo_digest_token.
  - reflexivity.
  - vm_compute. reflexivity.
  - repeat constructor.
  - constructor; [|constructor; [|constructor]].
    + split; [reflexivity|].
      cbn [fst snd].
      refine (synced_walk demo_env 5 demo_repo
                {| record_key := "r7"; record_total := 1; record_mine := 1;
                   record_add := 4; record_del := 1 |}
                3 "me" "repo" [demo_history] _ _ _ _ _).
      * reflexivity.
      * simpl. lia.
      * reflexivity.
      * intros t. apply walk_serves_last with (k := 0%nat).
        -- split; [lia|]. split; [intros j Hj; lia|reflexivity].
        -- by right.
      * simpl. lia.
    + split; [reflexivity|]. by apply synced_hit.
Defined.
